(** * Annuaire Santé search proxy: query routing, fallback, batching, merge
    and post-filters of the Cloudflare function [/api/search].

    The development embeds the search handler (the revision with
    [handleLoadMore], batches of 50 and a batch ceiling) together with the
    two older pieces the specification also refers to: the uncapped
    [fetchRolesForPractitioners] with batches of 20 and the
    strategy-list [searchByName]. *)

From Stdlib Require Import ZArith Ascii String DecimalString DecimalPos.
From stdpp Require Import gmap strings list.

Local Open Scope Z_scope.

(** ** JavaScript values and built-ins used by the handler *)

Module Js.

(** A JS number as the handler meets it: an integer or NaN.  [Int z] is the
    number [z]; it is the value the code computes as long as [z] is one of
    the integers a double holds exactly ([safe]).  Beyond them [parseInt]
    rounds and [toString] switches to exponent notation, which the
    integers here do not follow: statements about the digits of a number
    assume [safe]. *)
Inductive Num :=
| NaN
| Int (z : Z).

(** [Number.isSafeInteger(n)], or NaN. *)
Definition safe (n : Num) : Prop :=
  match n with
  | NaN => True
  | Int z => - 2 ^ 53 < z < 2 ^ 53
  end.

(** [x <= y] on numbers: every comparison with NaN is false. *)
Definition le (x y : Num) : bool :=
  match x, y with
  | Int a, Int b => a <=? b
  | _, _ => false
  end.

(** [Math.min(x, y)]: NaN as soon as one argument is NaN. *)
Definition min (x y : Num) : Num :=
  match x, y with
  | Int a, Int b => Int (Z.min a b)
  | _, _ => NaN
  end.

(** A JS string is held as the bytes of its UTF-8 encoding.  Equality,
    concatenation, [startsWith], [includes], [replace] and [join] are the
    same on the bytes as on the string.  Lengths and case mapping are not:
    [substring] counts UTF-16 code units and [toLowerCase] maps every cased
    letter, where the definitions below count bytes and map the letters A
    to Z only.  They are the code's on strings of ASCII characters
    ([ascii_only]), and statements that depend on them assume as much. *)
Definition ascii_only (s : string) : bool :=
  forallb (fun c => (nat_of_ascii c <? 128)%nat) (list_ascii_of_string s).

(** The names every plain object inherits from [Object.prototype].  On an
    object used as a dictionary, [o[k]] for such a [k] that was never
    assigned is the inherited member (a function; the prototype itself for
    [__proto__]), not [undefined]. *)
Definition inherited (k : string) : bool :=
  bool_decide
    (k ∈ ["constructor"; "hasOwnProperty"; "isPrototypeOf"; "propertyIsEnumerable";
          "toLocaleString"; "toString"; "valueOf"; "__proto__";
          "__defineGetter__"; "__defineSetter__"; "__lookupGetter__";
          "__lookupSetter__"]).

(** Truthiness of a string: only the empty string is falsy. *)
Definition truthy (s : string) : bool :=
  match s with
  | EmptyString => false
  | String _ _ => true
  end.

(** [o || d] where [o] is a string, [null] or [undefined]. *)
Definition or_str (o : option string) (d : string) : string :=
  match o with
  | Some s => if truthy s then s else d
  | None => d
  end.

(** [a || b] where both sides may be [undefined]. *)
Definition or_opt (a b : option string) : option string :=
  match a with
  | Some s => if truthy s then Some s else b
  | None => b
  end.

(** [o || null]. *)
Definition or_null (o : option string) : option string :=
  match o with
  | Some s => if truthy s then Some s else None
  | None => None
  end.

(** [s.startsWith(p)]. *)
Definition startsWith (s p : string) : bool := String.prefix p s.

(** [s.includes(sub)]. *)
Fixpoint includes (s sub : string) : bool :=
  String.prefix sub s ||
  match s with
  | EmptyString => false
  | String _ s' => includes s' sub
  end.

Fixpoint drop_chars (n : nat) (s : string) : string :=
  match n, s with
  | O, _ => s
  | S _, EmptyString => EmptyString
  | S k, String _ s' => drop_chars k s'
  end.

(** [s.replace(pat, '')] for a string pattern: the first occurrence of
    [pat] is removed. *)
Fixpoint remove_first (pat s : string) : string :=
  if String.prefix pat s then drop_chars (String.length pat) s
  else match s with
       | EmptyString => EmptyString
       | String c s' => String c (remove_first pat s')
       end.

(** [s.substring(0, n)] for a string of ASCII characters: [substring]
    counts UTF-16 code units, which are the bytes there. *)
Definition substring_to (n : nat) (s : string) : string := String.substring 0 n s.

Definition lower_char (c : ascii) : ascii :=
  let n := nat_of_ascii c in
  if ((65 <=? n) && (n <=? 90))%nat then ascii_of_nat (n + 32) else c.

(** [s.toLowerCase()] for a string of ASCII characters: the letters A to Z
    are mapped, every other byte is kept. *)
Fixpoint toLowerCase (s : string) : string :=
  match s with
  | EmptyString => EmptyString
  | String c s' => String (lower_char c) (toLowerCase s')
  end.

(** [l.join(sep)]. *)
Definition join (sep : string) (l : list string) : string :=
  String.concat sep l.

(** White space, as [\s], [trim] and [parseInt] have it: TAB, LF, VT, FF, CR
    and SPACE, and beyond ASCII U+00A0, U+1680, U+2000 to U+200A, U+2028,
    U+2029, U+202F, U+205F, U+3000 and U+FEFF.  [space_width s] is the
    number of bytes of the white-space character [s] starts with, and 0
    when it starts with none. *)
Definition wide_space (a b c : nat) : bool :=
  ((a =? 225) && (b =? 154) && (c =? 128) ||
   (a =? 226) && (b =? 128) &&
     ((128 <=? c) && (c <=? 138) || (c =? 168) || (c =? 169) || (c =? 175)) ||
   (a =? 226) && (b =? 129) && (c =? 159) ||
   (a =? 227) && (b =? 128) && (c =? 128) ||
   (a =? 239) && (b =? 187) && (c =? 191))%nat.

Definition space_width (s : string) : nat :=
  match s with
  | String a s1 =>
      if Ascii.is_space a then 1%nat
      else if (nat_of_ascii a <? 194)%nat then 0%nat
      else
        match s1 with
        | String b s2 =>
            if (nat_of_ascii a =? 194)%nat
            then (if (nat_of_ascii b =? 160)%nat then 2%nat else 0%nat)
            else
              match s2 with
              | String c _ =>
                  if wide_space (nat_of_ascii a) (nat_of_ascii b) (nat_of_ascii c)
                  then 3%nat else 0%nat
              | EmptyString => 0%nat
              end
        | EmptyString => 0%nat
        end
  | EmptyString => 0%nat
  end.

Arguments space_width : simpl never.

(** The token read so far, if any; [cur] holds its bytes last first. *)
Definition flush (cur : string) : list string :=
  match cur with
  | EmptyString => []
  | String _ _ => [String.rev cur]
  end.

(** The maximal runs of [s] without white space.  [skip] is the number of
    bytes still to pass of the white-space character being read. *)
Fixpoint tokens_go (skip : nat) (cur : string) (s : string) : list string :=
  match s with
  | EmptyString => flush cur
  | String a s' =>
      match skip with
      | S k => tokens_go k cur s'
      | O =>
          match space_width s with
          | O => tokens_go 0 (String a cur) s'
          | S k => flush cur ++ tokens_go k EmptyString s'
          end
      end
  end.

(** [s.trim().split(/\s+/)]: the tokens separated by white space; a string
    with no token at all still yields the one-element array [['']]. *)
Definition trim_split (s : string) : list string :=
  match tokens_go 0 EmptyString s with
  | [] => [EmptyString]
  | ws => ws
  end.

(** [l.slice(i, j)] for [0 <= i] and [0 <= j]. *)
Definition slice {A} (i j : nat) (l : list A) : list A :=
  take (j - i) (drop i l).

(** [l.slice(0, n)] for an arbitrary number [n]: NaN counts as 0 and a
    negative [n] is taken from the end of the array. *)
Definition slice_to {A} (n : Num) (l : list A) : list A :=
  match n with
  | NaN => []
  | Int z =>
      if 0 <=? z then take (Z.to_nat z) l
      else take (length l - Z.to_nat (- z)) l
  end.

(** [l.find(p)]. *)
Fixpoint find {A} (p : A -> bool) (l : list A) : option A :=
  match l with
  | [] => None
  | x :: l' => if p x then Some x else find p l'
  end.

(** [l.some(p)]. *)
Definition some {A} (p : A -> bool) (l : list A) : bool := existsb p l.

(** [l.filter(p)]. *)
Definition filter {A} (p : A -> bool) (l : list A) : list A :=
  List.filter p l.

Fixpoint digits (s : string) (acc : option Z) : option Z :=
  match s with
  | EmptyString => acc
  | String c s' =>
      match Ascii.is_nat c with
      | Some d => digits s' (Some (10 * default 0 acc + Z.of_nat d))
      | None => acc
      end
  end.

Fixpoint skip_space_go (skip : nat) (s : string) : string :=
  match s with
  | EmptyString => s
  | String _ s' =>
      match skip with
      | S k => skip_space_go k s'
      | O =>
          match space_width s with
          | O => s
          | S k => skip_space_go k s'
          end
      end
  end.

Definition skip_space (s : string) : string := skip_space_go 0 s.

(** [parseInt(s, 10)]: leading white space, an optional sign, then the
    longest run of decimal digits; NaN when there is no digit.  The result
    is the integer the digits denote, which is what [parseInt] returns for a
    [safe] integer. *)
Definition parseInt (s : string) : Num :=
  let s := skip_space s in
  let '(neg, body) :=
    match s with
    | String "-" s' => (true, s')
    | String "+" s' => (false, s')
    | _ => (false, s)
    end in
  match digits body None with
  | Some n => Int (if neg then - n else n)
  | None => NaN
  end.

Definition Z_toString (z : Z) : string :=
  NilEmpty.string_of_int (Z.to_int z).

(** [n.toString()] for NaN and for a [safe] integer: its decimal digits. *)
Definition toString (n : Num) : string :=
  match n with
  | NaN => "NaN"
  | Int z => Z_toString z
  end.

End Js.

(** ** Upstream (FHIR) resources, as far as the handler reads them

    Every field the parsers read is optional in the upstream JSON; [None]
    stands for an absent ([undefined]) field. *)

Record Coding := {
  coding_system : option string;
  coding_code : option string;
  coding_display : option string;
}.

Record CodeableConcept := {
  cc_coding : option (list Coding);
  cc_text : option string;
}.

Record Identifier := {
  identifier_system : option string;
  identifier_value : option string;
  identifier_type : option CodeableConcept;
}.

Record HumanName := {
  hn_family : option string;
  hn_given : option (list string);
  hn_prefix : option (list string);
  hn_suffix : option (list string);
}.

Record ContactPoint := {
  cp_system : option string;
  cp_value : option string;
  cp_use : option string;
}.

Record Address := {
  addr_line : option (list string);
  addr_postalCode : option string;
  addr_city : option string;
  addr_country : option string;
}.

Record Reference := { reference : option string }.

(** [resource.name] is an array of human names on a practitioner and a
    string on an organization. *)
Inductive NameField :=
| NameAbsent
| NameHuman (names : list HumanName)
| NameText (s : string).

Record Resource := {
  resourceType : string;
  res_id : string;
  res_identifier : option (list Identifier);
  res_name : NameField;
  res_qualification : option (list (option CodeableConcept));
  res_active : option bool;
  res_specialty : option (list CodeableConcept);
  res_telecom : option (list ContactPoint);
  res_practitioner : option Reference;
  res_organization : option Reference;
  res_address : option (list Address);
  res_type : option (list CodeableConcept);
}.

Record Link := { relation : string; link_url : string }.

(** A search bundle; [entry] lists [e.resource] for each entry [e]. *)
Record Bundle := {
  entry : option (list Resource);
  total : option Z;
  link : option (list Link);
}.

(** ** Parsed records *)

Record ParsedIdentifier := {
  pi_system : option string;
  pi_value : option string;
  pi_type : string;
}.

Record Qualification := {
  q_code : option string;
  q_display : option string;
  q_system : option string;
}.

Record Practitioner := {
  pract_id : string;
  rpps : option string;
  identifiers : list ParsedIdentifier;
  lastName : string;
  firstName : string;
  prefix : option string;
  suffix : option string;
  qualifications : list Qualification;
  pract_active : option bool;
}.

Record Telecom := {
  t_system : option string;
  t_value : option string;
  t_use : option string;
}.

(** [name: resource.name || ''] keeps whatever truthy value the field has. *)
Record Organization := {
  org_id : string;
  org_name : NameField;
  org_type : string;
  org_address : option string;
  org_city : option string;
  org_postalCode : option string;
  org_telecoms : list Telecom;
}.

(** A parsed role.  [role_address] and [role_city] are read by the city
    filter although [parsePractitionerRole] never sets them;
    [organization] is attached later by assignment. *)
Record Role := {
  role_id : string;
  practitionerId : string;
  organizationId : string;
  specialties : list (option string);
  telecoms : list Telecom;
  role_active : bool;
  role_address : option string;
  role_city : option string;
  organization : option Organization;
}.

(** [{ ...p, roles }] *)
Record MergedResult := {
  base : Practitioner;
  roles : list Role;
}.

Definition mr_id (r : MergedResult) : string := pract_id (base r).

(** ** Parsers *)

(** [xs?.[0]] *)
Definition first {A} (xs : option (list A)) : option A :=
  match xs with
  | Some (x :: _) => Some x
  | _ => None
  end.

(** [cc?.coding?.[0]] *)
Definition first_coding (cc : option CodeableConcept) : option Coding :=
  first (cc ≫= cc_coding).

Definition no_name : HumanName :=
  {| hn_family := None; hn_given := None; hn_prefix := None; hn_suffix := None |}.

(** [resource.name?.[0] || {}]: indexing a string gives a one-character
    string, which has none of the name fields. *)
Definition first_name (n : NameField) : HumanName :=
  match n with
  | NameHuman (h :: _) => h
  | _ => no_name
  end.

Definition parseIdentifier (i : Identifier) : ParsedIdentifier :=
  {| pi_system := identifier_system i;
     pi_value := identifier_value i;
     pi_type :=
       if from_option (fun s => Js.includes s "rpps") false (identifier_system i)
       then "RPPS"
       else if from_option (fun s => Js.includes s "adeli") false (identifier_system i)
       then "ADELI"
       else Js.or_str (first_coding (identifier_type i) ≫= coding_code) "OTHER" |}.

Definition parseQualification (q : option CodeableConcept) : Qualification :=
  {| q_code := first_coding q ≫= coding_code;
     q_display := Js.or_opt (first_coding q ≫= coding_display) (q ≫= cc_text);
     q_system := first_coding q ≫= coding_system |}.

Definition parsePractitioner (resource : Resource) : Practitioner :=
  let name := first_name (res_name resource) in
  let identifiers := parseIdentifier <$> default [] (res_identifier resource) in
  let qualifications := parseQualification <$> default [] (res_qualification resource) in
  let rpps :=
    Js.or_null (Js.find (fun i => String.eqb (pi_type i) "RPPS") identifiers ≫= pi_value) in
  {| pract_id := res_id resource;
     rpps := rpps;
     identifiers := identifiers;
     lastName := Js.or_str (hn_family name) "";
     firstName := Js.join " " (default [] (hn_given name));
     prefix := Some (Js.join " " (default [] (hn_prefix name)));
     suffix := Some (Js.join " " (default [] (hn_suffix name)));
     qualifications := qualifications;
     pract_active := Some (negb (bool_decide (res_active resource = Some false))) |}.

Definition parseTelecom (t : ContactPoint) : Telecom :=
  {| t_system := cp_system t; t_value := cp_value t; t_use := cp_use t |}.

Definition parsePractitionerRole (resource : Resource) : Role :=
  let specialties :=
    default [] (res_specialty resource) ≫= fun s =>
      (fun c => Js.or_opt (coding_display c) (coding_code c)) <$> default [] (cc_coding s) in
  let practRef := Js.or_str (res_practitioner resource ≫= reference) "" in
  let orgRef := Js.or_str (res_organization resource ≫= reference) "" in
  {| role_id := res_id resource;
     practitionerId := Js.remove_first "Practitioner/" practRef;
     organizationId := Js.remove_first "Organization/" orgRef;
     specialties := specialties;
     telecoms := parseTelecom <$> default [] (res_telecom resource);
     role_active := negb (bool_decide (res_active resource = Some false));
     role_address := None;
     role_city := None;
     organization := None |}.

(** [[...].filter(Boolean)] on strings that may be absent. *)
Definition truthy_strings (l : list (option string)) : list string :=
  omap Js.or_null l.

Definition formatAddress (addr : Address) : string :=
  Js.join ", "
    (truthy_strings
       ((Some <$> default [] (addr_line addr)) ++
        [Some (Js.join " " (truthy_strings [addr_postalCode addr; addr_city addr]));
         addr_country addr])).

Definition parseOrganization (resource : Resource) : Organization :=
  let addr := first (res_address resource) in
  {| org_id := res_id resource;
     org_name :=
       match res_name resource with
       | NameAbsent | NameText EmptyString => NameText ""
       | n => n
       end;
     org_type :=
       Js.or_str (first_coding (first (res_type resource)) ≫= coding_display) "";
     org_address := formatAddress <$> addr;
     org_city := Js.or_null (addr ≫= addr_city);
     org_postalCode := Js.or_null (addr ≫= addr_postalCode);
     org_telecoms :=
       (fun t => {| t_system := cp_system t; t_value := cp_value t; t_use := None |})
         <$> default [] (res_telecom resource) |}.

(** ** Exceptions and the remote-call monad *)

(** The outcome of evaluating JS code that may throw. *)
Inductive Outcome (A : Type) :=
| Ret (a : A)
| Throw (msg : string).
Arguments Ret {A} a.
Arguments Throw {A} msg.

(** A request sent upstream: [Search kind params] is the URL
    [`${API_BASE}/${kind}?${params}`], with [params] the entries of the
    [URLSearchParams] in order; [Follow url] fetches a URL as it is. *)
Inductive Request :=
| Search (kind : string) (params : list (string * string))
| Follow (url : string).

Inductive HttpResponse :=
| HttpOk (b : Bundle)
| HttpError (status : Z) (text : string).

(** The upstream server: its answer to the [n]-th call of a run. *)
Definition Upstream := nat -> Request -> HttpResponse.

(** Code that performs remote calls: it reads the upstream and appends every
    request it sends to the log of the run. *)
Definition M (A : Type) := Upstream -> list Request -> Outcome A * list Request.

Definition ret {A} (a : A) : M A := fun _ log => (Ret a, log).

Definition throw {A} (msg : string) : M A := fun _ log => (Throw msg, log).

Definition bind {A B} (m : M A) (f : A -> M B) : M B :=
  fun up log =>
    match m up log with
    | (Ret a, log') => f a up log'
    | (Throw msg, log') => (Throw msg, log')
    end.

Definition lift {A} (o : Outcome A) : M A := fun _ log => (o, log).

Notation "'let*' x ':=' m 'in' k" := (bind m (fun x => k))
  (at level 10, x name, m at level 100, k at level 200).

Definition API_BASE : string := "https://gateway.api.esante.gouv.fr/fhir/v2".

(** [fhirFetch]: the call is logged; a response that is not [ok] throws an
    error with the status and the beginning of the body
    ([body.substring(0, 200)], see [Js.substring_to]). *)
Definition fhirFetch (url : Request) : M Bundle :=
  fun up log =>
    match up (length log) url with
    | HttpOk b => (Ret b, log ++ [url])
    | HttpError status text =>
        (Throw ("FHIR API " +:+ Js.Z_toString status +:+ ": " +:+ Js.substring_to 200 text),
         log ++ [url])
    end.

(** ** URLSearchParams *)

Definition get (params : list (string * string)) (k : string) : option string :=
  snd <$> Js.find (fun kv => String.eqb (fst kv) k) params.

(** [params.set(k, v)]: the first entry named [k] takes the value and the
    other entries named [k] go; a new name is appended. *)
Fixpoint set (k v : string) (params : list (string * string)) : list (string * string) :=
  match params with
  | [] => [(k, v)]
  | (k', v') :: rest =>
      if String.eqb k' k
      then (k, v) :: List.filter (fun kv => negb (String.eqb (fst kv) k)) rest
      else (k', v') :: set k v rest
  end.

(** ** Response envelopes *)

Record Envelope := {
  env_total : nat;
  totalFhir : option Z;
  results : list MergedResult;
  message : option string;
  (** absent key, [null], or a URL *)
  nextPage : option (option string);
}.

Inductive Body :=
| NoBody
| ErrorBody (error : string)
| Data (e : Envelope).

Record Response := { status : Z; body : Body }.

Definition jsonResponse (data : Body) (status : Z) : Response :=
  {| status := status; body := data |}.

Definition ok (e : Envelope) : Response := jsonResponse (Data e) 200.

(** [!bundle.entry?.length] *)
Definition no_entries (b : Bundle) : bool :=
  match entry b with
  | Some (_ :: _) => false
  | _ => true
  end.

(** [bundle.link?.find(l => l.relation === 'next')?.url] *)
Definition next_link (b : Bundle) : option string :=
  link_url <$> Js.find (fun l => String.eqb (relation l) "next") (default [] (link b)).

(** [bundle.total || 0] *)
Definition total_or_0 (b : Bundle) : Z := default 0 (total b).

(** ** Post-filters *)

(** [o?.toLowerCase().includes(needle)] *)
Definition opt_includes (o : option string) (needle : string) : bool :=
  match o with
  | Some s => Js.includes (Js.toLowerCase s) needle
  | None => false
  end.

Definition role_in_city (cityLower : string) (role : Role) : bool :=
  opt_includes (role_address role) cityLower ||
  opt_includes (role_city role) cityLower ||
  opt_includes (organization role ≫= org_city) cityLower ||
  opt_includes (organization role ≫= org_address) cityLower.

Definition filterByCity (results : list MergedResult) (city : string) : list MergedResult :=
  if negb (Js.truthy city) then results
  else
    let cityLower := Js.toLowerCase city in
    Js.filter (fun r => Js.some (role_in_city cityLower) (roles r)) results.

Definition TypeError_toLowerCase : string :=
  "Cannot read properties of undefined (reading 'toLowerCase')".

(** [l.some(p)] for a callback that may throw: the scan stops at the first
    element that matches or throws. *)
Fixpoint some_throwing {A} (p : A -> Outcome bool) (l : list A) : Outcome bool :=
  match l with
  | [] => Ret false
  | x :: l' =>
      match p x with
      | Ret true => Ret true
      | Ret false => some_throwing p l'
      | Throw msg => Throw msg
      end
  end.

(** [l.filter(p)] for a callback that may throw. *)
Fixpoint filter_throwing {A} (p : A -> Outcome bool) (l : list A) : Outcome (list A) :=
  match l with
  | [] => Ret []
  | x :: l' =>
      match p x with
      | Ret b =>
          match filter_throwing p l' with
          | Ret out => Ret (if b then x :: out else out)
          | Throw msg => Throw msg
          end
      | Throw msg => Throw msg
      end
  end.

(** [s => s.toLowerCase().includes(specLower)]; an [undefined] label has no
    [toLowerCase]. *)
Definition label_matches (specLower : string) (s : option string) : Outcome bool :=
  match s with
  | Some s => Ret (Js.includes (Js.toLowerCase s) specLower)
  | None => Throw TypeError_toLowerCase
  end.

Definition has_specialty (specLower : string) (r : MergedResult) : Outcome bool :=
  match some_throwing (fun role => some_throwing (label_matches specLower) (specialties role))
          (roles r) with
  | Ret true => Ret true
  | Ret false =>
      Ret (Js.some (fun q => opt_includes (q_display q) specLower) (qualifications (base r)))
  | Throw msg => Throw msg
  end.

Definition filterBySpecialty (results : list MergedResult) (specialty : string)
  : Outcome (list MergedResult) :=
  if negb (Js.truthy specialty) then Ret results
  else
    let specLower := Js.toLowerCase specialty in
    filter_throwing (has_specialty specLower) results.

(** ** Merge

    The plain objects the handler uses as dictionaries ([orgs],
    [rolesByPractitioner], [organizations]) are finite maps keyed by the id
    strings.  This is what the code does for ids that do not name a member
    of [Object.prototype] ([Js.inherited]).  For an id that does, the code
    finds the inherited member where the map has nothing:
    [rolesByPractitioner[id].push] throws and [rolesByPractitioner[id] || []]
    is that member, no array.  Statements that the code returns role lists
    are made for ids that are not inherited names. *)

(** [if (role.organizationId && orgs[role.organizationId])
       role.organization = orgs[role.organizationId]] *)
Definition attach (orgs : gmap string Organization) (role : Role) : Role :=
  if Js.truthy (organizationId role) then
    match orgs !! organizationId role with
    | Some o =>
        {| role_id := role_id role;
           practitionerId := practitionerId role;
           organizationId := organizationId role;
           specialties := specialties role;
           telecoms := telecoms role;
           role_active := role_active role;
           role_address := role_address role;
           role_city := role_city role;
           organization := Some o |}
    | None => role
    end
  else role.

(** [if (!m[pid]) m[pid] = []; m[pid].push(role)], for a [pid] that is not
    an inherited name (on one, [m[pid]] is the inherited member and [push]
    throws). *)
Definition push_role (pid : string) (role : Role) (m : gmap string (list Role))
  : gmap string (list Role) :=
  <[pid := default [] (m !! pid) ++ [role]]> m.

Definition group_role (orgs : gmap string Organization)
    (rolesByPractitioner : gmap string (list Role)) (role : Role)
  : gmap string (list Role) :=
  if negb (Js.truthy (practitionerId role)) then rolesByPractitioner
  else push_role (practitionerId role) (attach orgs role) rolesByPractitioner.

(** [{ ...p, roles: rolesByPractitioner[p.id] || [] }], for a [p.id] that is
    not an inherited name (on one, [roles] is the inherited member). *)
Definition with_roles (rolesByPractitioner : gmap string (list Role)) (p : Practitioner)
  : MergedResult :=
  {| base := p; roles := default [] (rolesByPractitioner !! pract_id p) |}.

Definition mergePractitionersAndRoles (practitioners : list Practitioner)
    (roles : list Role) (orgs : gmap string Organization) : list MergedResult :=
  let rolesByPractitioner := foldl (group_role orgs) ∅ roles in
  with_roles rolesByPractitioner <$> practitioners.

(** ** Batching loops *)

(** [i / batchSize < maxBatches]; the older revision has no ceiling. *)
Definition under (maxBatches : option nat) (n : nat) : bool :=
  match maxBatches with
  | Some m => (n <? m)%nat
  | None => true
  end.

(** The batching loops share their header
    [for (let i = 0; i < items.length && i / batchSize < maxBatches; i += batchSize)]
    and start with [const batch = items.slice(i, i + batchSize)].
    [fuel] bounds the number of iterations. *)
Fixpoint for_batches {St} (fuel batchSize : nat) (maxBatches : option nat)
    (items : list string) (body : list string -> St -> M St) (i : nat) (acc : St) : M St :=
  match fuel with
  | O => ret acc
  | S fuel' =>
      if (i <? length items)%nat && under maxBatches (i / batchSize)%nat then
        let batch := Js.slice i (i + batchSize) items in
        let* acc' := body batch acc in
        for_batches fuel' batchSize maxBatches items body (i + batchSize)%nat acc'
      else ret acc
  end.

(** ** Shared: fetch roles for practitioner ids *)

Record RolesAndOrgs := {
  practitionerRoles : list Role;
  organizations : gmap string Organization;
}.

Definition collect_entry (acc : RolesAndOrgs) (r : Resource) : RolesAndOrgs :=
  if String.eqb (resourceType r) "PractitionerRole" then
    {| practitionerRoles := practitionerRoles acc ++ [parsePractitionerRole r];
       organizations := organizations acc |}
  else if String.eqb (resourceType r) "Organization" then
    {| practitionerRoles := practitionerRoles acc;
       organizations := <[res_id r := parseOrganization r]> (organizations acc) |}
  else acc.

Definition roles_request (batch : list string) : Request :=
  Search "PractitionerRole"
    (set "_include" "PractitionerRole:organization"
       (set "_count" "200" (set "practitioner" (Js.join "," batch) []))).

Definition fetch_roles_batch (batch : list string) (acc : RolesAndOrgs) : M RolesAndOrgs :=
  let* bundle := fhirFetch (roles_request batch) in
  ret (foldl collect_entry acc (default [] (entry bundle))).

Definition no_roles : RolesAndOrgs :=
  {| practitionerRoles := []; organizations := ∅ |}.

(** [batchSize = 50], [maxBatches = 6]. *)
Definition fetchRolesForPractitioners (ids : list string) : M RolesAndOrgs :=
  for_batches (length ids) 50 (Some 6%nat) ids fetch_roles_batch 0 no_roles.

(** ** Strategies *)

Definition empty_envelope : Envelope :=
  {| env_total := 0; totalFhir := None; results := []; message := None; nextPage := None |}.

(** The tail shared by the practitioner searches: parse, fetch the roles,
    merge. *)
Definition resolve (entries : list Resource) : M (list MergedResult) :=
  let practitioners := parsePractitioner <$> entries in
  let* roles := fetchRolesForPractitioners (pract_id <$> practitioners) in
  ret (mergePractitionersAndRoles practitioners (practitionerRoles roles) (organizations roles)).

(** *** Load more (pagination) *)
Definition handleLoadMore (nextUrl : string) : M Response :=
  if negb (Js.startsWith nextUrl API_BASE) then
    ret (jsonResponse (ErrorBody "Invalid pagination URL") 400)
  else
    let* bundle := fhirFetch (Follow nextUrl) in
    if no_entries bundle then
      ret (ok {| env_total := 0; totalFhir := None; results := []; message := None;
                 nextPage := Some None |})
    else
      let* results := resolve (default [] (entry bundle)) in
      let fhirNext := Js.or_null (next_link bundle) in
      ret (ok {| env_total := length results; totalFhir := Some (total_or_0 bundle);
                 results := results; message := None; nextPage := Some fhirNext |}).

(** *** Search by specialty + city (reverse lookup via organizations) *)

Record RolesByOrg := {
  (** a [Set]: insertion order, no duplicates *)
  practitionerIds : list string;
  rolesByPractitioner : gmap string (list Role);
}.

Definition set_add (x : string) (s : list string) : list string :=
  if bool_decide (x ∈ s) then s else s ++ [x].

Definition index_org (acc : gmap string Organization * list string) (r : Resource)
  : gmap string Organization * list string :=
  let org := parseOrganization r in
  (<[org_id org := org]> acc.1, acc.2 ++ [org_id org]).

Definition collect_org_role (orgs : gmap string Organization) (acc : RolesByOrg) (r : Resource)
  : RolesByOrg :=
  if String.eqb (resourceType r) "PractitionerRole" then
    let role := attach orgs (parsePractitionerRole r) in
    let pid := practitionerId role in
    {| practitionerIds := set_add pid (practitionerIds acc);
       rolesByPractitioner := push_role pid role (rolesByPractitioner acc) |}
  else acc.

Definition org_roles_batch (orgs : gmap string Organization) (batch : list string)
    (acc : RolesByOrg) : M RolesByOrg :=
  let* roleBundle :=
    fhirFetch (Search "PractitionerRole"
                 (set "_count" "200" (set "organization" (Js.join "," batch) []))) in
  ret (foldl (collect_org_role orgs) acc (default [] (entry roleBundle))).

Definition practitioners_request (qualCode : string) (batch : list string) : Request :=
  Search "Practitioner"
    (set "_count" "200"
       (set "qualification-code" qualCode (set "_id" (Js.join "," batch) []))).

Definition matched_batch (qualCode : string) (batch : list string)
    (matchedPractitioners : list Practitioner) : M (list Practitioner) :=
  let* practBundle := fhirFetch (practitioners_request qualCode batch) in
  ret (matchedPractitioners ++ (parsePractitioner <$> default [] (entry practBundle))).

Definition organizations_request (city : string) : Request :=
  Search "Organization"
    (set "_elements" "id,name,address,telecom"
       (set "_count" "200" (set "address-city" city []))).

Definition searchBySpecialtyAndCity (qualCode city : string) (count : Js.Num) : M Response :=
  let* orgBundle := fhirFetch (organizations_request city) in
  if no_entries orgBundle then
    ret (ok {| env_total := 0; totalFhir := None; results := [];
               message := Some ("Aucune structure trouvée à " +:+ city); nextPage := None |})
  else
    let* allOrgEntries :=
      match next_link orgBundle with
      | Some nextOrgUrl =>
          if Js.truthy nextOrgUrl then
            let* nextBundle := fhirFetch (Follow nextOrgUrl) in
            ret (default [] (entry orgBundle) ++ default [] (entry nextBundle))
          else ret (default [] (entry orgBundle))
      | None => ret (default [] (entry orgBundle))
      end in
    let '(orgs, orgIds) := foldl index_org (∅, []) allOrgEntries in
    let batchSize := 50%nat in
    let maxOrgBatches := 6%nat in
    let limitedOrgIds := Js.slice 0 (batchSize * maxOrgBatches) orgIds in
    let* byOrg :=
      for_batches (length limitedOrgIds) batchSize (Some maxOrgBatches) limitedOrgIds
        (org_roles_batch orgs) 0
        {| practitionerIds := []; rolesByPractitioner := ∅ |} in
    if bool_decide (practitionerIds byOrg = []) then ret (ok empty_envelope)
    else
      let pidArray := practitionerIds byOrg in
      let maxPractBatches := 5%nat in
      let* matchedPractitioners :=
        for_batches (length pidArray) batchSize (Some maxPractBatches) pidArray
          (matched_batch qualCode) 0 [] in
      let results :=
        Js.slice_to count (with_roles (rolesByPractitioner byOrg) <$> matchedPractitioners) in
      ret (ok {| env_total := length results; totalFhir := None; results := results;
                 message := None; nextPage := None |}).

(** *** Search by qualification code *)

(** [parts[0]], [parts[parts.length - 1]], [parts.slice(1)] and
    [parts.slice(0, -1)] of a token array. *)
Definition first_token (parts : list string) : string := default "" (head parts).
Definition last_token (parts : list string) : string := default "" (last parts).
Definition rest_tokens (parts : list string) : list string := tail parts.
Definition leading_tokens (parts : list string) : list string := removelast parts.

(** [new URLSearchParams({ ... })] sent to [/Practitioner]. *)
Definition practitioner_search (params : list (string * string)) : Request :=
  Search "Practitioner" params.

Definition searchByQualificationCode (code name city : string) (count : Js.Num) : M Response :=
  if Js.truthy city && negb (Js.truthy name) then searchBySpecialtyAndCity code city count
  else
    let parts := if Js.truthy name then Js.trim_split name else [] in
    let* bundle :=
      if (2 <=? length parts)%nat then
        let* b1 :=
          fhirFetch (practitioner_search
                       [("qualification-code", code); ("family", first_token parts);
                        ("given", Js.join " " (rest_tokens parts)); ("_count", "200")]) in
        if no_entries b1 then
          fhirFetch (practitioner_search
                       [("qualification-code", code); ("family", last_token parts);
                        ("given", Js.join " " (leading_tokens parts)); ("_count", "200")])
        else ret b1
      else if (length parts =? 1)%nat then
        let* b1 :=
          fhirFetch (practitioner_search
                       [("qualification-code", code); ("family", name); ("_count", "200")]) in
        if no_entries b1 then
          fhirFetch (practitioner_search
                       [("qualification-code", code); ("name", name); ("_count", "200")])
        else ret b1
      else
        fhirFetch (practitioner_search [("qualification-code", code); ("_count", "200")]) in
    if no_entries bundle then
      ret (ok {| env_total := 0; totalFhir := Some (total_or_0 bundle); results := [];
                 message := None; nextPage := Some None |})
    else
      let* results := resolve (default [] (entry bundle)) in
      let results := filterByCity results city in
      let fhirNext := Js.or_null (next_link bundle) in
      ret (ok {| env_total := length results; totalFhir := Some (total_or_0 bundle);
                 results := results; message := None; nextPage := Some fhirNext |}).

(** *** Search by RPPS *)
Definition searchByRpps (rpps : string) : M Response :=
  let* bundle :=
    fhirFetch (Search "Practitioner"
                 (set "_count" "10"
                    (set "identifier" ("https://rpps.esante.gouv.fr|" +:+ rpps) []))) in
  if no_entries bundle then ret (ok empty_envelope)
  else
    let* results := resolve (default [] (entry bundle)) in
    ret (ok {| env_total := length results; totalFhir := None; results := results;
               message := None; nextPage := None |}).

(** *** Search by name *)

(** The query plans of the fallback chain. *)
Definition plan_family_given (family given : string) : Request :=
  practitioner_search [("family", family); ("given", given); ("_count", "200")].
Definition plan_family (family : string) : Request :=
  practitioner_search [("family", family); ("_count", "200")].
Definition plan_name (name : string) : Request :=
  practitioner_search [("name", name); ("_count", "200")].

(** The chain of [searchByName]: the most precise query first, the next one
    only when the previous bundle has no entry. *)
Definition name_chain (name : string) : M Bundle :=
  let parts := Js.trim_split name in
  if (2 <=? length parts)%nat then
    let* b1 :=
      fhirFetch (plan_family_given (first_token parts) (Js.join " " (rest_tokens parts))) in
    let* b2 :=
      if no_entries b1 then
        fhirFetch (plan_family_given (last_token parts) (Js.join " " (leading_tokens parts)))
      else ret b1 in
    if no_entries b2 then fhirFetch (plan_family (first_token parts)) else ret b2
  else
    let* b1 := fhirFetch (plan_family name) in
    if no_entries b1 then fhirFetch (plan_name name) else ret b1.

(** [bundle.total > n]: false when the total is absent. *)
Definition total_exceeds (b : Bundle) (n : nat) : bool :=
  match total b with
  | Some t => Z.of_nat n <? t
  | None => false
  end.

Definition refine_message (totalFhir : Z) : string :=
  Js.Z_toString totalFhir +:+
  " résultats au total — affinez votre recherche (ville, spécialité) pour des résultats plus précis".

(** What follows the choice of the bundle.  The revisions differ in the
    continuation pages they fetch before filtering ([extra_pages]), in the
    role fetcher behind [resolve_roles] and in whether the envelope has a
    [nextPage] key. *)
Definition finish_by_name (extra_pages : Bundle -> list Resource -> M (list Resource))
    (resolve_roles : list Resource -> M (list MergedResult)) (with_next : bool)
    (bundle : Bundle) (city specialty : string) (count : Js.Num) : M Response :=
  let allEntries := default [] (entry bundle) in
  let needsPostFilter := Js.truthy city || Js.truthy specialty in
  let* allEntries :=
    if needsPostFilter && total_exceeds bundle (length allEntries)
    then extra_pages bundle allEntries
    else ret allEntries in
  let* results := resolve_roles allEntries in
  let results := filterByCity results city in
  let* results := lift (filterBySpecialty results specialty) in
  let totalFhir := total_or_0 bundle in
  let results := Js.slice_to count results in
  ret (ok {| env_total := length results;
             totalFhir := Some totalFhir;
             message :=
               if (200 <? totalFhir) && negb needsPostFilter
               then Some (refine_message totalFhir) else None;
             results := results;
             nextPage :=
               if with_next then
                 Some (if negb needsPostFilter then Js.or_null (next_link bundle) else None)
               else None |}).

(** One extra page. *)
Definition one_more_page (bundle : Bundle) (allEntries : list Resource) : M (list Resource) :=
  match Js.or_null (next_link bundle) with
  | Some nextUrl =>
      let* page2 := fhirFetch (Follow nextUrl) in
      ret (allEntries ++ default [] (entry page2))
  | None => ret allEntries
  end.

Definition searchByName (name city specialty : string) (count : Js.Num) : M Response :=
  let* bundle := name_chain name in
  if no_entries bundle then
    ret (ok {| env_total := 0; totalFhir := Some (total_or_0 bundle); results := [];
               message := None; nextPage := None |})
  else finish_by_name one_more_page resolve true bundle city specialty count.

(** *** Search by role filters (city, specialty, no name) *)

(** A plain object whose keys are enumerated: the entries in insertion
    order. *)
Definition group_push (pid : string) (role : Role) (o : list (string * list Role))
  : list (string * list Role) :=
  if bool_decide (pid ∈ o.*1)
  then (fun kv => if String.eqb kv.1 pid then (kv.1, kv.2 ++ [role]) else kv) <$> o
  else o ++ [(pid, [role])].

(** A key that is an array index: a canonical decimal numeral below
    [2^32 - 1]. *)
Definition array_index (k : string) : option Z :=
  match k with
  | String c rest =>
      if forallb (fun d => bool_decide (is_Some (Ascii.is_nat d))) (list_ascii_of_string k)
         && (negb (Ascii.eqb c "0") || String.eqb rest "")
      then match Js.digits k None with
           | Some n => if n <? 4294967295 then Some n else None
           | None => None
           end
      else None
  | EmptyString => None
  end.

Fixpoint insert_index {A} (n : Z) (x : A) (l : list (Z * A)) : list (Z * A) :=
  match l with
  | [] => [(n, x)]
  | (m, y) :: l' => if n <? m then (n, x) :: l else (m, y) :: insert_index n x l'
  end.

(** [Object.entries(o)]: array-index keys first, in ascending order, then
    the other keys in insertion order. *)
Definition entries {A} (o : list (string * A)) : list (string * A) :=
  let indexed :=
    foldl (fun acc kv =>
             match array_index kv.1 with
             | Some n => insert_index n kv acc
             | None => acc
             end) [] o in
  (snd <$> indexed) ++ List.filter (fun kv => bool_decide (array_index kv.1 = None)) o.

Record Included := {
  inc_roles : list Role;
  inc_practitioners : gmap string Practitioner;
  inc_organizations : gmap string Organization;
}.

Definition separate (acc : Included) (r : Resource) : Included :=
  if String.eqb (resourceType r) "PractitionerRole" then
    {| inc_roles := inc_roles acc ++ [parsePractitionerRole r];
       inc_practitioners := inc_practitioners acc;
       inc_organizations := inc_organizations acc |}
  else if String.eqb (resourceType r) "Practitioner" then
    {| inc_roles := inc_roles acc;
       inc_practitioners := <[res_id r := parsePractitioner r]> (inc_practitioners acc);
       inc_organizations := inc_organizations acc |}
  else if String.eqb (resourceType r) "Organization" then
    {| inc_roles := inc_roles acc;
       inc_practitioners := inc_practitioners acc;
       inc_organizations := <[res_id r := parseOrganization r]> (inc_organizations acc) |}
  else acc.

(** [{ id: pid, lastName: '', firstName: '', rpps: null, identifiers: [],
      qualifications: [] }] *)
Definition unknown_practitioner (pid : string) : Practitioner :=
  {| pract_id := pid; rpps := None; identifiers := []; lastName := ""; firstName := "";
     prefix := None; suffix := None; qualifications := []; pract_active := None |}.

Definition searchByRoleFilters (city specialty : string) (count : Js.Num) : M Response :=
  let fhirParams :=
    set "_include" "PractitionerRole:organization"
      (set "_include" "PractitionerRole:practitioner"
         (set "_count" (Js.toString count) [])) in
  let fhirParams := if Js.truthy specialty then set "role" specialty fhirParams else fhirParams in
  let* bundle := fhirFetch (Search "PractitionerRole" fhirParams) in
  if no_entries bundle then ret (ok empty_envelope)
  else
    let inc :=
      foldl separate
        {| inc_roles := []; inc_practitioners := ∅; inc_organizations := ∅ |}
        (default [] (entry bundle)) in
    let practByRoles :=
      foldl (fun o role =>
               let role := attach (inc_organizations inc) role in
               group_push (practitionerId role) role o)
        [] (inc_roles inc) in
    let results :=
      (fun kv =>
         {| base := default (unknown_practitioner kv.1) (inc_practitioners inc !! kv.1);
            roles := kv.2 |}) <$> entries practByRoles in
    let results := filterByCity results city in
    let* results := lift (filterBySpecialty results specialty) in
    ret (ok {| env_total := length results; totalFhir := Some (total_or_0 bundle);
               results := results; message := None; nextPage := None |}).

(** ** The router *)

Definition handleSearch (params : list (string * string)) : M Response :=
  let nextUrl := Js.or_str (get params "next") "" in
  if Js.truthy nextUrl then handleLoadMore nextUrl
  else
    let name := Js.or_str (get params "name") "" in
    let city := Js.or_str (get params "city") "" in
    let specialty := Js.or_str (get params "specialty") "" in
    let specialtyCode := Js.or_str (get params "specialty_code") "" in
    let rpps := Js.or_str (get params "rpps") "" in
    let count := Js.min (Js.parseInt (Js.or_str (get params "count") "200")) (Js.Int 500) in
    if Js.truthy rpps then searchByRpps rpps
    else if Js.truthy specialtyCode then searchByQualificationCode specialtyCode name city count
    else if Js.truthy name then searchByName name city specialty count
    else if Js.truthy city then searchByRoleFilters city specialty count
    else ret (jsonResponse (ErrorBody "Remplis au moins un critère de recherche") 400).

(** [onRequest]: the CORS preflight, and any exception turned into a 500. *)
Definition onRequest (method : string) (params : list (string * string)) : M Response :=
  if String.eqb method "OPTIONS" then ret {| status := 200; body := NoBody |}
  else
    fun up log =>
      match handleSearch params up log with
      | (Ret r, log') => (Ret r, log')
      | (Throw msg, log') => (Ret (jsonResponse (ErrorBody msg) 500), log')
      end.

(** Running a handler against an upstream, from an empty log. *)
Definition run {A} (m : M A) (up : Upstream) : Outcome A * list Request := m up [].

(** ** The older revision: uncapped batches of 20, strategy list *)

Module Older.

(** [batchSize = 20], no batch ceiling. *)
Definition fetchRolesForPractitioners (ids : list string) : M RolesAndOrgs :=
  for_batches (length ids) 20 None ids fetch_roles_batch 0 no_roles.

Definition resolve (entries : list Resource) : M (list MergedResult) :=
  let practitioners := parsePractitioner <$> entries in
  let* roles := fetchRolesForPractitioners (pract_id <$> practitioners) in
  ret (mergePractitionersAndRoles practitioners (practitionerRoles roles) (organizations roles)).

(** A strategy is an object with some of the keys [family], [given] and
    [name]. *)
Definition strategies (name : string) : list (list (string * string)) :=
  let parts := Js.trim_split name in
  if (2 <=? length parts)%nat then
    [ [("family", first_token parts); ("given", Js.join " " (rest_tokens parts))];
      [("family", last_token parts); ("given", Js.join " " (leading_tokens parts))];
      [("family", first_token parts)];
      [("name", name)] ]
  else
    [ [("family", name)]; [("name", name)] ].

Definition strategy_request (strategy : list (string * string)) : Request :=
  Search "Practitioner"
    (set "_count" "200" (foldl (fun p kv => set kv.1 kv.2 p) [] strategy)).

(** [strategy.k] as a condition. *)
Definition has (strategy : list (string * string)) (k : string) : bool :=
  Js.truthy (Js.or_str (get strategy k) "").

(** The loop over the strategies, with [bestBundle] and [bestCount]. *)
Fixpoint try_strategies (single : bool) (todo : list (list (string * string)))
    (bestBundle : option Bundle) (bestCount : nat) : M (option Bundle) :=
  match todo with
  | [] => ret bestBundle
  | strategy :: rest =>
      let* bundle := fhirFetch (strategy_request strategy) in
      let entryCount := length (default [] (entry bundle)) in
      if (0 <? entryCount)%nat && has strategy "family" && has strategy "given" then
        ret (Some bundle)
      else
        let best :=
          if (bestCount <? entryCount)%nat then (Some bundle, entryCount)
          else (bestBundle, bestCount) in
        if (0 <? entryCount)%nat && has strategy "family" && negb (has strategy "given")
           && single
        then ret best.1
        else try_strategies single rest best.1 best.2
  end.

Definition best_bundle (name : string) : M (option Bundle) :=
  try_strategies (length (Js.trim_split name) =? 1)%nat (strategies name) None 0.

(** Up to two extra pages. *)
Definition two_more_pages (bundle : Bundle) (allEntries : list Resource)
  : M (list Resource) :=
  match Js.or_null (next_link bundle) with
  | Some nextUrl =>
      let* page2 := fhirFetch (Follow nextUrl) in
      let allEntries := allEntries ++ default [] (entry page2) in
      match Js.or_null (next_link page2) with
      | Some nextUrl2 =>
          if (length allEntries <? 600)%nat then
            let* page3 := fhirFetch (Follow nextUrl2) in
            ret (allEntries ++ default [] (entry page3))
          else ret allEntries
      | None => ret allEntries
      end
  | None => ret allEntries
  end.

Definition searchByName (name city specialty : string) (count : Js.Num) : M Response :=
  let* bestBundle := best_bundle name in
  match bestBundle with
  | Some bundle =>
      if no_entries bundle then
        ret (ok {| env_total := 0; totalFhir := Some (total_or_0 bundle); results := [];
                   message := None; nextPage := None |})
      else finish_by_name two_more_pages resolve false bundle city specialty count
  | None =>
      ret (ok {| env_total := 0; totalFhir := Some 0; results := [];
                 message := None; nextPage := None |})
  end.

End Older.

(** ** Specification-side vocabulary *)

(** [ceil(n / b)] *)
Definition ceil_div (n b : nat) : nat := ((n + b - 1) / b)%nat.

(** The number of batches a loop over [n] items sends. *)
Definition n_batches (batchSize : nat) (maxBatches : option nat) (n : nat) : nat :=
  match maxBatches with
  | Some m => ceil_div n batchSize `min` m
  | None => ceil_div n batchSize
  end.

(** Batches number [k], [k + 1], ..., [k + count - 1] of [items]. *)
Definition batches_from (k count batchSize : nat) (items : list string) : list (list string) :=
  (fun j => Js.slice (j * batchSize) (j * batchSize + batchSize) items) <$> seq k count.

(** The batches a loop sends, in order. *)
Definition batches_of (batchSize : nat) (maxBatches : option nat) (items : list string)
  : list (list string) :=
  batches_from 0 (n_batches batchSize maxBatches (length items)) batchSize items.

(** Running a loop body over a list of batches. *)
Fixpoint fold_batches {St} (body : list string -> St -> M St) (bs : list (list string))
    (acc : St) : M St :=
  match bs with
  | [] => ret acc
  | b :: bs' => let* acc' := body b acc in fold_batches body bs' acc'
  end.

(** The entries of an upstream answer; a failed call has none. *)
Definition answer_entries (r : HttpResponse) : list Resource :=
  match r with
  | HttpOk b => default [] (entry b)
  | HttpError _ _ => []
  end.

(** The entries the upstream returns to the requests [reqs] when they are
    sent as calls number [n], [n + 1], ... *)
Fixpoint seen (up : Upstream) (n : nat) (reqs : list Request) : list Resource :=
  match reqs with
  | [] => []
  | req :: reqs' => answer_entries (up n req) ++ seen up (S n) reqs'
  end.

(** An upstream that answers every call. *)
Definition healthy (up : Upstream) : Prop :=
  forall n req, exists b, up n req = HttpOk b.

Definition is_kind (kind : string) (r : Resource) : bool :=
  String.eqb (resourceType r) kind.

Definition same_org (id : string) (r : Resource) : bool :=
  is_kind "Organization" r && String.eqb (res_id r) id.

(** A resource with nothing but its type, id and practitioner reference. *)
Definition resource_of (kind id : string) (practitioner : option string) : Resource :=
  {| resourceType := kind; res_id := id; res_identifier := None; res_name := NameAbsent;
     res_qualification := None; res_active := None; res_specialty := None;
     res_telecom := None;
     res_practitioner := (fun ref => {| reference := Some ref |}) <$> practitioner;
     res_organization := None; res_address := None; res_type := None |}.

Definition bundle_of (entries : list Resource) : Bundle :=
  {| entry := Some entries; total := Some (Z.of_nat (length entries)); link := None |}.

(** An upstream that answers every call with the same entries. *)
Definition always (entries : list Resource) : Upstream :=
  fun _ _ => HttpOk (bundle_of entries).

(** An upstream that returns the same role twice. *)
Definition twice_r1 : Upstream :=
  always [resource_of "PractitionerRole" "r1" (Some "Practitioner/p1");
          resource_of "PractitionerRole" "r1" (Some "Practitioner/p1")].

(** Every specialty label of every role is a string. *)
Definition labelled (results : list MergedResult) : Prop :=
  Forall (fun r => Forall (fun role => Forall is_Some (specialties role)) (roles r)) results.

(** Two sample results: a cardiologist in Lyon and a dermatologist in Paris. *)
Definition role_with (id pid : string) (labels : list (option string)) (city : option string)
  : Role :=
  {| role_id := id; practitionerId := pid; organizationId := ""; specialties := labels;
     telecoms := []; role_active := true; role_address := None; role_city := city;
     organization := None |}.

Definition sample (pid : string) (labels : list (option string)) (city : option string)
  : MergedResult :=
  {| base := unknown_practitioner pid; roles := [role_with ("role-" +:+ pid) pid labels city] |}.

Definition cardiologist : MergedResult := sample "p1" [Some "Cardiologie"] (Some "LYON").
Definition dermatologist : MergedResult := sample "p2" [Some "Dermatologie"] (Some "Paris").

(** The roles grouped under [pid]: those with a non-empty practitioner id
    equal to [pid]. *)
Definition belongs_to (pid : string) (role : Role) : bool :=
  Js.truthy (practitionerId role) && String.eqb (practitionerId role) pid.

(** A role without practitioner reference next to a role of [p1]. *)
Definition orphan_role : Resource := resource_of "PractitionerRole" "r2" None.
Definition role_of_p1 : Resource :=
  resource_of "PractitionerRole" "r1" (Some "Practitioner/p1").

(** [params.get(k) || ''] *)
Definition field (params : list (string * string)) (k : string) : string :=
  Js.or_str (get params k) "".

(** The page size the router computes from [count]. *)
Definition page_size (params : list (string * string)) : Js.Num :=
  Js.min (Js.parseInt (Js.or_str (get params "count") "200")) (Js.Int 500).

Definition bad_request (msg : string) : Response := jsonResponse (ErrorBody msg) 400.

(** The envelope of a successful answer. *)
Definition envelope_of (o : Outcome Response) : option Envelope :=
  match o with
  | Ret {| status := 200; body := Data e |} => Some e
  | _ => None
  end.

(** [p] is the parse of an entry the upstream returned to one of the
    practitioner queries constrained by [qualCode] in [log]. *)
Definition fetched_by_code (qualCode : string) (up : Upstream) (log : list Request)
    (p : Practitioner) : Prop :=
  exists k batch b res,
    log !! k = Some (practitioners_request qualCode batch) /\
    up k (practitioners_request qualCode batch) = HttpOk b /\
    res ∈ default [] (entry b) /\
    p = parsePractitioner res.

(** A small registry: one organization in town, two practitioners with a
    role there, of whom only [p1] holds the qualification asked for. *)
Definition registry : Upstream :=
  fun _ req =>
    match req with
    | Search "Organization" _ => HttpOk (bundle_of [resource_of "Organization" "o1" None])
    | Search "PractitionerRole" _ =>
        HttpOk (bundle_of [resource_of "PractitionerRole" "r1" (Some "Practitioner/p1");
                           resource_of "PractitionerRole" "r2" (Some "Practitioner/p2")])
    | Search "Practitioner" _ => HttpOk (bundle_of [resource_of "Practitioner" "p1" None])
    | _ => HttpOk (bundle_of [])
    end.

(** The plans of the specification, in order: family and given names from
    the first token and the rest, from the last token and the leading ones,
    the first token alone as family name, the whole string as unstructured
    name; a single-token name goes to the last two, with the whole string as
    family name. *)
Definition spec_plans (name : string) : list Request :=
  let parts := Js.trim_split name in
  if (2 <=? length parts)%nat then
    [ plan_family_given (first_token parts) (Js.join " " (rest_tokens parts));
      plan_family_given (last_token parts) (Js.join " " (leading_tokens parts));
      plan_family (first_token parts);
      plan_name name ]
  else [ plan_family name; plan_name name ].

(** The plans [name_chain] can send. *)
Definition chain_plans (name : string) : list Request :=
  let parts := Js.trim_split name in
  if (2 <=? length parts)%nat then
    [ plan_family_given (first_token parts) (Js.join " " (rest_tokens parts));
      plan_family_given (last_token parts) (Js.join " " (leading_tokens parts));
      plan_family (first_token parts) ]
  else [ plan_family name; plan_name name ].

(** The plans a chain attempts when it goes through [plans] in order, sends
    them as calls number [n], [n + 1], ... and stops after a plan whose call
    fails or whose bundle satisfies [stop]. *)
Fixpoint attempts {P} (request : P -> Request) (stop : P -> Bundle -> bool)
    (up : Upstream) (n : nat) (plans : list P) : list P :=
  match plans with
  | [] => []
  | p :: rest =>
      p :: match up n (request p) with
           | HttpOk b => if stop p b then [] else attempts request stop up (S n) rest
           | HttpError _ _ => []
           end
  end.

(** The requests a computation adds to the log. *)
Definition issued {A} (m : M A) (up : Upstream) (log : list Request) : list Request :=
  drop (length log) (m up log).2.

Definition nonempty (b : Bundle) : bool := negb (no_entries b).

(** When the older revision stops at a strategy: a non-empty bundle for a
    family+given strategy, or for the family strategy of a single-token
    name. *)
Definition older_accepts (single : bool) (strategy : list (string * string)) (b : Bundle)
  : bool :=
  nonempty b && Older.has strategy "family" && (Older.has strategy "given" || single).

(** An upstream that knows one Dupont, by family name only. *)
Definition family_only : Upstream :=
  fun _ req =>
    match req with
    | Search "Practitioner" [("family", "Dupont"); ("_count", _)] =>
        HttpOk (bundle_of [resource_of "Practitioner" "p1" None])
    | _ => HttpOk (bundle_of [])
    end.

(** An upstream that finds three practitioners whatever the query. *)
Definition three_found : Upstream :=
  always [resource_of "Practitioner" "p1" None; resource_of "Practitioner" "p2" None;
          resource_of "Practitioner" "p3" None].

(** [m] only appends to the log, and at most [n] requests. *)
Definition sends_at_most {A} (n : nat) (m : M A) : Prop :=
  forall up log, exists sent, (m up log).2 = log ++ sent /\ (length sent <= n)%nat.

(** A town with many organizations and practitioners: 251 organizations on
    the first page and a link to a second one, 201 practitioners with a
    role. *)
Definition numbered (kind pre : string) (practitioner : option string) (n : nat)
  : list Resource :=
  (fun i =>
     resource_of kind (pre +:+ Js.Z_toString (Z.of_nat i))
       ((fun p => p +:+ Js.Z_toString (Z.of_nat i)) <$> practitioner)) <$> seq 0 n.

Definition crowded : Upstream :=
  fun _ req =>
    match req with
    | Search "Organization" _ =>
        HttpOk {| entry := Some (numbered "Organization" "o" None 251); total := None;
                  link := Some [ {| relation := "next"; link_url := "page-2" |} ] |}
    | Search "PractitionerRole" _ =>
        HttpOk (bundle_of (numbered "PractitionerRole" "r" (Some "Practitioner/p") 201))
    | _ => HttpOk (bundle_of [])
    end.

(** The message of the exception [fhirFetch] throws. *)
Definition fhir_error (status : Z) (text : string) : string :=
  "FHIR API " +:+ Js.Z_toString status +:+ ": " +:+ Js.substring_to 200 text.

(** A clinic and a role of [p1] there. *)
Definition clinic : Organization := parseOrganization (resource_of "Organization" "o1" None).

Definition role_at_clinic : Resource :=
  {| resourceType := "PractitionerRole"; res_id := "r1"; res_identifier := None;
     res_name := NameAbsent; res_qualification := None; res_active := None;
     res_specialty := None; res_telecom := None;
     res_practitioner := Some {| reference := Some "Practitioner/p1" |};
     res_organization := Some {| reference := Some "Organization/o1" |};
     res_address := None; res_type := None |}.

(** The role queries sent for the practitioners parsed from [entries]. *)
Definition role_queries (entries : list Resource) : list Request :=
  roles_request <$> batches_of 50 (Some 6%nat) (res_id <$> entries).

Definition rpps_request (rpps : string) : Request :=
  Search "Practitioner"
    [("identifier", "https://rpps.esante.gouv.fr|" +:+ rpps); ("_count", "10")].

(** The parameters of the one query of [searchByRoleFilters]. *)
Definition role_filter_params (specialty : string) (count : Js.Num)
  : list (string * string) :=
  [("_count", Js.toString count); ("_include", "PractitionerRole:organization")]
  ++ (if Js.truthy specialty then [("role", specialty)] else []).

(** A grouping of roles by practitioner id: the keys are distinct, no group
    is empty and every role sits under its own practitioner id. *)
Definition well_grouped (o : list (string * list Role)) : Prop :=
  NoDup o.*1 /\
  Forall (fun kv => kv.2 <> [] /\ Forall (fun role => practitionerId role = kv.1) kv.2) o.

(** The state of the second phase of the reverse lookup: the set of
    practitioner ids has no duplicate, it holds the keys of the grouping, and
    every role sits under its own practitioner id. *)
Definition org_grouped (acc : RolesByOrg) : Prop :=
  NoDup (practitionerIds acc) /\
  (forall pid, pid ∈ practitionerIds acc <-> is_Some (rolesByPractitioner acc !! pid)) /\
  (forall pid l, rolesByPractitioner acc !! pid = Some l ->
     l <> [] /\ Forall (fun role => practitionerId role = pid) l).

(** A practitioner with a national identifier and a departmental one. *)
Definition identified : Resource :=
  {| resourceType := "Practitioner"; res_id := "p1";
     res_identifier :=
       Some [ {| identifier_system := Some "https://adeli.esante.gouv.fr";
                 identifier_value := Some "751234567"; identifier_type := None |};
              {| identifier_system := Some "https://rpps.esante.gouv.fr";
                 identifier_value := Some "10001234567"; identifier_type := None |} ];
     res_name := NameAbsent; res_qualification := None; res_active := None;
     res_specialty := None; res_telecom := None; res_practitioner := None;
     res_organization := None; res_address := None; res_type := None |}.

(** [best] is a fair choice among the answers to the requests [sent] after
    [log]: a non-empty bundle among these answers, or nothing when every
    answer is empty. *)
Definition fair_choice (up : Upstream) (log sent : list Request) (best : option Bundle)
  : Prop :=
  match best with
  | Some b =>
      nonempty b = true /\
      exists k req, sent !! k = Some req /\ up (length log + k)%nat req = HttpOk b
  | None =>
      forall k req b, sent !! k = Some req -> up (length log + k)%nat req = HttpOk b ->
                      no_entries b = true
  end.

(** The practitioner queries of the qualification lookup with a name, most
    precise first; every one carries the qualification code. *)
Definition qualification_plans (code name : string) : list Request :=
  let parts := if Js.truthy name then Js.trim_split name else [] in
  if (2 <=? length parts)%nat then
    [ practitioner_search
        [("qualification-code", code); ("family", first_token parts);
         ("given", Js.join " " (rest_tokens parts)); ("_count", "200")];
      practitioner_search
        [("qualification-code", code); ("family", last_token parts);
         ("given", Js.join " " (leading_tokens parts)); ("_count", "200")] ]
  else if (length parts =? 1)%nat then
    [ practitioner_search [("qualification-code", code); ("family", name); ("_count", "200")];
      practitioner_search [("qualification-code", code); ("name", name); ("_count", "200")] ]
  else [ practitioner_search [("qualification-code", code); ("_count", "200")] ].

(** [m], run against [up] from any log, returns a value that satisfies [P]. *)
Definition answers {A} (up : Upstream) (m : M A) (P : A -> Prop) : Prop :=
  forall log, exists a log', m up log = (Ret a, log') /\ P a.

Definition served (r : Response) : Prop := status r = 200 \/ status r = 400.

(** A role whose only specialty coding has neither display nor code. *)
Definition unlabelled_role : Resource :=
  {| resourceType := "PractitionerRole"; res_id := "r9"; res_identifier := None;
     res_name := NameAbsent; res_qualification := None; res_active := None;
     res_specialty :=
       Some [{| cc_coding :=
                  Some [{| coding_system := Some "https://mos.esante.gouv.fr";
                           coding_code := None; coding_display := None |}];
                cc_text := None |}];
     res_telecom := None;
     res_practitioner := Some {| reference := Some "Practitioner/p1" |};
     res_organization := None; res_address := None; res_type := None |}.

(** An upstream that knows one practitioner, with that role. *)
Definition unlabelled : Upstream :=
  fun _ req =>
    match req with
    | Search "PractitionerRole" _ => HttpOk (bundle_of [unlabelled_role])
    | _ => HttpOk (bundle_of [resource_of "Practitioner" "p1" None])
    end.

(** An optional string that is absent or empty. *)
Definition blank (o : option string) : Prop := o = None \/ o = Some "".

(** U+00A0, the no-break space. *)
Definition nbsp : string := String (ascii_of_nat 194) (String (ascii_of_nat 160) "").

(** A resource whose id and whose practitioner and organization references
    do not name a member of [Object.prototype].  The handler indexes plain
    objects with these strings; on such a name it reads the inherited
    member where the finite map of the model has nothing, and [push] on
    that member throws. *)
Definition plain_resource (r : Resource) : Prop :=
  Js.inherited (res_id r) = false /\
  Js.inherited (practitionerId (parsePractitionerRole r)) = false /\
  Js.inherited (organizationId (parsePractitionerRole r)) = false.

(** An upstream none of whose answers carries such a name. *)
Definition plain_ids (up : Upstream) : Prop :=
  forall n req b, up n req = HttpOk b -> Forall plain_resource (default [] (entry b)).

(** A practitioner query constrained by the qualification code. *)
Definition carries (code : string) (req : Request) : Prop :=
  exists params,
    req = Search "Practitioner" params /\ get params "qualification-code" = Some code.

(** The queries on resources of [kind] among the requests [sent]. *)
Definition queries_of (kind : string) (sent : list Request) : list Request :=
  List.filter (fun req => match req with
                          | Search k _ => String.eqb k kind
                          | Follow _ => false
                          end) sent.

(** A clinic in Lyon, a cardiologist [p2] with a role there, and [p1], whose
    only role has a specialty coding without display or code. *)
Definition clinic_lyon : Resource :=
  {| resourceType := "Organization"; res_id := "o1"; res_identifier := None;
     res_name := NameText "Clinique du Parc"; res_qualification := None; res_active := None;
     res_specialty := None; res_telecom := None; res_practitioner := None;
     res_organization := None;
     res_address :=
       Some [{| addr_line := Some ["155 boulevard de Stalingrad"];
                addr_postalCode := Some "69006"; addr_city := Some "Lyon";
                addr_country := None |}];
     res_type := None |}.

Definition cardiology_role : Resource :=
  {| resourceType := "PractitionerRole"; res_id := "r2"; res_identifier := None;
     res_name := NameAbsent; res_qualification := None; res_active := None;
     res_specialty :=
       Some [{| cc_coding :=
                  Some [{| coding_system := Some "https://mos.esante.gouv.fr";
                           coding_code := Some "SM04"; coding_display := Some "Cardiologie" |}];
                cc_text := None |}];
     res_telecom := None;
     res_practitioner := Some {| reference := Some "Practitioner/p2" |};
     res_organization := Some {| reference := Some "Organization/o1" |};
     res_address := None; res_type := None |}.

Definition mixed_results : list MergedResult :=
  mergePractitionersAndRoles
    [parsePractitioner (resource_of "Practitioner" "p1" None);
     parsePractitioner (resource_of "Practitioner" "p2" None)]
    [parsePractitionerRole unlabelled_role; parsePractitionerRole cardiology_role]
    {[ "o1" := parseOrganization clinic_lyon ]}.

(** A town with one organization where three practitioners have a role, all
    three holding the qualification asked for. *)
Definition team : Upstream :=
  fun _ req =>
    match req with
    | Search "Organization" _ => HttpOk (bundle_of [clinic_lyon])
    | Search "PractitionerRole" _ =>
        HttpOk (bundle_of [resource_of "PractitionerRole" "r1" (Some "Practitioner/p1");
                           resource_of "PractitionerRole" "r2" (Some "Practitioner/p2");
                           resource_of "PractitionerRole" "r3" (Some "Practitioner/p3")])
    | Search "Practitioner" _ =>
        HttpOk (bundle_of [resource_of "Practitioner" "p1" None;
                           resource_of "Practitioner" "p2" None;
                           resource_of "Practitioner" "p3" None])
    | _ => HttpOk (bundle_of [])
    end.

(** ** Checks of the built-ins *)

Example parseInt_plain : Js.parseInt "200" = Js.Int 200.
Proof. reflexivity. Qed.

Example parseInt_suffix : Js.parseInt " -12px" = Js.Int (-12).
Proof. reflexivity. Qed.

Example parseInt_letters : Js.parseInt "abc" = Js.NaN.
Proof. reflexivity. Qed.

Example trim_split_two : Js.trim_split "  Dupont   Marie " = ["Dupont"; "Marie"].
Proof. reflexivity. Qed.

Example trim_split_blank : Js.trim_split "   " = [""].
Proof. reflexivity. Qed.

(** U+00A0 separates tokens and is skipped by [parseInt] like a space. *)
Example trim_split_nbsp : Js.trim_split ("Dupont" +:+ nbsp +:+ "Marie") = ["Dupont"; "Marie"].
Proof. reflexivity. Qed.

Example parseInt_nbsp : Js.parseInt (nbsp +:+ " 42") = Js.Int 42.
Proof. reflexivity. Qed.

Example remove_first_ref : Js.remove_first "Practitioner/" "Practitioner/42" = "42".
Proof. reflexivity. Qed.

Example includes_lower : Js.includes (Js.toLowerCase "Cardiologie") "cardiolog" = true.
Proof. reflexivity. Qed.

Example toString_neg : Js.toString (Js.Int (-12)) = "-12".
Proof. reflexivity. Qed.

(** ** Lemmas on the batching loops *)

Lemma ceil_div_lt (k n b : nat) :
  (0 < b)%nat -> (k < ceil_div n b)%nat <-> (k * b < n)%nat.
Proof.
  intros Hb. unfold ceil_div. split; intros H.
  - destruct (decide (k * b < n)%nat) as [|Hn]; [done|].
    exfalso. apply Nat.nlt_ge in Hn.
    assert ((n + b - 1) / b <= k)%nat; [|lia].
    apply Nat.lt_succ_r, Nat.Div0.div_lt_upper_bound; lia.
  - apply Nat.lt_le_trans with (m := ((S k * b) / b)%nat).
    + rewrite Nat.div_mul by lia. lia.
    + apply Nat.Div0.div_le_mono. lia.
Qed.

Lemma ceil_div_le (n b : nat) : (0 < b)%nat -> (ceil_div n b <= n)%nat.
Proof.
  intros Hb. destruct (decide (ceil_div n b <= n)%nat) as [|Hn]; [done|].
  exfalso. assert (H : (n < ceil_div n b)%nat) by lia.
  apply ceil_div_lt in H; [nia|done].
Qed.

Lemma loop_condition (batchSize : nat) maxBatches (n k : nat) :
  (0 < batchSize)%nat ->
  ((k * batchSize <? n)%nat && under maxBatches (k * batchSize / batchSize)%nat)
  = (k <? n_batches batchSize maxBatches n)%nat.
Proof.
  intros Hb. rewrite Nat.div_mul by lia.
  pose proof (ceil_div_lt k n batchSize Hb) as Hc.
  unfold n_batches, under.
  destruct maxBatches as [m|];
    repeat match goal with
           | |- context [(?a <? ?b)%nat] => destruct (Nat.ltb_spec a b)
           end; simpl; try done; lia.
Qed.

Lemma for_batches_unfold {St} (batchSize : nat) maxBatches (items : list string)
    (body : list string -> St -> M St) :
  (0 < batchSize)%nat ->
  forall fuel k acc up log,
    (n_batches batchSize maxBatches (length items) - k <= fuel)%nat ->
    for_batches fuel batchSize maxBatches items body (k * batchSize)%nat acc up log
    = fold_batches body
        (batches_from k (n_batches batchSize maxBatches (length items) - k) batchSize items)
        acc up log.
Proof.
  intros Hb. induction fuel as [|fuel IH]; intros k acc up log Hfuel.
  - replace (n_batches batchSize maxBatches (length items) - k)%nat with 0%nat by lia.
    reflexivity.
  - cbn [for_batches]. rewrite loop_condition by done.
    destruct (Nat.ltb_spec k (n_batches batchSize maxBatches (length items))) as [Hk|Hk].
    + replace (n_batches batchSize maxBatches (length items) - k)%nat
        with (S (n_batches batchSize maxBatches (length items) - S k)) by lia.
      cbn [batches_from seq fmap list_fmap fold_batches]. unfold bind.
      destruct (body _ acc up log) as [[acc'|msg] log']; [|done].
      replace (k * batchSize + batchSize)%nat with (S k * batchSize)%nat by lia.
      apply IH. lia.
    + replace (n_batches batchSize maxBatches (length items) - k)%nat with 0%nat by lia.
      reflexivity.
Qed.

(** With [items.length] iterations allowed the loop never stops for lack of
    fuel: it runs over exactly the batches of [batches_of]. *)
Lemma for_batches_batches {St} (batchSize : nat) maxBatches (items : list string)
    (body : list string -> St -> M St) acc up log :
  (0 < batchSize)%nat ->
  for_batches (length items) batchSize maxBatches items body 0 acc up log
  = fold_batches body (batches_of batchSize maxBatches items) acc up log.
Proof.
  intros Hb.
  pose proof (for_batches_unfold batchSize maxBatches items body Hb
                (length items) 0 acc up log) as H.
  rewrite Nat.sub_0_r in H. apply H.
  pose proof (ceil_div_le (length items) batchSize Hb).
  unfold n_batches. destruct maxBatches; lia.
Qed.

Lemma length_batches_of (batchSize : nat) maxBatches (items : list string) :
  length (batches_of batchSize maxBatches items)
  = n_batches batchSize maxBatches (length items).
Proof. unfold batches_of, batches_from. by rewrite length_fmap, length_seq. Qed.

Lemma batches_of_bounded (batchSize : nat) maxBatches (items batch : list string) :
  batch ∈ batches_of batchSize maxBatches items ->
  (length batch <= batchSize)%nat /\ batch ⊆ items.
Proof.
  unfold batches_of, batches_from. intros (j & -> & _)%list_elem_of_fmap.
  unfold Js.slice. split.
  - rewrite length_take. lia.
  - etrans; [apply subseteq_take | apply subseteq_drop].
Qed.

(** The batches are consecutive pieces of [items]. *)
Lemma concat_batches_from (k count batchSize : nat) (items : list string) :
  concat (batches_from k count batchSize items)
  = take (count * batchSize) (drop (k * batchSize) items).
Proof.
  revert k. induction count as [|count IH]; intros k; [done|].
  unfold batches_from in *. cbn [seq fmap list_fmap concat]. rewrite IH.
  unfold Js.slice. replace (k * batchSize + batchSize - k * batchSize)%nat with batchSize by lia.
  replace (S k * batchSize)%nat with (k * batchSize + batchSize)%nat by lia.
  rewrite <- drop_drop, take_take_drop. f_equal; lia.
Qed.

Lemma concat_batches_of (batchSize : nat) maxBatches (items : list string) :
  (0 < batchSize)%nat ->
  concat (batches_of batchSize maxBatches items)
  = match maxBatches with
    | Some m => take (m * batchSize) items
    | None => items
    end.
Proof.
  intros Hb. unfold batches_of. rewrite concat_batches_from. simpl.
  assert (Hall : forall c, (length items <= c * batchSize)%nat -> take (c * batchSize) items = items)
    by (intros c Hc; by apply take_ge).
  assert (Hceil : (length items <= ceil_div (length items) batchSize * batchSize)%nat).
  { destruct (decide (length items <= ceil_div (length items) batchSize * batchSize)%nat)
      as [|Hn]; [done|].
    exfalso. apply Nat.nle_gt, ceil_div_lt in Hn; [lia|done]. }
  unfold n_batches. destruct maxBatches as [m|]; [|by apply Hall].
  destruct (Nat.min_spec (ceil_div (length items) batchSize) m) as [[Hlt ->]|[Hle ->]]; [|done].
  rewrite !Hall; [done| |done]. nia.
Qed.

(** ** Lemmas on the role fetcher *)

Lemma collect_entry_roles (es : list Resource) (acc : RolesAndOrgs) :
  practitionerRoles (foldl collect_entry acc es)
  = practitionerRoles acc
      ++ (parsePractitionerRole <$> List.filter (is_kind "PractitionerRole") es).
Proof.
  revert acc. induction es as [|e es IH]; intros acc; simpl.
  - by rewrite app_nil_r.
  - rewrite IH. unfold collect_entry, is_kind.
    destruct (String.eqb (resourceType e) "PractitionerRole"); simpl.
    + by rewrite <- app_assoc.
    + by destruct (String.eqb (resourceType e) "Organization").
Qed.

Lemma collect_entry_orgs (es : list Resource) (acc : RolesAndOrgs) (id : string) :
  organizations (foldl collect_entry acc es) !! id
  = match last (List.filter (same_org id) es) with
    | Some e => Some (parseOrganization e)
    | None => organizations acc !! id
    end.
Proof.
  induction es as [|e es IH] using rev_ind; [done|].
  rewrite foldl_app, List.filter_app. simpl.
  assert (Hso : same_org id e
                = String.eqb (resourceType e) "Organization" && String.eqb (res_id e) id)
    by done.
  unfold collect_entry at 1.
  destruct (String.eqb_spec (resourceType e) "PractitionerRole") as [Hk|Hk].
  - rewrite Hk in Hso. rewrite Hso. simpl. by rewrite app_nil_r.
  - destruct (String.eqb (resourceType e) "Organization"); simpl in *.
    + rewrite Hso. destruct (String.eqb_spec (res_id e) id) as [->|Hid].
      * by rewrite last_snoc, lookup_insert_eq.
      * rewrite app_nil_r, lookup_insert_ne by done. apply IH.
    + rewrite Hso, app_nil_r. apply IH.
Qed.

Lemma fold_roles_batches (bs : list (list string)) (acc r : RolesAndOrgs) up log log' :
  fold_batches fetch_roles_batch bs acc up log = (Ret r, log') ->
  log' = log ++ (roles_request <$> bs) /\
  r = foldl collect_entry acc (seen up (length log) (roles_request <$> bs)).
Proof.
  revert acc log. induction bs as [|b bs IH]; intros acc log; simpl.
  - unfold ret. intros [= <- <-]. by rewrite app_nil_r.
  - unfold bind, fetch_roles_batch, bind, fhirFetch, ret.
    destruct (up (length log) (roles_request b)) as [bundle|st txt] eqn:Hup; [|done].
    intros [-> ->]%IH. rewrite length_app, Nat.add_1_r, <- app_assoc. simpl.
    by rewrite foldl_app.
Qed.

Lemma fold_roles_batches_healthy (bs : list (list string)) (acc : RolesAndOrgs) up log :
  healthy up ->
  exists r, fold_batches fetch_roles_batch bs acc up log = (Ret r, log ++ (roles_request <$> bs)).
Proof.
  intros Hup. revert acc log. induction bs as [|b bs IH]; intros acc log; simpl.
  - exists acc. unfold ret. by rewrite app_nil_r.
  - unfold bind, fetch_roles_batch, bind, fhirFetch, ret.
    destruct (Hup (length log) (roles_request b)) as [bundle ->].
    destruct (IH (foldl collect_entry acc (default [] (entry bundle))) (log ++ [roles_request b]))
      as [r Hr].
    exists r. rewrite <- app_assoc in Hr. exact Hr.
Qed.

Lemma always_healthy (entries : list Resource) : healthy (always entries).
Proof. intros n req. by eexists. Qed.

Lemma always_plain (entries : list Resource) :
  Forall plain_resource entries -> plain_ids (always entries).
Proof. intros H n req b [= <-]. exact H. Qed.

Lemma three_found_plain : plain_ids three_found.
Proof. apply always_plain. by repeat constructor. Qed.

(** ** The batch fetcher *)

(** 301 identifiers need seven batches of 50; the fetcher sends six. *)
Lemma fetchRoles_stops_at_six_batches :
  length (run (fetchRolesForPractitioners (replicate 301 "p")) (always [])).2
  <> ceil_div (length (replicate 301 "p")) 50.
Proof. vm_compute. discriminate. Qed.

(** C4, as the code has it.  Against an upstream that answers every call,
    [fetchRolesForPractitioners] sends one query per batch and nothing else:
    [min(ceil(|ids| / 50), 6)] queries, which is [ceil(|ids| / 50)] as long as
    there are at most 300 identifiers; the older revision, with batches of 20
    and no ceiling, sends exactly [ceil(|ids| / 20)].  Every batch carries at
    most [batchSize] identifiers, the batches put end to end are the first
    300 identifiers (all of them in the older revision), and every role
    returned is the parse of a role entry the upstream returned to one of
    these queries. *)
Theorem fetchRoles_batch_count (ids : list string) (up : Upstream) (log : list Request) :
  healthy up ->
  (exists r,
     let batches := batches_of 50 (Some 6%nat) ids in
     fetchRolesForPractitioners ids up log = (Ret r, log ++ (roles_request <$> batches)) /\
     length batches = (ceil_div (length ids) 50 `min` 6)%nat /\
     ((length ids <= 300)%nat -> length batches = ceil_div (length ids) 50) /\
     (forall batch, batch ∈ batches -> (length batch <= 50)%nat) /\
     concat batches = take 300 ids /\
     (forall role, role ∈ practitionerRoles r ->
        exists e, e ∈ seen up (length log) (roles_request <$> batches) /\
                  resourceType e = "PractitionerRole" /\ role = parsePractitionerRole e)) /\
  (exists r,
     let batches := batches_of 20 None ids in
     Older.fetchRolesForPractitioners ids up log = (Ret r, log ++ (roles_request <$> batches)) /\
     length batches = ceil_div (length ids) 20 /\
     (forall batch, batch ∈ batches -> (length batch <= 20)%nat) /\
     concat batches = ids /\
     (forall role, role ∈ practitionerRoles r ->
        exists e, e ∈ seen up (length log) (roles_request <$> batches) /\
                  resourceType e = "PractitionerRole" /\ role = parsePractitionerRole e)).
Proof.
  intros Hup.
  assert (Hroles : forall bs r log',
            fold_batches fetch_roles_batch bs no_roles up log = (Ret r, log') ->
            forall role, role ∈ practitionerRoles r ->
              exists e, e ∈ seen up (length log) (roles_request <$> bs) /\
                        resourceType e = "PractitionerRole" /\ role = parsePractitionerRole e).
  { intros bs r log' [_ ->]%fold_roles_batches role.
    rewrite collect_entry_roles. simpl.
    intros (e & -> & He)%list_elem_of_fmap.
    apply list_elem_of_In, List.filter_In in He as [He Hk%String.eqb_eq].
    exists e. by rewrite list_elem_of_In. }
  split.
  - destruct (fold_roles_batches_healthy (batches_of 50 (Some 6%nat) ids) no_roles up log Hup)
      as [r Hr].
    exists r. cbv zeta. unfold fetchRolesForPractitioners.
    rewrite for_batches_batches by lia.
    split; [done|]. rewrite length_batches_of. simpl.
    split; [done|]. split.
    + intros Hn. apply Nat.min_l.
      destruct (decide (ceil_div (length ids) 50 <= 6)%nat) as [|Hc]; [done|].
      assert (H6 : (6 < ceil_div (length ids) 50)%nat) by lia.
      apply ceil_div_lt in H6; lia.
    + split; [intros batch Hb; by eapply batches_of_bounded|].
      split; [by rewrite concat_batches_of by lia | by eapply Hroles].
  - destruct (fold_roles_batches_healthy (batches_of 20 None ids) no_roles up log Hup)
      as [r Hr].
    exists r. cbv zeta. unfold Older.fetchRolesForPractitioners.
    rewrite for_batches_batches by lia.
    split; [done|]. rewrite length_batches_of. simpl.
    split; [done|]. split; [intros batch Hb; by eapply batches_of_bounded|].
    split; [by rewrite concat_batches_of by lia | by eapply Hroles].
Qed.

Lemma fetchRoles_batch_count_witness :
  exists r, fetchRolesForPractitioners ["a"; "b"] (always []) []
            = (Ret r, [roles_request ["a"; "b"]]).
Proof.
  destruct (fetchRoles_batch_count ["a"; "b"] (always []) [] (always_healthy []))
    as [(r & Hr & _) _].
  exists r. exact Hr.
Defined.

(** The roles are not deduplicated: a role the upstream returns twice is
    returned twice. *)
Lemma fetchRoles_keeps_duplicate_roles :
  exists r,
    run (fetchRolesForPractitioners ["p1"]) twice_r1 = (Ret r, [roles_request ["p1"]]) /\
    role_id <$> practitionerRoles r = ["r1"; "r1"] /\
    ~ NoDup (role_id <$> practitionerRoles r).
Proof.
  eexists. split; [lazy; reflexivity|]. split; [reflexivity|].
  intros Hnd. apply NoDup_cons in Hnd as [Hin _]. apply Hin. left.
Qed.

(** C6, as the code has it.  Against an upstream that answers every call, the batch
    fetcher returns every role seen across the batches it sends, in order of
    arrival and without deduplication, and the organizations seen across
    these batches keyed by id, the last-seen record winning on a duplicate
    id. *)
Theorem fetchRoles_union (ids : list string) (up : Upstream) (log : list Request) :
  healthy up ->
  exists r log',
    fetchRolesForPractitioners ids up log = (Ret r, log') /\
    let entries := seen up (length log) (roles_request <$> batches_of 50 (Some 6%nat) ids) in
    practitionerRoles r
    = parsePractitionerRole <$> List.filter (is_kind "PractitionerRole") entries /\
    forall id,
      organizations r !! id = parseOrganization <$> last (List.filter (same_org id) entries).
Proof.
  intros Hup.
  destruct (fold_roles_batches_healthy (batches_of 50 (Some 6%nat) ids) no_roles up log Hup)
    as [r Hr].
  exists r, (log ++ (roles_request <$> batches_of 50 (Some 6%nat) ids)).
  unfold fetchRolesForPractitioners. rewrite for_batches_batches by lia.
  split; [done|]. cbv zeta.
  apply fold_roles_batches in Hr as [_ ->]. split.
  - by rewrite collect_entry_roles.
  - intros id. rewrite collect_entry_orgs. simpl.
    destruct (last _); [done|]. by rewrite lookup_empty.
Qed.

Lemma fetchRoles_union_witness :
  exists r log',
    run (fetchRolesForPractitioners ["p1"]) twice_r1 = (Ret r, log') /\
    length (practitionerRoles r) = 2%nat /\
    organizations r !! "o1" = None.
Proof.
  destruct (fetchRoles_union ["p1"] twice_r1 [] (always_healthy _))
    as (r & log' & Hr & Hroles & Horgs).
  exists r, log'. split; [exact Hr|]. split.
  - rewrite Hroles. reflexivity.
  - rewrite Horgs. reflexivity.
Defined.

(** ** The post-filters *)

Lemma filter_throwing_length {A} (p : A -> Outcome bool) (l out : list A) :
  filter_throwing p l = Ret out -> (length out <= length l)%nat.
Proof.
  revert out. induction l as [|x l IH]; intros out; simpl.
  - intros [= <-]. done.
  - destruct (p x) as [b|]; [|done].
    destruct (filter_throwing p l) as [out'|]; [|done].
    intros [= <-]. specialize (IH out' eq_refl). destruct b; simpl; lia.
Qed.

Lemma filter_throwing_filter {A} (p : A -> Outcome bool) (q : A -> bool) (l out : list A) :
  filter_throwing p l = Ret out ->
  filter_throwing p (List.filter q l) = Ret (List.filter q out).
Proof.
  revert out. induction l as [|x l IH]; intros out; simpl.
  - intros [= <-]. done.
  - destruct (p x) as [b|] eqn:Hp; [|done].
    destruct (filter_throwing p l) as [out'|]; [|done].
    intros [= <-]. specialize (IH out' eq_refl).
    destruct (q x) eqn:Hq; simpl.
    + rewrite Hp, IH. destruct b; simpl; by rewrite ?Hq.
    + rewrite IH. destruct b; simpl; by rewrite ?Hq.
Qed.

Lemma some_throwing_defined {A} (p : A -> Outcome bool) (l : list A) :
  Forall (fun x => exists b, p x = Ret b) l -> exists b, some_throwing p l = Ret b.
Proof.
  induction 1 as [|x l [b Hb] _ [b' IH]]; simpl; [by eexists|].
  rewrite Hb. destruct b; [by eexists|]. rewrite IH. by eexists.
Qed.

Lemma filter_throwing_defined {A} (p : A -> Outcome bool) (l : list A) :
  Forall (fun x => exists b, p x = Ret b) l -> exists out, filter_throwing p l = Ret out.
Proof.
  induction 1 as [|x l [b Hb] _ [out IH]]; simpl; [by eexists|].
  rewrite Hb, IH. by eexists.
Qed.

Lemma has_specialty_defined (specLower : string) (r : MergedResult) :
  Forall (fun role => Forall is_Some (specialties role)) (roles r) ->
  exists b, has_specialty specLower r = Ret b.
Proof.
  intros Hr. unfold has_specialty.
  destruct (some_throwing_defined
              (fun role => some_throwing (label_matches specLower) (specialties role))
              (roles r)) as [b ->].
  - eapply Forall_impl; [exact Hr|]. intros role Hrole.
    apply some_throwing_defined. eapply Forall_impl; [exact Hrole|].
    intros s [s' ->]. by eexists.
  - destruct b; by eexists.
Qed.

(** Whenever the specialty filter returns, it returns no more than it is
    given, and it commutes with the city filter. *)
Lemma filterBySpecialty_returns (results out : list MergedResult) (city specialty : string) :
  filterBySpecialty results specialty = Ret out ->
  (length out <= length results)%nat /\
  filterBySpecialty (filterByCity results city) specialty = Ret (filterByCity out city).
Proof.
  unfold filterBySpecialty, filterByCity.
  destruct (Js.truthy specialty); simpl.
  - intros Hout. split; [by eapply filter_throwing_length|].
    destruct (Js.truthy city); simpl; [|done].
    by apply filter_throwing_filter.
  - by intros [= <-].
Qed.

Lemma filterBySpecialty_defined (results : list MergedResult) (specialty : string) :
  labelled results -> exists out, filterBySpecialty results specialty = Ret out.
Proof.
  intros Hl. unfold filterBySpecialty. destruct (Js.truthy specialty); simpl; [|by eexists].
  apply filter_throwing_defined. eapply Forall_impl; [exact Hl|].
  intros r Hr. by apply has_specialty_defined.
Qed.

(** C5 fails on a list where a role has an [undefined] specialty label,
    which [parsePractitionerRole] produces for a coding with neither display
    nor code: [s.toLowerCase()] throws there.  On the merge of [p1], with
    such a role, and of the Lyon cardiologist [p2], filtering by city first
    removes [p1] and the specialty filter then returns [p2]; filtering by
    specialty first throws, and there is no list at all. *)
Theorem filters_differ_on_missing_label :
  (specialties <$> (mixed_results ≫= roles) = [[None]; [Some "Cardiologie"]]) /\
  (mr_id <$> filterByCity mixed_results "Lyon" = ["p2"]) /\
  filterBySpecialty (filterByCity mixed_results "Lyon") "cardio"
  = Ret (filterByCity mixed_results "Lyon") /\
  filterBySpecialty mixed_results "cardio" = Throw TypeError_toLowerCase.
Proof. repeat split; reflexivity. Qed.

(** X22.  On every list of merged results whose specialty labels are all
    strings, [filterByCity] and [filterBySpecialty] return no more results
    than they are given, and they commute: filtering by city and then by
    specialty gives the list that filtering by specialty and then by city
    gives. *)
Theorem filters_monotone_commute (results : list MergedResult) (city specialty : string) :
  labelled results ->
  (length (filterByCity results city) <= length results)%nat /\
  exists out,
    filterBySpecialty results specialty = Ret out /\
    (length out <= length results)%nat /\
    filterBySpecialty (filterByCity results city) specialty = Ret (filterByCity out city).
Proof.
  intros Hl. split.
  - unfold filterByCity. destruct (Js.truthy city); simpl; [|done].
    apply List.filter_length_le.
  - destruct (filterBySpecialty_defined results specialty Hl) as [out Hout].
    exists out. split; [done|]. by apply filterBySpecialty_returns.
Qed.

Example filter_cardiolog :
  filterBySpecialty [cardiologist; dermatologist] "cardiolog" = Ret [cardiologist].
Proof. reflexivity. Qed.

Example filter_lyon : filterByCity [cardiologist; dermatologist] "Lyon" = [cardiologist].
Proof. reflexivity. Qed.

(** A label that is [undefined] (a coding with neither display nor code)
    makes the specialty filter throw as soon as it is reached. *)
Example filter_undefined_label :
  filterBySpecialty [sample "p3" [None] None] "cardiolog" = Throw TypeError_toLowerCase.
Proof. reflexivity. Qed.

Lemma filters_monotone_commute_witness :
  filterBySpecialty (filterByCity [dermatologist; cardiologist] "lyon") "CARDIO"
  = Ret [cardiologist].
Proof.
  destruct (filters_monotone_commute [dermatologist; cardiologist] "lyon" "CARDIO")
    as (_ & out & Hout & _ & Hcomm).
  - repeat constructor; by eexists.
  - rewrite Hcomm. injection Hout as <-. reflexivity.
Defined.

(** ** The merge *)

Lemma attach_practitionerId (orgs : gmap string Organization) (role : Role) :
  practitionerId (attach orgs role) = practitionerId role.
Proof.
  unfold attach. destruct (Js.truthy _); [|done]. by destruct (orgs !! _).
Qed.

Lemma group_roles_lookup (orgs : gmap string Organization) (roles : list Role)
    (m : gmap string (list Role)) (pid : string) :
  default [] (foldl (group_role orgs) m roles !! pid)
  = default [] (m !! pid) ++ (attach orgs <$> List.filter (belongs_to pid) roles).
Proof.
  revert m. induction roles as [|role roles IH]; intros m; simpl.
  - by rewrite app_nil_r.
  - rewrite IH. unfold group_role, belongs_to at 2, push_role.
    destruct (Js.truthy (practitionerId role)); simpl; [|done].
    destruct (String.eqb_spec (practitionerId role) pid) as [->|Hne]; simpl.
    + rewrite lookup_insert_eq. simpl. by rewrite <- app_assoc.
    + by rewrite lookup_insert_ne.
Qed.

Lemma merge_roles (practitioners : list Practitioner) (roles : list Role)
    (orgs : gmap string Organization) :
  mergePractitionersAndRoles practitioners roles orgs
  = (fun p => {| base := p;
                 roles := attach orgs <$> List.filter (belongs_to (pract_id p)) roles |})
      <$> practitioners.
Proof.
  unfold mergePractitionersAndRoles. apply list_fmap_ext. intros _ p _.
  unfold with_roles. f_equal. by rewrite group_roles_lookup, lookup_empty.
Qed.

Lemma truthy_nonempty (s : string) : Js.truthy s = true <-> s <> "".
Proof. by destruct s. Qed.

(** C10.  In every merged result, every role of the role list carries a
    non-empty practitioner id equal to the result's id and is one of the
    given roles with its organization attached.  A role resource whose
    practitioner reference is absent or empty parses to an empty practitioner
    id and appears in no merged result, attached or not. *)
Theorem merge_skips_roles_without_practitioner (practitioners : list Practitioner)
    (roles0 : list Role) (orgs : gmap string Organization) (m : MergedResult) :
  m ∈ mergePractitionersAndRoles practitioners roles0 orgs ->
  (forall role, role ∈ roles m ->
     practitionerId role = mr_id m /\ practitionerId role <> "" /\
     exists r0, r0 ∈ roles0 /\ role = attach orgs r0) /\
  (forall resource,
     ((res_practitioner resource ≫= reference) = None \/
      (res_practitioner resource ≫= reference) = Some "") ->
     practitionerId (parsePractitionerRole resource) = "" /\
     (parsePractitionerRole resource ∉ roles m) /\
     (attach orgs (parsePractitionerRole resource) ∉ roles m)).
Proof.
  rewrite merge_roles. intros (p & -> & _)%list_elem_of_fmap. simpl.
  assert (Hroles : forall role,
            role ∈ attach orgs <$> List.filter (belongs_to (pract_id p)) roles0 ->
            practitionerId role = pract_id p /\ practitionerId role <> "" /\
            exists r0, r0 ∈ roles0 /\ role = attach orgs r0).
  { intros role (r0 & -> & Hr0)%list_elem_of_fmap.
    apply list_elem_of_In, List.filter_In in Hr0 as [Hin Hb].
    apply andb_prop in Hb as [Ht%truthy_nonempty He%String.eqb_eq].
    rewrite attach_practitionerId. repeat split; [done..|].
    exists r0. by rewrite list_elem_of_In. }
  split; [exact Hroles|].
  intros resource Href.
  assert (Hid : practitionerId (parsePractitionerRole resource) = "").
  { simpl. by destruct Href as [-> | ->]. }
  split; [done|]. split; intros Hin; apply Hroles in Hin as (_ & Hne & _); apply Hne.
  - done.
  - by rewrite attach_practitionerId.
Qed.

Example merge_drops_orphan :
  mergePractitionersAndRoles [unknown_practitioner "p1"; unknown_practitioner ""]
    [parsePractitionerRole orphan_role; parsePractitionerRole role_of_p1] ∅
  = [ {| base := unknown_practitioner "p1"; roles := [parsePractitionerRole role_of_p1] |};
      {| base := unknown_practitioner ""; roles := [] |} ].
Proof. reflexivity. Qed.

Lemma merge_skips_roles_without_practitioner_witness :
  practitionerId (parsePractitionerRole orphan_role) = "" /\
  parsePractitionerRole orphan_role
    ∉ roles {| base := unknown_practitioner "p1";
               roles := [parsePractitionerRole role_of_p1] |}.
Proof.
  pose proof (merge_skips_roles_without_practitioner
                [unknown_practitioner "p1"; unknown_practitioner ""]
                [parsePractitionerRole orphan_role; parsePractitionerRole role_of_p1] ∅
                {| base := unknown_practitioner "p1";
                   roles := [parsePractitionerRole role_of_p1] |}) as H.
  destruct H as [_ H].
  - rewrite merge_drops_orphan. left.
  - destruct (H orphan_role) as (Hid & Hnot & _); [by left|]. by split.
Defined.

(** ** The router *)

Lemma truthy_empty (s : string) : Js.truthy s = false <-> s = "".
Proof. by destruct s. Qed.

Ltac decide_fields :=
  repeat match goal with
         | H : _ <> "" |- _ => apply truthy_nonempty in H; rewrite H
         | H : _ = "" |- _ => rewrite H
         end.

(** C1.  The router picks its strategy by strict precedence: the
    continuation token, then the national identifier, then the qualification
    code, then the name, then the city, a field being present when its value
    is not empty; with none of them present it answers 400 and sends nothing
    upstream. *)
Theorem handleSearch_precedence (params : list (string * string)) :
  (field params "next" <> "" ->
     handleSearch params = handleLoadMore (field params "next")) /\
  (field params "next" = "" -> field params "rpps" <> "" ->
     handleSearch params = searchByRpps (field params "rpps")) /\
  (field params "next" = "" -> field params "rpps" = "" ->
   field params "specialty_code" <> "" ->
     handleSearch params
     = searchByQualificationCode (field params "specialty_code") (field params "name")
         (field params "city") (page_size params)) /\
  (field params "next" = "" -> field params "rpps" = "" ->
   field params "specialty_code" = "" -> field params "name" <> "" ->
     handleSearch params
     = searchByName (field params "name") (field params "city") (field params "specialty")
         (page_size params)) /\
  (field params "next" = "" -> field params "rpps" = "" ->
   field params "specialty_code" = "" -> field params "name" = "" ->
   field params "city" <> "" ->
     handleSearch params
     = searchByRoleFilters (field params "city") (field params "specialty")
         (page_size params)) /\
  (field params "next" = "" -> field params "rpps" = "" ->
   field params "specialty_code" = "" -> field params "name" = "" ->
   field params "city" = "" ->
     forall up log,
       handleSearch params up log
       = (Ret (bad_request "Remplis au moins un critère de recherche"), log)).
Proof.
  unfold handleSearch, page_size, field.
  repeat split; intros; decide_fields; reflexivity.
Qed.

Lemma handleSearch_precedence_witness :
  run (handleSearch [("specialty", "cardiologie"); ("count", "20")]) (always [])
  = (Ret (bad_request "Remplis au moins un critère de recherche"), []) /\
  handleSearch [("city", "Lyon"); ("rpps", "10001234567"); ("name", "Dupont")]
  = searchByRpps "10001234567".
Proof.
  pose proof (handleSearch_precedence [("specialty", "cardiologie"); ("count", "20")])
    as (_ & _ & _ & _ & _ & Hnone).
  pose proof (handleSearch_precedence
                [("city", "Lyon"); ("rpps", "10001234567"); ("name", "Dupont")])
    as (_ & Hrpps & _).
  split.
  - apply Hnone; reflexivity.
  - apply Hrpps; [reflexivity | discriminate].
Defined.

(** C8.  A continuation token that does not start with the upstream base
    URL is answered with a validation error; the log of remote calls is left
    as it was, so the token goes nowhere. *)
Theorem foreign_token_rejected (params : list (string * string)) (token : string)
    (up : Upstream) (log : list Request) :
  get params "next" = Some token ->
  token <> "" ->
  Js.startsWith token API_BASE = false ->
  handleSearch params up log = (Ret (bad_request "Invalid pagination URL"), log).
Proof.
  intros Hget Hne Hforeign. apply truthy_nonempty in Hne.
  unfold handleSearch. rewrite Hget. unfold Js.or_str. rewrite Hne, Hne.
  unfold handleLoadMore. rewrite Hforeign. reflexivity.
Qed.

Lemma foreign_token_rejected_witness :
  run (handleSearch [("name", "Dupont"); ("next", "https://example.org/fhir/v2/Practitioner")])
    (always [])
  = (Ret (bad_request "Invalid pagination URL"), []).
Proof.
  apply (foreign_token_rejected _ "https://example.org/fhir/v2/Practitioner");
    [reflexivity | discriminate | reflexivity].
Defined.

(** C9 fails on a [count] that is not a number: [parseInt] gives NaN,
    [Math.min(NaN, 500)] is NaN, and NaN is the page size the strategy gets.
    The name search then returns an empty page whatever the upstream found,
    and the role search asks the upstream for [_count=NaN]. *)
Theorem page_size_NaN :
  page_size [("name", "Dupont"); ("count", "abc")] = Js.NaN /\
  Js.le (page_size [("name", "Dupont"); ("count", "abc")]) (Js.Int 500) = false /\
  handleSearch [("name", "Dupont"); ("count", "abc")] = searchByName "Dupont" "" "" Js.NaN /\
  (run (handleSearch [("city", "Lyon"); ("count", "abc")]) (always [])).2
  = [Search "PractitionerRole"
       [("_count", "NaN"); ("_include", "PractitionerRole:organization")]] /\
  (results <$> envelope_of
     (run (handleSearch [("name", "Dupont"); ("count", "abc")])
        (always [resource_of "Practitioner" "p1" None])).1) = Some [] /\
  (results <$> envelope_of
     (run (handleSearch [("name", "Dupont"); ("count", "10")])
        (always [resource_of "Practitioner" "p1" None])).1)
  = Some [ {| base := parsePractitioner (resource_of "Practitioner" "p1" None);
              roles := [] |} ].
Proof. repeat split; reflexivity. Qed.

(** When [count] is absent or starts with a number, the page size is at most
    500. *)
Lemma page_size_clamped (params : list (string * string)) (z : Z) :
  Js.parseInt (Js.or_str (get params "count") "200") = Js.Int z ->
  Js.le (page_size params) (Js.Int 500) = true.
Proof.
  intros Hz. unfold page_size. rewrite Hz. simpl. apply Z.leb_le, Z.le_min_r.
Qed.

(** ** The reverse lookup *)

Lemma bind_Ret {A B} (m : M A) (f : A -> M B) up log a log1 :
  m up log = (Ret a, log1) -> bind m f up log = f a up log1.
Proof. intros H. unfold bind. by rewrite H. Qed.

Lemma fhirFetch_healthy (req : Request) up log :
  healthy up ->
  exists b, up (length log) req = HttpOk b /\ fhirFetch req up log = (Ret b, log ++ [req]).
Proof.
  intros Hup. destruct (Hup (length log) req) as [b Hb].
  exists b. split; [done|]. unfold fhirFetch. by rewrite Hb.
Qed.

(** A property of the loop state and the log that every batch keeps is kept
    by the whole loop, which returns when every batch does. *)
Lemma fold_batches_inv {St} (body : list string -> St -> M St)
    (Inv : St -> list Request -> Prop) up :
  (forall batch acc log, Inv acc log ->
     exists acc' log', body batch acc up log = (Ret acc', log') /\ Inv acc' log') ->
  forall bs acc log, Inv acc log ->
    exists acc' log', fold_batches body bs acc up log = (Ret acc', log') /\ Inv acc' log'.
Proof.
  intros Hbody. induction bs as [|b bs IH]; intros acc log Hinv; simpl.
  - by exists acc, log.
  - destruct (Hbody b acc log Hinv) as (acc1 & log1 & Hb & Hinv1).
    rewrite (bind_Ret _ _ _ _ _ _ Hb). by apply IH.
Qed.

Lemma for_batches_inv {St} (batchSize : nat) maxBatches (items : list string)
    (body : list string -> St -> M St) (Inv : St -> list Request -> Prop) up :
  (0 < batchSize)%nat ->
  (forall batch acc log, Inv acc log ->
     exists acc' log', body batch acc up log = (Ret acc', log') /\ Inv acc' log') ->
  forall acc log, Inv acc log ->
    exists acc' log',
      for_batches (length items) batchSize maxBatches items body 0 acc up log
      = (Ret acc', log') /\ Inv acc' log'.
Proof.
  intros Hb Hbody acc log Hinv. rewrite for_batches_batches by done.
  by apply fold_batches_inv.
Qed.

Lemma fetched_by_code_later qualCode up log req p :
  fetched_by_code qualCode up log p -> fetched_by_code qualCode up (log ++ [req]) p.
Proof.
  intros (k & batch & b & res & Hk & H). exists k, batch, b, res.
  split; [|done]. by apply lookup_app_l_Some.
Qed.

Lemma matched_batch_inv qualCode up batch acc log :
  healthy up ->
  Forall (fetched_by_code qualCode up log) acc ->
  exists acc' log',
    matched_batch qualCode batch acc up log = (Ret acc', log') /\
    Forall (fetched_by_code qualCode up log') acc'.
Proof.
  intros Hup Hacc. unfold matched_batch.
  destruct (fhirFetch_healthy (practitioners_request qualCode batch) up log Hup)
    as (b & Hb & Hfetch).
  rewrite (bind_Ret _ _ _ _ _ _ Hfetch). eexists _, _. split; [reflexivity|].
  apply Forall_app. split.
  - eapply Forall_impl; [exact Hacc|]. intros p. apply fetched_by_code_later.
  - apply Forall_fmap, Forall_forall. intros res Hres.
    exists (length log), batch, b, res. split; [|done].
    by rewrite lookup_app_r, Nat.sub_diag by lia.
Qed.

Lemma slice_to_subseteq {A} (n : Js.Num) (l : list A) : Js.slice_to n l ⊆ l.
Proof.
  destruct n as [|z]; simpl; [apply list_subseteq_nil|].
  destruct (0 <=? z); apply subseteq_take.
Qed.

Lemma slice_to_length {A} (z : Z) (l : list A) :
  0 <= z -> (length (Js.slice_to (Js.Int z) l) <= Z.to_nat z)%nat.
Proof.
  intros Hz. simpl. destruct (Z.leb_spec 0 z); [|lia]. rewrite length_take. lia.
Qed.

(** C3 fails on a negative [count]: the router bounds the page size from
    above only, and [results.slice(0, count)] with a negative [count] drops
    that many results from the end instead of capping the list.  With
    [count=-1] and three practitioners found, two results are returned for
    a page size of -1; with [count=1] there is one. *)
Theorem reverse_lookup_negative_count :
  page_size [("specialty_code", "SM04"); ("city", "Lyon"); ("count", "-1")] = Js.Int (-1) /\
  handleSearch [("specialty_code", "SM04"); ("city", "Lyon"); ("count", "-1")]
  = searchBySpecialtyAndCity "SM04" "Lyon" (Js.Int (-1)) /\
  ((fun e => (mr_id <$> results e, env_total e, totalFhir e))
     <$> envelope_of
           (run (handleSearch [("specialty_code", "SM04"); ("city", "Lyon"); ("count", "-1")])
              team).1)
  = Some (["p1"; "p2"], 2%nat, None) /\
  ((fun e => mr_id <$> results e)
     <$> envelope_of
           (run (handleSearch [("specialty_code", "SM04"); ("city", "Lyon"); ("count", "1")])
              team).1)
  = Some ["p1"].
Proof. repeat split; reflexivity. Qed.

(** X21.  Against an upstream that answers every call, with ids that name
    no member of [Object.prototype], the reverse lookup returns a 200
    envelope without upstream total whose [total] is the number of results;
    every result is the parse of a practitioner the upstream returned to a
    query constrained by the qualification code; and the list has at most
    [count] results when [count] is a non-negative number (none at all when
    it is NaN). *)
Theorem reverse_lookup_results (qualCode city : string) (count : Js.Num)
    (up : Upstream) (log : list Request) :
  healthy up -> plain_ids up ->
  exists e log',
    searchBySpecialtyAndCity qualCode city count up log = (Ret (ok e), log') /\
    totalFhir e = None /\
    env_total e = length (results e) /\
    Forall (fun r => fetched_by_code qualCode up log' (base r)) (results e) /\
    (forall z, count = Js.Int z -> 0 <= z -> (length (results e) <= Z.to_nat z)%nat) /\
    (count = Js.NaN -> results e = []).
Proof.
  intros Hup _. unfold searchBySpecialtyAndCity.
  destruct (fhirFetch_healthy (organizations_request city) up log Hup) as (orgBundle & _ & H1).
  rewrite (bind_Ret _ _ _ _ _ _ H1).
  destruct (no_entries orgBundle).
  { eexists _, _. split; [reflexivity|]. simpl. repeat split; by try lia. }
  match goal with
  | |- context [bind ?m _ up ?l] =>
      assert (exists allOrgEntries log2, m up l = (Ret allOrgEntries, log2))
        as (allOrgEntries & log2 & H2)
  end.
  { destruct (next_link orgBundle) as [nextOrgUrl|]; [|by eexists _, _].
    destruct (Js.truthy nextOrgUrl); [|by eexists _, _].
    destruct (fhirFetch_healthy (Follow nextOrgUrl) up (log ++ [organizations_request city]) Hup)
      as (nextBundle & _ & Hn).
    rewrite (bind_Ret _ _ _ _ _ _ Hn). by eexists _, _. }
  rewrite (bind_Ret _ _ _ _ _ _ H2).
  destruct (foldl index_org _ allOrgEntries) as [orgs orgIds]. cbv zeta.
  match goal with
  | |- context [for_batches _ _ _ ?items (org_roles_batch orgs) _ ?acc0] =>
      destruct (for_batches_inv 50 (Some 6%nat) items (org_roles_batch orgs)
                  (fun _ _ => True) up) with (acc := acc0) (log := log2)
        as (byOrg & log3 & H3 & _)
  end; [lia| |done|].
  { intros batch acc l _. unfold org_roles_batch.
    destruct (fhirFetch_healthy
                (Search "PractitionerRole"
                   (set "_count" "200" (set "organization" (Js.join "," batch) []))) up l Hup)
      as (b & _ & Hb).
    rewrite (bind_Ret _ _ _ _ _ _ Hb). by eexists _, _. }
  rewrite (bind_Ret _ _ _ _ _ _ H3).
  case_bool_decide.
  { eexists _, _. split; [reflexivity|]. simpl. repeat split; by try lia. }
  destruct (for_batches_inv 50 (Some 5%nat) (practitionerIds byOrg) (matched_batch qualCode)
              (fun acc l => Forall (fetched_by_code qualCode up l) acc) up)
    with (acc := @nil Practitioner) (log := log3) as (matched & log4 & H4 & Hm);
    [lia| |done|].
  { intros batch acc l. by apply matched_batch_inv. }
  rewrite (bind_Ret _ _ _ _ _ _ H4).
  eexists _, _. split; [reflexivity|]. simpl.
  split; [done|]. split; [done|]. split; [|split].
  - apply Forall_forall. intros r Hr%slice_to_subseteq.
    apply list_elem_of_fmap in Hr as (p & -> & Hp). simpl.
    by eapply Forall_forall in Hm.
  - intros z -> Hz. by apply slice_to_length.
  - by intros ->.
Qed.

Lemma registry_healthy : healthy registry.
Proof.
  intros n req. unfold registry.
  repeat match goal with
         | |- context [match ?x with _ => _ end] => destruct x
         end; by eexists.
Qed.

Lemma registry_plain : plain_ids registry.
Proof.
  intros n req b. unfold registry.
  repeat match goal with
         | |- context [match ?x with _ => _ end] => destruct x
         end; intros [= <-]; by repeat constructor.
Qed.

Example reverse_lookup_registry :
  (fun e => (mr_id <$> results e, length <$> (roles <$> results e), totalFhir e))
    <$> envelope_of (run (searchBySpecialtyAndCity "SM04" "Lyon" (Js.Int 200)) registry).1
  = Some (["p1"], [1%nat], None).
Proof. reflexivity. Qed.

Lemma reverse_lookup_results_witness :
  exists e log',
    searchBySpecialtyAndCity "SM04" "Lyon" (Js.Int 1) registry [] = (Ret (ok e), log') /\
    totalFhir e = None /\ (length (results e) <= 1)%nat.
Proof.
  destruct (reverse_lookup_results "SM04" "Lyon" (Js.Int 1) registry [] registry_healthy
              registry_plain)
    as (e & log' & H & Ht & _ & _ & Hc & _).
  exists e, log'. split; [exact H|]. split; [exact Ht|].
  apply (Hc 1); [reflexivity | lia].
Defined.

(** C7.  When the first phase finds no organization in the city, the
    reverse lookup answers 200 with total 0, no result and the message
    "Aucune structure trouvée à {city}", after this single remote call; a
    qualification-code search with a city and no name is a reverse lookup. *)
Theorem no_facility_message (qualCode city : string) (count : Js.Num)
    (up : Upstream) (log : list Request) (orgBundle : Bundle) :
  up (length log) (organizations_request city) = HttpOk orgBundle ->
  no_entries orgBundle = true ->
  searchBySpecialtyAndCity qualCode city count up log
  = (Ret (ok {| env_total := 0; totalFhir := None; results := [];
                message := Some ("Aucune structure trouvée à " +:+ city);
                nextPage := None |}),
     log ++ [organizations_request city]) /\
  (city <> "" ->
   searchByQualificationCode qualCode "" city count
   = searchBySpecialtyAndCity qualCode city count).
Proof.
  intros Hup Hnone. split.
  - unfold searchBySpecialtyAndCity, bind, fhirFetch. by rewrite Hup, Hnone.
  - intros Hcity%truthy_nonempty. unfold searchByQualificationCode. by rewrite Hcity.
Qed.

Lemma no_facility_message_witness :
  run (handleSearch [("specialty_code", "SM04"); ("city", "Lyon")]) (always [])
  = (Ret (ok {| env_total := 0; totalFhir := None; results := [];
                message := Some "Aucune structure trouvée à Lyon"; nextPage := None |}),
     [organizations_request "Lyon"]).
Proof.
  destruct (no_facility_message "SM04" "Lyon" (Js.Int 200) (always []) [] (bundle_of []))
    as [Hmsg Hroute]; [reflexivity | reflexivity |].
  change (handleSearch [("specialty_code", "SM04"); ("city", "Lyon")])
    with (searchByQualificationCode "SM04" "" "Lyon" (Js.Int 200)).
  unfold run. rewrite Hroute by discriminate. exact Hmsg.
Defined.

(** ** The name-lookup fallback chain *)

Lemma attempts_prefix {P} (request : P -> Request) stop up n (plans : list P) :
  attempts request stop up n plans `prefix_of` plans.
Proof.
  revert n. induction plans as [|p plans IH]; intros n; simpl; [done|].
  apply prefix_cons. destruct (up n (request p)) as [b|]; [|apply prefix_nil].
  destruct (stop p b); [apply prefix_nil | apply IH].
Qed.

(** Nothing is attempted after a plan whose bundle stops the chain. *)
Lemma attempts_stop {P} (request : P -> Request) stop up n (plans : list P) k p b :
  attempts request stop up n plans !! k = Some p ->
  up (n + k)%nat (request p) = HttpOk b ->
  stop p b = true ->
  length (attempts request stop up n plans) = S k.
Proof.
  revert n k. induction plans as [|q plans IH]; intros n k; simpl; [done|].
  destruct k as [|k]; simpl.
  - intros [= ->]. rewrite Nat.add_0_r. by intros -> ->.
  - destruct (up n (request q)) as [bq|]; [|done].
    destruct (stop q bq); [done|].
    intros Hk Hup Hstop. f_equal. apply (IH (S n) k); [done| |done].
    by replace (S n + k)%nat with (n + S k)%nat by lia.
Qed.

(** The chain goes on after an empty bundle. *)
Lemma attempts_continue {P} (request : P -> Request) stop up n (plans : list P) k p b :
  attempts request stop up n plans !! k = Some p ->
  up (n + k)%nat (request p) = HttpOk b ->
  stop p b = false ->
  (S k < length plans)%nat ->
  (S k < length (attempts request stop up n plans))%nat.
Proof.
  revert n k. induction plans as [|q plans IH]; intros n k; simpl; [done|].
  destruct k as [|k]; simpl.
  - intros [= ->]. rewrite Nat.add_0_r. intros -> ->.
    destruct plans; simpl; lia.
  - destruct (up n (request q)) as [bq|]; [|done].
    destruct (stop q bq); [done|].
    intros Hk Hup Hstop Hlen.
    assert (S k < length (attempts request stop up (S n) plans))%nat; [|lia].
    apply (IH (S n) k); [done| |done|lia].
    by replace (S n + k)%nat with (n + S k)%nat by lia.
Qed.

Lemma issued_app {A} (m : M A) up log sent :
  (m up log).2 = log ++ sent -> issued m up log = sent.
Proof. intros H. unfold issued. by rewrite H, drop_app_length. Qed.

Lemma name_chain_log (name : string) up log :
  (name_chain name up log).2
  = log ++ attempts id (fun _ => nonempty) up (length log) (chain_plans name).
Proof.
  unfold name_chain, chain_plans, nonempty.
  destruct (2 <=? length (Js.trim_split name))%nat; simpl;
    unfold bind, fhirFetch, ret, id.
  - destruct (up (length log) _) as [b1|]; [|done].
    destruct (no_entries b1) eqn:H1; simpl; [|by rewrite H1].
    rewrite length_app, Nat.add_1_r.
    destruct (up (S (length log)) _) as [b2|]; [|by rewrite <- app_assoc].
    destruct (no_entries b2) eqn:H2; simpl; [|by rewrite <- app_assoc].
    rewrite !length_app, !Nat.add_1_r. simpl.
    destruct (up (S (S (length log))) _) as [b3|]; [|by rewrite <- !app_assoc].
    rewrite <- !app_assoc. simpl. by destruct (no_entries b3).
  - destruct (up (length log) _) as [b1|]; [|done].
    destruct (no_entries b1) eqn:H1; simpl; [|done].
    rewrite length_app, Nat.add_1_r.
    destruct (up (S (length log)) _) as [b2|]; rewrite <- app_assoc; simpl; [|done].
    by destruct (no_entries b2).
Qed.

Lemma entry_count_nonempty (b : Bundle) :
  (0 <? length (default [] (entry b)))%nat = nonempty b.
Proof. unfold nonempty, no_entries. by destruct (entry b) as [[|]|]. Qed.

Lemma try_strategies_log (single : bool) (todo : list (list (string * string)))
    bestBundle bestCount up log :
  (Older.try_strategies single todo bestBundle bestCount up log).2
  = log ++ (Older.strategy_request
              <$> attempts Older.strategy_request (older_accepts single) up (length log) todo).
Proof.
  revert bestBundle bestCount log.
  induction todo as [|strategy todo IH]; intros bestBundle bestCount log; simpl.
  - unfold ret. by rewrite app_nil_r.
  - unfold bind, fhirFetch.
    destruct (up (length log) (Older.strategy_request strategy)) as [b|]; [|done].
    unfold older_accepts at 1. rewrite entry_count_nonempty.
    destruct (nonempty b), (Older.has strategy "family"), (Older.has strategy "given"),
      single; simpl; try done;
      rewrite IH, length_app, Nat.add_1_r, <- app_assoc; done.
Qed.

(** *** Tokens are not empty *)

Lemma rev_app_nonempty (s t : string) : t <> "" -> String.rev_app s t <> "".
Proof.
  revert t. induction s as [|a s IH]; intros t Ht; simpl; [done|]. by apply IH.
Qed.

Lemma flush_nonempty (cur w : string) : w ∈ Js.flush cur -> w <> "".
Proof.
  destruct cur as [|a cur]; simpl; [by intros []%elem_of_nil|].
  intros ->%list_elem_of_singleton. unfold String.rev. simpl. by apply rev_app_nonempty.
Qed.

Lemma tokens_go_nonempty (s : string) (skip : nat) (cur w : string) :
  w ∈ Js.tokens_go skip cur s -> w <> "".
Proof.
  revert skip cur. induction s as [|a s IH]; intros skip cur; simpl.
  - apply flush_nonempty.
  - destruct skip as [|k]; [|apply IH].
    destruct (Js.space_width (String a s)) as [|k]; [apply IH|].
    intros [Hw|Hw]%elem_of_app; [by eapply flush_nonempty | by eapply IH].
Qed.

Lemma several_tokens_nonempty (name : string) :
  (2 <= length (Js.trim_split name))%nat ->
  Forall (fun w => w <> "") (Js.trim_split name).
Proof.
  unfold Js.trim_split. intros Hlen. apply Forall_forall. intros w.
  destruct (Js.tokens_go 0 "" name) as [|w0 ws] eqn:Hw; [simpl in Hlen; lia|].
  rewrite <- Hw. apply tokens_go_nonempty.
Qed.

Lemma join_nonempty (sep w : string) (ws : list string) :
  w <> "" -> Js.join sep (w :: ws) <> "".
Proof. destruct w; [done|]. destruct ws; simpl; done. Qed.

Lemma has_family (f : string) (rest : list (string * string)) :
  Older.has (("family", f) :: rest) "family" = Js.truthy f.
Proof. unfold Older.has, get. simpl. by destruct f. Qed.

Lemma has_given (f g : string) :
  Older.has [("family", f); ("given", g)] "given" = Js.truthy g.
Proof. unfold Older.has, get. simpl. by destruct g. Qed.

(** In the strategies of a name, a strategy whose request is a family+given
    plan has a non-empty family and a non-empty given name. *)
Lemma older_family_given (name family given : string) (strategy : list (string * string)) :
  strategy ∈ Older.strategies name ->
  Older.strategy_request strategy = plan_family_given family given ->
  Older.has strategy "family" = true /\ Older.has strategy "given" = true.
Proof.
  unfold Older.strategies.
  destruct (Nat.leb_spec 2 (length (Js.trim_split name))) as [Hlen|Hlen].
  - pose proof (several_tokens_nonempty name Hlen) as Hne.
    destruct (Js.trim_split name) as [|w1 [|w2 ws]]; simpl in Hlen; [lia..|].
    apply Forall_cons in Hne as [H1 Hne].
    assert (Hlast : last_token (w1 :: w2 :: ws) <> "").
    { unfold last_token.
      destruct (last (w1 :: w2 :: ws)) as [w|] eqn:Hl; [|by apply last_None in Hl].
      simpl. eapply Forall_forall in Hne; [exact Hne|].
      apply last_Some in Hl as [l' Hl]. destruct l' as [|x l']; [done|].
      injection Hl as -> ->. apply elem_of_app. right. left. }
    rewrite !elem_of_cons, elem_of_nil.
    intros [->|[->|[->|[->|[]]]]]; [| |done..]; intros _;
      rewrite has_family, has_given; split; apply truthy_nonempty; try done.
    + apply Forall_cons in Hne as [H2 _]. by apply join_nonempty.
    + unfold leading_tokens. cbn [removelast]. by apply join_nonempty.
  - rewrite !elem_of_cons, elem_of_nil. by intros [->|[->|[]]].
Qed.

Lemma older_plans (name : string) :
  Older.strategy_request <$> Older.strategies name = spec_plans name.
Proof.
  unfold Older.strategies, spec_plans.
  by destruct (2 <=? length (Js.trim_split name))%nat.
Qed.

Lemma chain_plans_prefix (name : string) : chain_plans name `prefix_of` spec_plans name.
Proof.
  unfold chain_plans, spec_plans.
  destruct (2 <=? length (Js.trim_split name))%nat; [|done].
  by eexists [_].
Qed.

Lemma best_bundle_log (name : string) up log :
  issued (Older.best_bundle name) up log
  = Older.strategy_request
      <$> attempts Older.strategy_request
            (older_accepts (length (Js.trim_split name) =? 1)%nat) up (length log)
            (Older.strategies name).
Proof. apply issued_app, try_strategies_log. Qed.

Lemma trim_split_nonempty (name : string) : (1 <= length (Js.trim_split name))%nat.
Proof. unfold Js.trim_split. destruct (Js.tokens_go 0 "" name); simpl; lia. Qed.

(** Two departures from the claim.  The strategy-list revision does not
    stop at the first non-empty plan: for "Dupont Marie" the family-only
    plan finds an entry and the unstructured-name plan is attempted all the
    same.  And the family plan of a single-token name carries the name as it
    was typed, not its first token: " Dupont" is sent with its leading
    space. *)
Lemma name_lookup_departures :
  (let sent := issued (Older.best_bundle "Dupont Marie") family_only [] in
   sent !! 2%nat = Some (plan_family "Dupont") /\
   family_only 2%nat (plan_family "Dupont")
   = HttpOk (bundle_of [resource_of "Practitioner" "p1" None]) /\
   nonempty (bundle_of [resource_of "Practitioner" "p1" None]) = true /\
   sent !! 3%nat = Some (plan_name "Dupont Marie") /\
   length sent <> 3%nat) /\
  (first_token (Js.trim_split " Dupont") = "Dupont" /\
   issued (name_chain " Dupont") (always []) [] = [plan_family " Dupont"; plan_name " Dupont"] /\
   issued (Older.best_bundle " Dupont") (always []) []
   = [plan_family " Dupont"; plan_name " Dupont"] /\
   plan_family " Dupont" <> plan_family "Dupont").
Proof. repeat split; try reflexivity; vm_compute; discriminate. Qed.

(** C2, as the code has it.  The name lookup attempts the plans of
    [spec_plans] in their order, at most four of them: family and given
    names from the first token and the rest, from the last token and the
    leading ones, the first token alone as family name, the whole string as
    unstructured name; a single-token name is sent whole as family name and
    then as unstructured name.  Once a family+given plan returns an entry no
    further plan is attempted.  The chain of the current revision (three
    plans for several tokens, two for one) stops at the first plan whose
    bundle is not empty.  The strategy-list revision stops at a non-empty
    family+given plan, and at the non-empty family plan of a single-token
    name; for a name of several tokens it goes on to the next plan after the
    family-only plan, whatever that plan returned. *)
Theorem name_lookup_chain (name : string) (up : Upstream) (log : list Request) :
  let single := (length (Js.trim_split name) =? 1)%nat in
  let sent := issued (name_chain name) up log in
  let sent_older := issued (Older.best_bundle name) up log in
  (length (spec_plans name) <= 4)%nat /\
  sent = attempts id (fun _ => nonempty) up (length log) (chain_plans name) /\
  sent_older
  = Older.strategy_request
      <$> attempts Older.strategy_request (older_accepts single) up (length log)
            (Older.strategies name) /\
  sent `prefix_of` spec_plans name /\
  sent_older `prefix_of` spec_plans name /\
  (forall k req b,
     sent !! k = Some req -> up (length log + k)%nat req = HttpOk b ->
     nonempty b = true -> length sent = S k) /\
  (forall k family given b,
     sent_older !! k = Some (plan_family_given family given) ->
     up (length log + k)%nat (plan_family_given family given) = HttpOk b ->
     nonempty b = true -> length sent_older = S k) /\
  (forall k b,
     single = true -> name <> "" ->
     sent_older !! k = Some (plan_family name) ->
     up (length log + k)%nat (plan_family name) = HttpOk b ->
     nonempty b = true -> length sent_older = S k) /\
  (forall k family b,
     single = false ->
     sent_older !! k = Some (plan_family family) ->
     up (length log + k)%nat (plan_family family) = HttpOk b ->
     sent_older !! S k = Some (plan_name name)).
Proof.
  intros single sent sent_older.
  assert (Hsent : sent = attempts id (fun _ => nonempty) up (length log) (chain_plans name))
    by apply issued_app, name_chain_log.
  pose proof (best_bundle_log name up log) as Holder. fold sent_older single in Holder.
  assert (Hstop : forall k strategy b,
            sent_older !! k = Some (Older.strategy_request strategy) ->
            (forall s, s ∈ Older.strategies name ->
                       Older.strategy_request s = Older.strategy_request strategy ->
                       older_accepts single s b = true) ->
            up (length log + k)%nat (Older.strategy_request strategy) = HttpOk b ->
            length sent_older = S k).
  { intros k strategy b Hk Hacc Hup. rewrite Holder in Hk |- *.
    rewrite list_lookup_fmap in Hk.
    destruct (attempts _ _ _ _ _ !! k) as [s|] eqn:Hs; [|done].
    assert (Hreq : Older.strategy_request s = Older.strategy_request strategy)
      by (simpl in Hk; congruence).
    rewrite length_fmap.
    eapply attempts_stop; [exact Hs | rewrite Hreq; exact Hup |].
    apply Hacc; [|done].
    eapply list_elem_of_lookup_2, prefix_lookup_Some; [exact Hs | apply attempts_prefix]. }
  split; [|split; [done|split; [done|split; [|split; [|split; [|split; [|split]]]]]]].
  - unfold spec_plans. destruct (2 <=? _)%nat; simpl; lia.
  - rewrite Hsent. etrans; [apply attempts_prefix | apply chain_plans_prefix].
  - rewrite Holder, <- older_plans.
    destruct (attempts_prefix Older.strategy_request (older_accepts single) up (length log)
                (Older.strategies name)) as [rest Hrest].
    exists (Older.strategy_request <$> rest). by rewrite Hrest at 1; rewrite fmap_app.
  - intros k req b Hk Hup Hne. rewrite Hsent in Hk |- *.
    by eapply (attempts_stop id (fun _ => nonempty)).
  - intros k family given b Hk Hup Hne.
    apply (Hstop k [("family", family); ("given", given)] b); [done| |done].
    intros s Hs Hreq. destruct (older_family_given name family given s Hs Hreq) as [Hf Hg].
    unfold older_accepts. by rewrite Hne, Hf, Hg.
  - intros k b Hsingle Hname%truthy_nonempty Hk Hup Hne.
    apply (Hstop k [("family", name)] b); [done| |done].
    intros s Hs Hreq. unfold older_accepts. rewrite Hne, Hsingle, orb_true_r, andb_true_r.
    unfold Older.strategies in Hs.
    destruct (Nat.leb_spec 2 (length (Js.trim_split name))) as [Hlen|_].
    { apply Nat.eqb_eq in Hsingle. lia. }
    apply elem_of_cons in Hs as [->|Hs]; [by rewrite has_family|].
    by apply list_elem_of_singleton in Hs as ->.
  - intros k family b Hsingle Hk Hup.
    assert (Hlen : (2 <=? length (Js.trim_split name))%nat = true).
    { pose proof (trim_split_nonempty name). apply Nat.eqb_neq in Hsingle.
      apply Nat.leb_le. lia. }
    rewrite Holder in Hk |- *. rewrite list_lookup_fmap in Hk |- *.
    destruct (attempts _ _ _ _ _ !! k) as [s|] eqn:Hs; [|done].
    assert (Hreq : Older.strategy_request s = plan_family family)
      by (simpl in Hk; congruence).
    clear Hk.
    pose proof (attempts_prefix Older.strategy_request (older_accepts single) up
                  (length log) (Older.strategies name)) as Hpre.
    pose proof (prefix_lookup_Some _ _ _ _ Hs Hpre) as Hstrat.
    assert (Hnext : (S k < length (attempts Older.strategy_request (older_accepts single) up
                                     (length log) (Older.strategies name)))%nat).
    { unfold Older.strategies in Hstrat, Hs |- *. rewrite Hlen in Hstrat, Hs |- *.
      destruct k as [|[|[|[|k]]]]; simpl in Hstrat; try discriminate Hstrat;
        injection Hstrat as <-; try discriminate Hreq.
      rewrite <- Hreq in Hup.
      eapply attempts_continue; [exact Hs | exact Hup | | simpl; lia].
      unfold older_accepts. rewrite Hsingle. simpl. by rewrite !andb_false_r. }
    apply lookup_lt_is_Some_2 in Hnext as [s' Hs']. rewrite Hs'. simpl. f_equal.
    pose proof (prefix_lookup_Some _ _ _ _ Hs' Hpre) as Hstrat'.
    unfold Older.strategies in Hstrat, Hstrat'. rewrite Hlen in Hstrat, Hstrat'.
    destruct k as [|[|[|[|k]]]]; simpl in Hstrat; try discriminate Hstrat;
      injection Hstrat as <-; try discriminate Hreq.
    simpl in Hstrat'. by injection Hstrat' as <-.
Qed.

Lemma name_lookup_chain_witness :
  issued (name_chain "Dupont Marie") three_found [] = [plan_family_given "Dupont" "Marie"] /\
  issued (Older.best_bundle "Dupont Marie") three_found []
  = [plan_family_given "Dupont" "Marie"] /\
  length (issued (Older.best_bundle "Dupont") three_found []) = 1%nat.
Proof.
  pose proof (name_lookup_chain "Dupont Marie" three_found [])
    as (_ & Hsent & Holder & _ & _ & _ & _ & _ & _).
  pose proof (name_lookup_chain "Dupont" three_found [])
    as (_ & _ & _ & _ & _ & _ & _ & Hsingle & _).
  split; [|split].
  - rewrite Hsent. reflexivity.
  - rewrite Holder. reflexivity.
  - eapply (Hsingle 0%nat); [reflexivity | discriminate | reflexivity..].
Defined.

(** The name search "Dupont Marie" whose family+given plan finds three
    entries returns these three and runs no fallback plan. *)
Example dupont_marie :
  (fun out => ((fun e => mr_id <$> results e) <$> envelope_of out.1, out.2))
    (run (searchByName "Dupont Marie" "" "" (Js.Int 200)) three_found)
  = (Some ["p1"; "p2"; "p3"],
     [plan_family_given "Dupont" "Marie"; roles_request ["p1"; "p2"; "p3"]]).
Proof. reflexivity. Qed.


(** ** Scenarios *)

(** An identifier search without matching record. *)
Example unknown_rpps :
  run (handleSearch [("rpps", "123456789")]) (always [])
  = (Ret (ok empty_envelope),
     [Search "Practitioner"
        [("identifier", "https://rpps.esante.gouv.fr|123456789"); ("_count", "10")]]).
Proof. reflexivity. Qed.

(** A continuation token from the upstream is followed as it is. *)
Example load_more :
  (run (handleSearch [("next", API_BASE +:+ "/Practitioner?page=2"); ("name", "Dupont")])
     (always [])).2
  = [Follow (API_BASE +:+ "/Practitioner?page=2")].
Proof. reflexivity. Qed.

(** An upstream failure becomes a 500 with the upstream status in the
    message. *)
Example upstream_failure :
  run (onRequest "GET" [("rpps", "123456789")]) (fun _ _ => HttpError 503 "unavailable")
  = (Ret (jsonResponse (ErrorBody "FHIR API 503: unavailable") 500),
     [Search "Practitioner"
        [("identifier", "https://rpps.esante.gouv.fr|123456789"); ("_count", "10")]]).
Proof. reflexivity. Qed.

(** ** The budget of remote calls *)

Lemma sends_weaken {A} (n n' : nat) (m : M A) :
  sends_at_most n m -> (n <= n')%nat -> sends_at_most n' m.
Proof.
  intros Hm Hn up log. destruct (Hm up log) as (sent & Hs & Hl).
  exists sent. split; [done|lia].
Qed.

Lemma sends_ret {A} (a : A) : sends_at_most 0 (ret a).
Proof. intros up log. exists []. by rewrite app_nil_r. Qed.

Lemma sends_lift {A} (o : Outcome A) : sends_at_most 0 (lift o).
Proof. intros up log. exists []. by rewrite app_nil_r. Qed.

Lemma sends_fhirFetch (req : Request) : sends_at_most 1 (fhirFetch req).
Proof.
  intros up log. exists [req]. unfold fhirFetch.
  by destruct (up (length log) req).
Qed.

Lemma sends_bind {A B} (n k : nat) (m : M A) (f : A -> M B) :
  sends_at_most n m -> (forall a, sends_at_most k (f a)) ->
  sends_at_most (n + k) (bind m f).
Proof.
  intros Hm Hf up log. unfold bind.
  destruct (Hm up log) as (sent & Hs & Hl).
  destruct (m up log) as [[a|msg] log1]; simpl in Hs; subst log1.
  - destruct (Hf a up (log ++ sent)) as (sent' & Hs' & Hl').
    exists (sent ++ sent'). rewrite Hs', <- app_assoc, length_app. split; [done|lia].
  - exists sent. split; [done|lia].
Qed.

Lemma sends_fold_batches {St} (body : list string -> St -> M St) (bs : list (list string))
    (acc : St) :
  (forall b a, sends_at_most 1 (body b a)) ->
  sends_at_most (length bs) (fold_batches body bs acc).
Proof.
  intros Hbody. revert acc. induction bs as [|b bs IH]; intros acc; simpl.
  - apply sends_ret.
  - apply (sends_bind 1 (length bs)); [apply Hbody | intros a; apply IH].
Qed.

Lemma sends_for_batches {St} (batchSize m : nat) (items : list string)
    (body : list string -> St -> M St) (acc : St) :
  (0 < batchSize)%nat ->
  (forall b a, sends_at_most 1 (body b a)) ->
  sends_at_most m (for_batches (length items) batchSize (Some m) items body 0 acc).
Proof.
  intros Hb Hbody up log. rewrite for_batches_batches by done.
  destruct (sends_fold_batches body (batches_of batchSize (Some m) items) acc Hbody up log)
    as (sent & Hs & Hl).
  exists sent. split; [done|]. rewrite length_batches_of in Hl. simpl in Hl. lia.
Qed.

Lemma sends_one_batch {St} (req : Request) (f : Bundle -> St) :
  sends_at_most 1 (let* b := fhirFetch req in ret (f b)).
Proof.
  apply (sends_bind 1 0); [apply sends_fhirFetch | intros b; apply sends_ret].
Qed.

Lemma sends_fetchRoles (ids : list string) : sends_at_most 6 (fetchRolesForPractitioners ids).
Proof.
  apply sends_for_batches; [lia|]. intros b a. apply sends_one_batch.
Qed.

Lemma sends_resolve (entries : list Resource) : sends_at_most 6 (resolve entries).
Proof.
  apply (sends_bind 6 0); [apply sends_fetchRoles | intros a; apply sends_ret].
Qed.

Lemma sends_handleLoadMore (nextUrl : string) : sends_at_most 7 (handleLoadMore nextUrl).
Proof.
  unfold handleLoadMore. destruct (negb _).
  { eapply sends_weaken; [apply sends_ret | lia]. }
  apply (sends_bind 1 6); [apply sends_fhirFetch|]. intros bundle.
  destruct (no_entries bundle).
  { eapply sends_weaken; [apply sends_ret | lia]. }
  apply (sends_bind 6 0); [apply sends_resolve | intros a; apply sends_ret].
Qed.

Lemma sends_searchByRpps (rpps : string) : sends_at_most 7 (searchByRpps rpps).
Proof.
  apply (sends_bind 1 6); [apply sends_fhirFetch|]. intros bundle.
  destruct (no_entries bundle).
  { eapply sends_weaken; [apply sends_ret | lia]. }
  apply (sends_bind 6 0); [apply sends_resolve | intros a; apply sends_ret].
Qed.

Lemma sends_searchBySpecialtyAndCity (qualCode city : string) (count : Js.Num) :
  sends_at_most 13 (searchBySpecialtyAndCity qualCode city count).
Proof.
  unfold searchBySpecialtyAndCity.
  apply (sends_bind 1 12); [apply sends_fhirFetch|]. intros orgBundle.
  destruct (no_entries orgBundle).
  { eapply sends_weaken; [apply sends_ret | lia]. }
  apply (sends_bind 1 11).
  { destruct (next_link orgBundle) as [nextOrgUrl|];
      [|eapply sends_weaken; [apply sends_ret | lia]].
    destruct (Js.truthy nextOrgUrl); [|eapply sends_weaken; [apply sends_ret | lia]].
    apply (sends_bind 1 0); [apply sends_fhirFetch | intros b; apply sends_ret]. }
  intros allOrgEntries. destruct (foldl index_org _ allOrgEntries) as [orgs orgIds]. cbv zeta.
  apply (sends_bind 6 5).
  { apply sends_for_batches; [lia|]. intros b a. apply sends_one_batch. }
  intros byOrg. case_bool_decide.
  { eapply sends_weaken; [apply sends_ret | lia]. }
  apply (sends_bind 5 0); [|intros a; apply sends_ret].
  apply sends_for_batches; [lia|]. intros b a. apply sends_one_batch.
Qed.

Lemma sends_fallback (n : nat) (b1 : Bundle) (m : M Bundle) :
  sends_at_most n m -> sends_at_most n (if no_entries b1 then m else ret b1).
Proof.
  intros Hm. destruct (no_entries b1); [done|].
  eapply sends_weaken; [apply sends_ret | lia].
Qed.

Lemma sends_searchByQualificationCode (code name city : string) (count : Js.Num) :
  sends_at_most 13 (searchByQualificationCode code name city count).
Proof.
  unfold searchByQualificationCode. destruct (_ && _); [apply sends_searchBySpecialtyAndCity|].
  eapply sends_weaken; [|apply (Nat.le_refl 13)].
  apply (sends_bind 2 11).
  { destruct (2 <=? _)%nat; [|destruct (_ =? 1)%nat].
    - apply (sends_bind 1 1); [apply sends_fhirFetch|].
      intros b1. apply sends_fallback, sends_fhirFetch.
    - apply (sends_bind 1 1); [apply sends_fhirFetch|].
      intros b1. apply sends_fallback, sends_fhirFetch.
    - eapply sends_weaken; [apply sends_fhirFetch | lia]. }
  intros bundle. destruct (no_entries bundle).
  { eapply sends_weaken; [apply sends_ret | lia]. }
  eapply sends_weaken; [|apply (Nat.le_add_r 6 5)].
  apply (sends_bind 6 0); [apply sends_resolve | intros a; apply sends_ret].
Qed.

Lemma sends_name_chain (name : string) : sends_at_most 3 (name_chain name).
Proof.
  unfold name_chain. destruct (2 <=? _)%nat.
  - apply (sends_bind 1 2); [apply sends_fhirFetch|]. intros b1.
    apply (sends_bind 1 1); [apply sends_fallback, sends_fhirFetch|].
    intros b2. apply sends_fallback, sends_fhirFetch.
  - eapply sends_weaken; [|apply (Nat.le_succ_diag_r 2)].
    apply (sends_bind 1 1); [apply sends_fhirFetch|].
    intros b1. apply sends_fallback, sends_fhirFetch.
Qed.

Lemma sends_searchByName (name city specialty : string) (count : Js.Num) :
  sends_at_most 10 (searchByName name city specialty count).
Proof.
  unfold searchByName. apply (sends_bind 3 7); [apply sends_name_chain|].
  intros bundle. destruct (no_entries bundle).
  { eapply sends_weaken; [apply sends_ret | lia]. }
  unfold finish_by_name. apply (sends_bind 1 6).
  { destruct (_ && _); [|eapply sends_weaken; [apply sends_ret | lia]].
    unfold one_more_page. destruct (Js.or_null _);
      [|eapply sends_weaken; [apply sends_ret | lia]].
    apply (sends_bind 1 0); [apply sends_fhirFetch | intros b; apply sends_ret]. }
  intros allEntries. apply (sends_bind 6 0); [apply sends_resolve|].
  intros results. apply (sends_bind 0 0); [apply sends_lift | intros a; apply sends_ret].
Qed.

Lemma sends_searchByRoleFilters (city specialty : string) (count : Js.Num) :
  sends_at_most 1 (searchByRoleFilters city specialty count).
Proof.
  unfold searchByRoleFilters. apply (sends_bind 1 0); [apply sends_fhirFetch|].
  intros bundle. destruct (no_entries bundle); [apply sends_ret|].
  apply (sends_bind 0 0); [apply sends_lift | intros a; apply sends_ret].
Qed.

(** X1.  Whatever the request and whatever the upstream answers, the
    handler only appends to the log of remote calls and sends at most 13
    requests: one organization page and one more, six batches of roles, five
    batches of practitioners in the reverse lookup, which is the longest
    strategy. *)
Theorem handleSearch_call_budget (method : string) (params : list (string * string)) :
  sends_at_most 13 (handleSearch params) /\ sends_at_most 13 (onRequest method params).
Proof.
  assert (Hh : sends_at_most 13 (handleSearch params)).
  { unfold handleSearch.
    destruct (Js.truthy _); [eapply sends_weaken; [apply sends_handleLoadMore | lia]|].
    destruct (Js.truthy _); [eapply sends_weaken; [apply sends_searchByRpps | lia]|].
    destruct (Js.truthy _); [apply sends_searchByQualificationCode|].
    destruct (Js.truthy _); [eapply sends_weaken; [apply sends_searchByName | lia]|].
    destruct (Js.truthy _); [eapply sends_weaken; [apply sends_searchByRoleFilters | lia]|].
    eapply sends_weaken; [apply sends_ret | lia]. }
  split; [done|]. unfold onRequest.
  destruct (String.eqb method "OPTIONS"); [eapply sends_weaken; [apply sends_ret | lia]|].
  intros up log. destruct (Hh up log) as (sent & Hs & Hl).
  exists sent. split; [|done]. by destruct (handleSearch params up log) as [[r|msg] log'].
Qed.

(** The budget is reached. *)
Example budget_reached :
  length (run (handleSearch [("specialty_code", "SM04"); ("city", "Lyon")]) crowded).2
  = 13%nat.
Proof. vm_compute. reflexivity. Qed.

(** ** Upstream failures *)

Lemma fhirFetch_fails {B} (req : Request) (f : Bundle -> M B) up log status text :
  up (length log) req = HttpError status text ->
  bind (fhirFetch req) f up log = (Throw (fhir_error status text), log ++ [req]).
Proof. intros H. unfold bind, fhirFetch. by rewrite H. Qed.

(** X2.  When the first remote call of a request fails, with an HTTP status
    and a body of ASCII characters, the request is answered 500 with that
    status and the first 200 characters of that body, after that single
    call: nothing is retried and no partial result is returned.  A request
    rejected before any call keeps its 400. *)
Theorem first_failure_is_500 (method : string) (params : list (string * string))
    (up : Upstream) (log : list Request) (status : Z) (text : string) :
  method <> "OPTIONS" ->
  100 <= status <= 599 ->
  Js.ascii_only text = true ->
  (forall req, up (length log) req = HttpError status text) ->
  (exists msg, onRequest method params up log = (Ret (bad_request msg), log)) \/
  (exists req,
     onRequest method params up log
     = (Ret (jsonResponse (ErrorBody (fhir_error status text)) 500), log ++ [req])).
Proof.
  intros Hm _ _ Hup. apply String.eqb_neq in Hm.
  assert (Hthrow : (exists msg, handleSearch params up log = (Ret (bad_request msg), log)) \/
                   (exists req, handleSearch params up log
                                = (Throw (fhir_error status text), log ++ [req]))).
  { unfold handleSearch.
    destruct (Js.truthy _).
    { unfold handleLoadMore. destruct (negb _); [left; by eexists|].
      right. eexists. by apply fhirFetch_fails. }
    destruct (Js.truthy _).
    { right. eexists. unfold searchByRpps. by apply fhirFetch_fails. }
    destruct (Js.truthy _).
    { right. unfold searchByQualificationCode.
      destruct (_ && _).
      { eexists. unfold searchBySpecialtyAndCity. by apply fhirFetch_fails. }
      unfold bind at 1.
      destruct (2 <=? _)%nat; [|destruct (_ =? 1)%nat].
      - eexists. by erewrite fhirFetch_fails.
      - eexists. by erewrite fhirFetch_fails.
      - eexists. unfold fhirFetch. by rewrite Hup. }
    destruct (Js.truthy _).
    { right. unfold searchByName, name_chain. unfold bind at 1.
      destruct (2 <=? _)%nat; eexists; by erewrite fhirFetch_fails. }
    destruct (Js.truthy _).
    { right. eexists. unfold searchByRoleFilters. by apply fhirFetch_fails. }
    left. by eexists. }
  unfold onRequest. rewrite Hm.
  destruct Hthrow as [[msg ->]|[req ->]]; [left|right]; by eexists.
Qed.

Lemma first_failure_is_500_witness :
  run (onRequest "GET" [("name", "Dupont Marie")]) (fun _ _ => HttpError 429 "slow down")
  = (Ret (jsonResponse (ErrorBody "FHIR API 429: slow down") 500),
     [plan_family_given "Dupont" "Marie"]).
Proof.
  destruct (first_failure_is_500 "GET" [("name", "Dupont Marie")]
              (fun _ _ => HttpError 429 "slow down") [] 429 "slow down")
    as [[msg H]|[req H]]; [discriminate | lia | reflexivity | done | |].
  - discriminate H.
  - unfold run. rewrite H. injection H as <-. reflexivity.
Defined.

(** ** More on the merge *)

(** X3.  On ids that name no member of [Object.prototype], the merge is a
    left join: it returns the practitioners it is given, in their order,
    each with a role list; and every role with a non-empty practitioner id
    is in the role list of every practitioner with that id, its organization
    attached. *)
Theorem merge_left_join (practitioners : list Practitioner) (roles0 : list Role)
    (orgs : gmap string Organization) :
  Forall (fun p => Js.inherited (pract_id p) = false) practitioners ->
  Forall (fun r0 => Js.inherited (practitionerId r0) = false /\
                    Js.inherited (organizationId r0) = false) roles0 ->
  base <$> mergePractitionersAndRoles practitioners roles0 orgs = practitioners /\
  (forall p r0,
     p ∈ practitioners -> r0 ∈ roles0 ->
     practitionerId r0 = pract_id p -> practitionerId r0 <> "" ->
     exists m, m ∈ mergePractitionersAndRoles practitioners roles0 orgs /\
               base m = p /\ attach orgs r0 ∈ roles m) /\
  (forall m, m ∈ mergePractitionersAndRoles practitioners roles0 orgs ->
     (forall r0, r0 ∈ roles0 -> practitionerId r0 <> mr_id m) -> roles m = []).
Proof.
  intros _ _. rewrite merge_roles. split; [|split].
  - rewrite <- list_fmap_compose. by rewrite <- (list_fmap_id practitioners) at 2.
  - intros p r0 Hp Hr0 Hid Hne. eexists. split; [by apply list_elem_of_fmap_2|].
    split; [done|]. simpl. apply list_elem_of_fmap_2.
    apply list_elem_of_In, List.filter_In. split; [by apply list_elem_of_In|].
    unfold belongs_to. apply andb_true_intro.
    split; [by apply truthy_nonempty | by apply String.eqb_eq].
  - intros m (p & -> & _)%list_elem_of_fmap Hnone. simpl in *.
    destruct (List.filter _ roles0) as [|r0 l] eqn:Hf; [done|].
    assert (Hin : In r0 (List.filter (belongs_to (pract_id p)) roles0))
      by (rewrite Hf; by left).
    apply List.filter_In in Hin as [Hin Hb]. apply andb_prop in Hb as [_ Hb%String.eqb_eq].
    by apply list_elem_of_In, Hnone in Hin.
Qed.

Lemma merge_left_join_witness :
  exists m,
    m ∈ mergePractitionersAndRoles [unknown_practitioner "p1"]
          [parsePractitionerRole role_of_p1] ∅ /\
    base m = unknown_practitioner "p1" /\
    attach ∅ (parsePractitionerRole role_of_p1) ∈ roles m.
Proof.
  destruct (merge_left_join [unknown_practitioner "p1"] [parsePractitionerRole role_of_p1] ∅)
    as (_ & H & _); [by repeat constructor..|].
  apply (H (unknown_practitioner "p1") (parsePractitionerRole role_of_p1));
    [left | left | reflexivity | discriminate].
Defined.

Lemma attach_parsed (orgs : gmap string Organization) (r : Resource) :
  organization (attach orgs (parsePractitionerRole r))
  = if Js.truthy (organizationId (parsePractitionerRole r))
    then orgs !! organizationId (parsePractitionerRole r) else None.
Proof.
  unfold attach. destruct (Js.truthy _); [|done]. by destruct (orgs !! _).
Qed.

Lemma attach_organizationId (orgs : gmap string Organization) (role : Role) :
  organizationId (attach orgs role) = organizationId role.
Proof.
  unfold attach. destruct (Js.truthy _); [|done]. by destruct (orgs !! _).
Qed.

(** X4.  In a merge of parsed roles, a role carries an organization exactly
    when its organization id is not empty and names an organization of the
    map, and then it carries that organization. *)
Theorem merge_resolves_organizations (practitioners : list Practitioner)
    (resources : list Resource) (orgs : gmap string Organization)
    (m : MergedResult) (role : Role) :
  m ∈ mergePractitionersAndRoles practitioners (parsePractitionerRole <$> resources) orgs ->
  role ∈ roles m ->
  organization role
  = if Js.truthy (organizationId role) then orgs !! organizationId role else None.
Proof.
  rewrite merge_roles. intros (p & -> & _)%list_elem_of_fmap. simpl.
  intros (r0 & -> & Hr0)%list_elem_of_fmap.
  apply list_elem_of_In, List.filter_In in Hr0 as [Hin _].
  apply list_elem_of_In, list_elem_of_fmap in Hin as (r & -> & _).
  by rewrite attach_organizationId, attach_parsed.
Qed.

Lemma filter_Permutation {A} (p : A -> bool) (l l' : list A) :
  l ≡ₚ l' -> List.filter p l ≡ₚ List.filter p l'.
Proof.
  induction 1 as [|x l l' _ IH|x y l|l l' l'' _ IH1 _ IH2]; simpl.
  - done.
  - destruct (p x); [by constructor | done].
  - destruct (p x), (p y); try done. apply perm_swap.
  - by etrans.
Qed.

(** X5.  Reordering the roles given to the merge reorders the role lists of
    its results and changes nothing else. *)
Theorem merge_roles_reordered (practitioners : list Practitioner) (roles1 roles2 : list Role)
    (orgs : gmap string Organization) :
  roles1 ≡ₚ roles2 ->
  Forall2 (fun m1 m2 => base m1 = base m2 /\ roles m1 ≡ₚ roles m2)
    (mergePractitionersAndRoles practitioners roles1 orgs)
    (mergePractitionersAndRoles practitioners roles2 orgs).
Proof.
  intros Hperm. rewrite !merge_roles. apply Forall2_fmap, Forall_Forall2_diag, Forall_forall.
  intros p _. simpl. split; [done|]. by apply fmap_Permutation, filter_Permutation.
Qed.

Lemma merge_roles_reordered_witness :
  Forall2 (fun m1 m2 => base m1 = base m2 /\ roles m1 ≡ₚ roles m2)
    (mergePractitionersAndRoles [unknown_practitioner "p1"]
       [parsePractitionerRole orphan_role; parsePractitionerRole role_of_p1] ∅)
    (mergePractitionersAndRoles [unknown_practitioner "p1"]
       [parsePractitionerRole role_of_p1; parsePractitionerRole orphan_role] ∅).
Proof. apply merge_roles_reordered, perm_swap. Defined.

(** ** References *)

Lemma remove_first_unfold (pat s : string) :
  Js.remove_first pat s
  = if String.prefix pat s then Js.drop_chars (String.length pat) s
    else match s with
         | EmptyString => EmptyString
         | String c s' => String c (Js.remove_first pat s')
         end.
Proof. by destruct s. Qed.

Lemma prefix_append (pat s : string) : String.prefix pat (pat +:+ s) = true.
Proof.
  induction pat as [|c pat IH]; [by destruct s|].
  change (String c pat +:+ s) with (String c (pat +:+ s)). simpl.
  by destruct (ascii_dec c c).
Qed.

Lemma drop_chars_append (pat s : string) :
  Js.drop_chars (String.length pat) (pat +:+ s) = s.
Proof.
  induction pat as [|c pat IH]; [by destruct s|].
  by change (String c pat +:+ s) with (String c (pat +:+ s)).
Qed.

Lemma remove_first_prefix (pat s : string) : Js.remove_first pat (pat +:+ s) = s.
Proof. by rewrite remove_first_unfold, prefix_append, drop_chars_append. Qed.

Lemma remove_first_absent (pat s : string) :
  Js.includes s pat = false -> Js.remove_first pat s = s.
Proof.
  induction s as [|c s IH]; simpl.
  - by destruct pat.
  - intros [Hp Hi]%orb_false_elim. rewrite Hp. by rewrite IH.
Qed.

(** X6.  Parsing a role gives back the id of a reference
    ["Practitioner/" + id] or ["Organization/" + id], whatever the id, and
    keeps a reference whole when it does not contain that prefix. *)
Theorem parsePractitionerRole_references (resource : Resource) :
  (forall id,
     (res_practitioner resource ≫= reference) = Some ("Practitioner/" +:+ id) ->
     practitionerId (parsePractitionerRole resource) = id) /\
  (forall id,
     (res_organization resource ≫= reference) = Some ("Organization/" +:+ id) ->
     organizationId (parsePractitionerRole resource) = id) /\
  (forall ref,
     (res_practitioner resource ≫= reference) = Some ref ->
     Js.includes ref "Practitioner/" = false ->
     practitionerId (parsePractitionerRole resource) = ref) /\
  (forall ref,
     (res_organization resource ≫= reference) = Some ref ->
     Js.includes ref "Organization/" = false ->
     organizationId (parsePractitionerRole resource) = ref).
Proof.
  unfold parsePractitionerRole. cbn [practitionerId organizationId].
  repeat split.
  - intros id ->. apply (remove_first_prefix "Practitioner/" id).
  - intros id ->. apply (remove_first_prefix "Organization/" id).
  - intros ref -> Hno. unfold Js.or_str. destruct (Js.truthy ref) eqn:Ht.
    + by apply remove_first_absent.
    + by apply truthy_empty in Ht as ->.
  - intros ref -> Hno. unfold Js.or_str. destruct (Js.truthy ref) eqn:Ht.
    + by apply remove_first_absent.
    + by apply truthy_empty in Ht as ->.
Qed.

Lemma parsePractitionerRole_references_witness :
  practitionerId (parsePractitionerRole role_of_p1) = "p1" /\
  practitionerId
    (parsePractitionerRole (resource_of "PractitionerRole" "r9" (Some "urn:uuid:1234")))
  = "urn:uuid:1234".
Proof.
  split.
  - apply (proj1 (parsePractitionerRole_references role_of_p1) "p1"). reflexivity.
  - apply (proj1 (proj2 (proj2 (parsePractitionerRole_references
             (resource_of "PractitionerRole" "r9" (Some "urn:uuid:1234"))))));
      reflexivity.
Defined.

Lemma merge_resolves_organizations_witness :
  organization (attach {["o1" := clinic]} (parsePractitionerRole role_at_clinic)) = Some clinic.
Proof.
  rewrite (merge_resolves_organizations [unknown_practitioner "p1"] [role_at_clinic]
             {["o1" := clinic]}
             {| base := unknown_practitioner "p1";
                roles := [attach {["o1" := clinic]} (parsePractitionerRole role_at_clinic)] |}).
  - reflexivity.
  - rewrite merge_roles. left.
  - left.
Defined.

(** ** Pages of practitioners *)

Lemma fetchRoles_healthy (ids : list string) up log :
  healthy up ->
  exists r,
    fetchRolesForPractitioners ids up log
    = (Ret r, log ++ (roles_request <$> batches_of 50 (Some 6%nat) ids)).
Proof.
  intros Hup. unfold fetchRolesForPractitioners. rewrite for_batches_batches by lia.
  by apply fold_roles_batches_healthy.
Qed.

(** Against an upstream that answers, resolving a page sends the role
    queries and returns one result per entry, in order. *)
Lemma resolve_healthy (entries : list Resource) up log :
  healthy up ->
  exists results,
    resolve entries up log = (Ret results, log ++ role_queries entries) /\
    base <$> results = parsePractitioner <$> entries.
Proof.
  intros Hup. unfold resolve, role_queries.
  destruct (fetchRoles_healthy (pract_id <$> (parsePractitioner <$> entries)) up log Hup)
    as (r & Hr).
  rewrite (bind_Ret _ _ _ _ _ _ Hr). eexists. split.
  - unfold ret. do 3 f_equal. rewrite <- list_fmap_compose. by apply list_fmap_ext.
  - rewrite merge_roles, <- list_fmap_compose.
    by rewrite <- (list_fmap_id (parsePractitioner <$> entries)) at 2.
Qed.

(** X7.  A continuation token that starts with the upstream base URL is
    fetched as it is.  Against an upstream that answers every call, with
    ids that name no member of [Object.prototype], an empty page gives
    total 0 and a null next page; a page with entries is returned whole: one
    result per entry, in order, total their number, with the upstream total
    and the next link of the page, after the role queries for its
    practitioners. *)
Theorem handleLoadMore_page (nextUrl : string) (up : Upstream) (log : list Request)
    (bundle : Bundle) :
  healthy up -> plain_ids up ->
  Js.startsWith nextUrl API_BASE = true ->
  up (length log) (Follow nextUrl) = HttpOk bundle ->
  exists e,
    handleLoadMore nextUrl up log
    = (Ret (ok e),
       log ++ Follow nextUrl ::
         (if no_entries bundle then [] else role_queries (default [] (entry bundle)))) /\
    env_total e = length (default [] (entry bundle)) /\
    base <$> results e = parsePractitioner <$> default [] (entry bundle) /\
    totalFhir e = (if no_entries bundle then None else Some (total_or_0 bundle)) /\
    nextPage e = Some (if no_entries bundle then None else Js.or_null (next_link bundle)) /\
    message e = None.
Proof.
  intros Hup _ Hbase Hpage. unfold handleLoadMore. rewrite Hbase. simpl.
  assert (Hfetch : fhirFetch (Follow nextUrl) up log = (Ret bundle, log ++ [Follow nextUrl]))
    by (unfold fhirFetch; by rewrite Hpage).
  rewrite (bind_Ret _ _ _ _ _ _ Hfetch).
  destruct (no_entries bundle) eqn:Hnone.
  - eexists. split; [reflexivity|]. simpl.
    unfold no_entries in Hnone. by destruct (entry bundle) as [[|]|].
  - destruct (resolve_healthy (default [] (entry bundle)) up (log ++ [Follow nextUrl]) Hup)
      as (results & Hres & Hbases).
    rewrite (bind_Ret _ _ _ _ _ _ Hres). eexists. split.
    + unfold ret. by rewrite <- app_assoc.
    + simpl. split; [|done].
      by rewrite <- (length_fmap base), Hbases, length_fmap.
Qed.

Lemma handleLoadMore_page_witness :
  exists e,
    run (handleLoadMore (API_BASE +:+ "/Practitioner?page=2")) three_found
    = (Ret (ok e),
       [Follow (API_BASE +:+ "/Practitioner?page=2"); roles_request ["p1"; "p2"; "p3"]]) /\
    env_total e = 3%nat.
Proof.
  destruct (handleLoadMore_page (API_BASE +:+ "/Practitioner?page=2") three_found []
              (bundle_of [resource_of "Practitioner" "p1" None;
                          resource_of "Practitioner" "p2" None;
                          resource_of "Practitioner" "p3" None]))
    as (e & Hrun & Htotal & _);
    [apply always_healthy | apply three_found_plain | reflexivity | reflexivity |].
  exists e. split; [exact Hrun | exact Htotal].
Defined.

(** X8.  Against an upstream that answers every call, with ids that name no
    member of [Object.prototype], the identifier lookup sends one query on
    the identifier in the RPPS namespace with a page of 10, then the role
    queries for what it found; it returns one result per entry, in order,
    and never an upstream total, a message or a next page. *)
Theorem searchByRpps_results (rpps : string) (up : Upstream) (log : list Request) :
  healthy up -> plain_ids up ->
  exists bundle e,
    up (length log) (rpps_request rpps) = HttpOk bundle /\
    searchByRpps rpps up log
    = (Ret (ok e),
       log ++ rpps_request rpps ::
         (if no_entries bundle then [] else role_queries (default [] (entry bundle)))) /\
    env_total e = length (default [] (entry bundle)) /\
    base <$> results e = parsePractitioner <$> default [] (entry bundle) /\
    totalFhir e = None /\ nextPage e = None /\ message e = None.
Proof.
  intros Hup _. unfold searchByRpps.
  destruct (fhirFetch_healthy (rpps_request rpps) up log Hup) as (bundle & Hb & Hfetch).
  exists bundle.
  change (Search "Practitioner" _) with (rpps_request rpps).
  rewrite (bind_Ret _ _ _ _ _ _ Hfetch).
  destruct (no_entries bundle) eqn:Hnone.
  - eexists. split; [done|]. split; [reflexivity|]. simpl.
    unfold no_entries in Hnone. by destruct (entry bundle) as [[|]|].
  - destruct (resolve_healthy (default [] (entry bundle)) up (log ++ [rpps_request rpps]) Hup)
      as (results & Hres & Hbases).
    rewrite (bind_Ret _ _ _ _ _ _ Hres). eexists. split; [done|]. split.
    + unfold ret. by rewrite <- app_assoc.
    + simpl. split; [|done].
      by rewrite <- (length_fmap base), Hbases, length_fmap.
Qed.

Lemma searchByRpps_results_witness :
  exists e log', run (searchByRpps "10001234567") three_found = (Ret (ok e), log') /\
                 env_total e = 3%nat.
Proof.
  destruct (searchByRpps_results "10001234567" three_found [] (always_healthy _)
              three_found_plain)
    as (bundle & e & Hb & Hrun & Htotal & _).
  exists e. eexists. split; [exact Hrun|].
  rewrite Htotal. injection Hb as <-. reflexivity.
Defined.

(** ** The role/attribute lookup *)

(** X9.  For a page size that is NaN or a safe integer, the role lookup
    sends exactly one query whatever the upstream answers.  Its parameters
    are the page size as [count.toString()], the organization include (the
    practitioner include set first is overwritten by the second [set] on
    the same name) and the specialty as [role] when there is one; the city
    is not sent. *)
Theorem searchByRoleFilters_query (city specialty : string) (count : Js.Num)
    (up : Upstream) (log : list Request) :
  Js.safe count ->
  (searchByRoleFilters city specialty count up log).2
  = log ++ [Search "PractitionerRole" (role_filter_params specialty count)].
Proof.
  intros _. unfold searchByRoleFilters, role_filter_params.
  assert (Hparams :
    (if Js.truthy specialty
     then set "role" specialty
            (set "_include" "PractitionerRole:organization"
               (set "_include" "PractitionerRole:practitioner"
                  (set "_count" (Js.toString count) [])))
     else set "_include" "PractitionerRole:organization"
            (set "_include" "PractitionerRole:practitioner"
               (set "_count" (Js.toString count) [])))
    = [("_count", Js.toString count); ("_include", "PractitionerRole:organization")]
      ++ (if Js.truthy specialty then [("role", specialty)] else []))
    by (by destruct (Js.truthy specialty)).
  cbv zeta. rewrite Hparams. unfold bind, fhirFetch.
  destruct (up (length log) _) as [bundle|]; [|done].
  destruct (no_entries bundle); [done|].
  unfold lift. by destruct (filterBySpecialty _ _).
Qed.

Lemma searchByRoleFilters_query_witness :
  (run (searchByRoleFilters "Lyon" "cardio" (Js.Int 50)) registry).2
  = [Search "PractitionerRole"
       [("_count", "50"); ("_include", "PractitionerRole:organization"); ("role", "cardio")]].
Proof.
  apply (searchByRoleFilters_query "Lyon" "cardio" (Js.Int 50) registry []). simpl. lia.
Defined.

Lemma bind_inv {A B} (m : M A) (f : A -> M B) up log b log' :
  bind m f up log = (Ret b, log') ->
  exists a log1, m up log = (Ret a, log1) /\ f a up log1 = (Ret b, log').
Proof.
  unfold bind. destruct (m up log) as [[a|msg] log1]; [|done]. intros H. by exists a, log1.
Qed.

Lemma insert_index_perm {A} (n : Z) (x : A) (l : list (Z * A)) :
  insert_index n x l ≡ₚ (n, x) :: l.
Proof.
  induction l as [|[m y] l IH]; simpl; [done|].
  destruct (n <? m); [done|]. rewrite IH. apply perm_swap.
Qed.

Lemma filter_partition {A} (p q : A -> bool) (l : list A) :
  (forall x, q x = negb (p x)) -> List.filter p l ++ List.filter q l ≡ₚ l.
Proof.
  intros Hq. induction l as [|x l IH]; simpl; [done|].
  rewrite Hq. destruct (p x); simpl.
  - by constructor.
  - rewrite <- Permutation_middle. by constructor.
Qed.

(** [Object.entries] enumerates every entry once. *)
Lemma entries_perm {A} (o : list (string * A)) : entries o ≡ₚ o.
Proof.
  unfold entries.
  set (step := fun (acc : list (Z * (string * A))) (kv : string * A) =>
                 match array_index kv.1 with
                 | Some n => insert_index n kv acc
                 | None => acc
                 end).
  assert (Hidx : forall acc,
            snd <$> foldl step acc o
            ≡ₚ (snd <$> acc)
               ++ List.filter (fun kv => bool_decide (is_Some (array_index kv.1))) o).
  { induction o as [|kv o IH]; intros acc; simpl; [by rewrite app_nil_r|].
    rewrite IH. unfold step.
    destruct (array_index kv.1) as [n|]; simpl.
    - rewrite insert_index_perm. simpl. by rewrite <- Permutation_middle.
    - done. }
  rewrite Hidx. simpl. apply filter_partition. intros kv.
  destruct (array_index kv.1); repeat case_bool_decide; try done; exfalso; naive_solver.
Qed.

Lemma group_push_grouped (role : Role) (o : list (string * list Role)) :
  well_grouped o -> well_grouped (group_push (practitionerId role) role o).
Proof.
  intros [Hnd Hall]. unfold group_push. case_bool_decide as Hin.
  - split.
    + rewrite <- list_fmap_compose.
      rewrite (list_fmap_ext _ fst o); [done|].
      intros _ kv _. simpl. by destruct (String.eqb _ _).
    + apply Forall_fmap. eapply Forall_impl; [exact Hall|].
      intros [k l] [Hne Hl]. simpl in *.
      destruct (String.eqb_spec k (practitionerId role)) as [->|_]; simpl; [|done].
      split; [by destruct l|]. apply Forall_app. split; [done|]. by constructor.
  - split.
    + rewrite fmap_app. simpl. apply NoDup_app. split; [done|].
      split; [|apply NoDup_singleton].
      intros k Hk ->%list_elem_of_singleton. done.
    + apply Forall_app. split; [done|]. repeat constructor. done.
Qed.

Lemma separate_keys (es : list Resource) (acc : Included) :
  (forall k p, inc_practitioners acc !! k = Some p -> pract_id p = k) ->
  forall k p, inc_practitioners (foldl separate acc es) !! k = Some p -> pract_id p = k.
Proof.
  revert acc. induction es as [|e es IH]; intros acc Hacc; [done|].
  simpl. apply IH. unfold separate.
  destruct (String.eqb _ "PractitionerRole"); [done|].
  destruct (String.eqb _ "Practitioner"); simpl.
  - intros k p. destruct (decide (res_id e = k)) as [<-|Hne].
    + rewrite lookup_insert_eq. by intros [= <-].
    + rewrite lookup_insert_ne by done. apply Hacc.
  - by destruct (String.eqb _ "Organization").
Qed.

Lemma filter_sublist {A} (p : A -> bool) (l : list A) : List.filter p l `sublist_of` l.
Proof.
  induction l as [|x l IH]; simpl; [done|].
  destruct (p x); by constructor.
Qed.

Lemma filter_throwing_sublist {A} (p : A -> Outcome bool) (l out : list A) :
  filter_throwing p l = Ret out -> out `sublist_of` l.
Proof.
  revert out. induction l as [|x l IH]; intros out; simpl.
  - by intros [= <-].
  - destruct (p x) as [b|]; [|done].
    destruct (filter_throwing p l) as [out'|]; [|done].
    intros [= <-]. specialize (IH out' eq_refl). destruct b; by constructor.
Qed.

Lemma filterByCity_sublist (results : list MergedResult) (city : string) :
  filterByCity results city `sublist_of` results.
Proof.
  unfold filterByCity. destruct (negb _); [done|]. apply filter_sublist.
Qed.

Lemma filterBySpecialty_sublist (results out : list MergedResult) (specialty : string) :
  filterBySpecialty results specialty = Ret out -> out `sublist_of` results.
Proof.
  unfold filterBySpecialty. destruct (negb _); [by intros [= <-]|].
  apply filter_throwing_sublist.
Qed.

(** X10.  Whenever the role lookup returns, its results are grouped by
    practitioner reference: no two results share an id, every result has at
    least one role, and every role of a result refers to that result's id,
    whether the practitioner record was in the bundle or not. *)
Theorem searchByRoleFilters_grouped (city specialty : string) (count : Js.Num)
    (up : Upstream) (log log' : list Request) (resp : Response) :
  searchByRoleFilters city specialty count up log = (Ret resp, log') ->
  exists e,
    resp = ok e /\
    env_total e = length (results e) /\
    NoDup (mr_id <$> results e) /\
    Forall (fun r => roles r <> [] /\
                     Forall (fun role => practitionerId role = mr_id r) (roles r))
      (results e).
Proof.
  unfold searchByRoleFilters. cbv zeta.
  intros (bundle & log1 & _ & H)%bind_inv.
  destruct (no_entries bundle).
  { injection H as <- <-. eexists. split; [done|]. simpl. repeat split; constructor. }
  apply bind_inv in H as (out & log2 & Hout & H). injection H as <- <-.
  unfold lift in Hout. injection Hout as Hout _.
  eexists. split; [done|]. simpl. split; [done|].
  set (inc := foldl separate _ _) in *.
  set (o := foldl _ [] (inc_roles inc)) in *.
  assert (Ho : well_grouped o).
  { unfold o. generalize (inc_roles inc). intros rs.
    assert (Hgen : forall o0, well_grouped o0 ->
              well_grouped
                (foldl (fun o1 role =>
                          let role0 := attach (inc_organizations inc) role in
                          group_push (practitionerId role0) role0 o1) o0 rs)).
    { induction rs as [|role rs IH]; intros o0 Ho0; [done|].
      simpl. apply IH. by apply group_push_grouped. }
    apply Hgen. split; constructor. }
  assert (Hkeys : forall k p, inc_practitioners inc !! k = Some p -> pract_id p = k).
  { apply separate_keys. intros k p. simpl. by rewrite lookup_empty. }
  set (F := fun kv : string * list Role =>
              {| base := default (unknown_practitioner kv.1) (inc_practitioners inc !! kv.1);
                 roles := kv.2 |}) in *.
  assert (Hid : forall kv, mr_id (F kv) = kv.1).
  { intros kv. unfold F, mr_id. simpl.
    destruct (inc_practitioners inc !! kv.1) as [p|] eqn:Hp; [by apply Hkeys|done]. }
  assert (Hsub : out `sublist_of` (F <$> entries o)).
  { etrans; [by eapply filterBySpecialty_sublist | apply filterByCity_sublist]. }
  destruct Ho as [Hnd Hall]. split.
  - eapply sublist_NoDup; [|by apply (fmap_sublist mr_id)].
    rewrite <- list_fmap_compose.
    rewrite (list_fmap_ext _ fst (entries o)) by (intros _ kv _; apply Hid).
    by rewrite entries_perm.
  - apply Forall_forall. intros r Hr%(sublist_subseteq _ _ Hsub).
    apply list_elem_of_fmap in Hr as (kv & -> & Hkv).
    rewrite entries_perm in Hkv. rewrite Hid. simpl.
    by eapply Forall_forall in Hall.
Qed.

Lemma searchByRoleFilters_grouped_witness :
  exists e log',
    run (searchByRoleFilters "" "" (Js.Int 50)) registry = (Ret (ok e), log') /\
    NoDup (mr_id <$> results e).
Proof.
  destruct (run (searchByRoleFilters "" "" (Js.Int 50)) registry) as [[resp|msg] log'] eqn:Hrun;
    [|discriminate Hrun].
  destruct (searchByRoleFilters_grouped "" "" (Js.Int 50) registry [] log' resp Hrun)
    as (e & -> & _ & Hnd & _).
  by exists e, log'.
Defined.

(** ** Roles in the reverse lookup *)

Lemma collect_org_role_grouped (orgs : gmap string Organization) (acc : RolesByOrg)
    (r : Resource) :
  org_grouped acc -> org_grouped (collect_org_role orgs acc r).
Proof.
  intros (Hnd & Hkeys & Hroles). unfold collect_org_role.
  destruct (String.eqb _ _); [|done].
  set (role := attach orgs (parsePractitionerRole r)).
  set (pid := practitionerId role). unfold org_grouped, push_role, set_add. simpl.
  split; [|split].
  - case_bool_decide; [done|]. apply NoDup_app. split; [done|].
    split; [|apply NoDup_singleton]. by intros x Hx ->%list_elem_of_singleton.
  - intros x. destruct (decide (x = pid)) as [->|Hne].
    + rewrite lookup_insert_eq. split; [by eexists|]. intros _.
      case_bool_decide; [done|]. apply elem_of_app. right. left.
    + rewrite lookup_insert_ne by done. rewrite <- Hkeys.
      case_bool_decide; [done|]. rewrite elem_of_app, list_elem_of_singleton.
      split; [by intros [?|?] | by left].
  - intros x l. destruct (decide (x = pid)) as [->|Hne].
    + rewrite lookup_insert_eq. intros [= <-]. split; [by destruct (default _ _)|].
      apply Forall_app. split; [|by constructor].
      destruct (rolesByPractitioner acc !! pid) as [l0|] eqn:Hl0; [|constructor].
      by apply (Hroles pid l0).
    + rewrite lookup_insert_ne by done. apply Hroles.
Qed.

Lemma fold_matched_healthy (qualCode : string) (bs : list (list string)) up :
  healthy up ->
  forall acc log,
    exists matched,
      fold_batches (matched_batch qualCode) bs acc up log
      = (Ret matched, log ++ (practitioners_request qualCode <$> bs)).
Proof.
  intros Hup. induction bs as [|b bs IH]; intros acc log; simpl.
  - exists acc. unfold ret. by rewrite app_nil_r.
  - unfold matched_batch at 1.
    destruct (fhirFetch_healthy (practitioners_request qualCode b) up log Hup)
      as (bundle & _ & Hf).
    unfold bind at 1. rewrite (bind_Ret _ _ _ _ _ _ Hf). unfold ret at 1.
    destruct (IH (acc ++ (parsePractitioner <$> default [] (entry bundle)))
                (log ++ [practitioners_request qualCode b])) as [matched Hm].
    exists matched. rewrite Hm. by rewrite <- app_assoc.
Qed.

Lemma queries_of_app (kind : string) (l1 l2 : list Request) :
  queries_of kind (l1 ++ l2) = queries_of kind l1 ++ queries_of kind l2.
Proof. apply List.filter_app. Qed.

Lemma queries_of_practitioners (qualCode : string) (bs : list (list string)) :
  queries_of "Practitioner" (practitioners_request qualCode <$> bs)
  = practitioners_request qualCode <$> bs.
Proof.
  induction bs as [|b bs IH]; [done|].
  unfold queries_of in *. rewrite fmap_cons. simpl. by rewrite IH.
Qed.

(** X11.  Against an upstream that answers every call, with ids that name
    no member of [Object.prototype], the practitioner queries of the
    reverse lookup are the batches of a list of ids without duplicate, at
    most five batches of at most fifty: no practitioner id is asked for
    twice.  Every role of a result refers to that result's id. *)
Theorem reverse_lookup_roles (qualCode city : string) (count : Js.Num)
    (up : Upstream) (log : list Request) :
  healthy up -> plain_ids up ->
  exists e pids,
    (searchBySpecialtyAndCity qualCode city count up log).1 = Ret (ok e) /\
    queries_of "Practitioner" (issued (searchBySpecialtyAndCity qualCode city count) up log)
    = practitioners_request qualCode <$> batches_of 50 (Some 5%nat) pids /\
    NoDup pids /\
    (length (batches_of 50 (Some 5%nat) pids) <= 5)%nat /\
    Forall (fun batch => (length batch <= 50)%nat) (batches_of 50 (Some 5%nat) pids) /\
    Forall (fun r => Forall (fun role => practitionerId role = mr_id r) (roles r)) (results e).
Proof.
  intros Hup _.
  assert (Hrun : exists e pids sent,
            searchBySpecialtyAndCity qualCode city count up log
            = (Ret (ok e),
               log ++ sent
               ++ (practitioners_request qualCode <$> batches_of 50 (Some 5%nat) pids)) /\
            queries_of "Practitioner" sent = [] /\
            NoDup pids /\
            Forall (fun r => Forall (fun role => practitionerId role = mr_id r) (roles r))
              (results e)).
  { unfold searchBySpecialtyAndCity.
    destruct (fhirFetch_healthy (organizations_request city) up log Hup)
      as (orgBundle & _ & H1).
    rewrite (bind_Ret _ _ _ _ _ _ H1).
    destruct (no_entries orgBundle).
    { exists {| env_total := 0; totalFhir := None; results := [];
                message := Some ("Aucune structure trouvée à " +:+ city); nextPage := None |},
        [], [organizations_request city].
      split; [by rewrite app_nil_r|]. split; [done|]. split; constructor. }
    match goal with
    | |- context [bind ?m _ up ?l] =>
        assert (exists allOrgEntries sent2,
                  m up l = (Ret allOrgEntries, log ++ sent2) /\
                  queries_of "Practitioner" sent2 = [])
          as (allOrgEntries & sent2 & H2 & Hq2)
    end.
    { destruct (next_link orgBundle) as [nextOrgUrl|]; [|by eexists _, [_]].
      destruct (Js.truthy nextOrgUrl); [|by eexists _, [_]].
      destruct (fhirFetch_healthy (Follow nextOrgUrl) up
                  (log ++ [organizations_request city]) Hup) as (nextBundle & _ & Hn).
      rewrite (bind_Ret _ _ _ _ _ _ Hn). eexists _, [_; _].
      by rewrite <- app_assoc. }
    rewrite (bind_Ret _ _ _ _ _ _ H2).
    destruct (foldl index_org _ allOrgEntries) as [orgs orgIds]. cbv zeta.
    match goal with
    | |- context [for_batches _ _ _ ?items (org_roles_batch orgs) _ ?acc0] =>
        destruct (for_batches_inv 50 (Some 6%nat) items (org_roles_batch orgs)
                    (fun acc l =>
                       org_grouped acc /\
                       exists sent, l = log ++ sent /\ queries_of "Practitioner" sent = [])
                    up) with (acc := acc0) (log := log ++ sent2)
          as (byOrg & log3 & H3 & (Hnd & _ & Hroles) & sent3 & -> & Hq3)
    end; [lia| | |].
    { intros batch acc l [Hacc (sent & -> & Hq)]. unfold org_roles_batch.
      destruct (fhirFetch_healthy
                  (Search "PractitionerRole"
                     (set "_count" "200" (set "organization" (Js.join "," batch) [])))
                  up (log ++ sent) Hup) as (b & _ & Hb).
      rewrite (bind_Ret _ _ _ _ _ _ Hb). eexists _, _. split; [reflexivity|]. split.
      - generalize (default [] (entry b)). intros es. revert acc Hacc.
        induction es as [|e es IH]; intros acc Hacc; [done|].
        simpl. by apply IH, collect_org_role_grouped.
      - eexists (sent ++ [_]). split; [by rewrite app_assoc|].
        by rewrite queries_of_app, Hq. }
    { split; [|by exists sent2]. split; [constructor|]. simpl. split.
      - intros pid. rewrite lookup_empty, elem_of_nil. split; [done|]. by intros [? ?].
      - intros pid l. by rewrite lookup_empty. }
    rewrite (bind_Ret _ _ _ _ _ _ H3).
    case_bool_decide.
    { exists empty_envelope, [], sent3. split; [by rewrite app_nil_r|].
      split; [done|]. split; constructor. }
    destruct (fold_matched_healthy qualCode
                (batches_of 50 (Some 5%nat) (practitionerIds byOrg)) up Hup []
                (log ++ sent3)) as [matched H4].
    rewrite <- for_batches_batches in H4 by lia.
    rewrite (bind_Ret _ _ _ _ _ _ H4).
    eexists _, (practitionerIds byOrg), sent3. split; [by rewrite <- app_assoc|].
    split; [done|]. split; [done|]. simpl.
    apply Forall_forall. intros r Hr%slice_to_subseteq.
    apply list_elem_of_fmap in Hr as (p & -> & _). unfold with_roles, mr_id. simpl.
    destruct (rolesByPractitioner byOrg !! pract_id p) as [l|] eqn:Hl; [|constructor].
    by apply (Hroles (pract_id p) l). }
  destruct Hrun as (e & pids & sent & Hrun & Hq & Hnd & Hroles).
  exists e, pids. split; [by rewrite Hrun|]. split.
  { unfold issued. rewrite Hrun. simpl. rewrite drop_app_length.
    by rewrite queries_of_app, Hq, queries_of_practitioners. }
  split; [done|]. split; [|split; [|done]].
  - rewrite length_batches_of. simpl. lia.
  - apply Forall_forall. intros batch Hb. by apply batches_of_bounded in Hb as [? _].
Qed.

Lemma reverse_lookup_roles_witness :
  exists e,
    (run (searchBySpecialtyAndCity "SM04" "Lyon" (Js.Int 10)) registry).1 = Ret (ok e) /\
    Forall (fun r => Forall (fun role => practitionerId role = mr_id r) (roles r)) (results e).
Proof.
  destruct (reverse_lookup_roles "SM04" "Lyon" (Js.Int 10) registry [] registry_healthy
              registry_plain)
    as (e & pids & Hrun & _ & _ & _ & _ & Hroles).
  by exists e.
Defined.

(** A role without practitioner reference is not skipped by the reverse
    lookup: the empty id goes into the practitioner query. *)
Example reverse_lookup_empty_reference :
  (run (searchBySpecialtyAndCity "SM04" "Lyon" (Js.Int 10))
     (always [resource_of "PractitionerRole" "r1" None])).2
  = [organizations_request "Lyon";
     Search "PractitionerRole" [("organization", "r1"); ("_count", "200")];
     practitioners_request "SM04" [""]].
Proof. reflexivity. Qed.

(** ** More on the post-filters *)

Lemma filter_filter_same {A} (p : A -> bool) (l : list A) :
  List.filter p (List.filter p l) = List.filter p l.
Proof.
  induction l as [|x l IH]; simpl; [done|].
  destruct (p x) eqn:Hp; simpl; by rewrite ?Hp, IH.
Qed.

Lemma filter_throwing_again {A} (p : A -> Outcome bool) (l out : list A) :
  filter_throwing p l = Ret out -> filter_throwing p out = Ret out.
Proof.
  revert out. induction l as [|x l IH]; intros out; simpl.
  - by intros [= <-].
  - destruct (p x) as [b|] eqn:Hp; [|done].
    destruct (filter_throwing p l) as [out'|]; [|done].
    intros [= <-]. specialize (IH out' eq_refl).
    destruct b; simpl; by rewrite ?Hp, ?IH.
Qed.

Lemma truthy_toLowerCase (s : string) : Js.truthy (Js.toLowerCase s) = Js.truthy s.
Proof. by destruct s. Qed.

(** X12.  The post-filters keep the order of the results, filtering twice
    by the same string changes nothing, and two strings that differ only in
    the case of the letters A to Z select the same results. *)
Theorem filters_idempotent (results : list MergedResult) (city specialty : string) :
  filterByCity results city `sublist_of` results /\
  filterByCity (filterByCity results city) city = filterByCity results city /\
  (forall out, filterBySpecialty results specialty = Ret out ->
     out `sublist_of` results /\ filterBySpecialty out specialty = Ret out) /\
  (forall city', Js.toLowerCase city = Js.toLowerCase city' ->
     filterByCity results city = filterByCity results city') /\
  (forall specialty', Js.toLowerCase specialty = Js.toLowerCase specialty' ->
     filterBySpecialty results specialty = filterBySpecialty results specialty').
Proof.
  split; [apply filterByCity_sublist|]. split; [|split; [|split]].
  - unfold filterByCity. destruct (negb _); [done|]. apply filter_filter_same.
  - intros out Hout. split; [by eapply filterBySpecialty_sublist|].
    revert Hout. unfold filterBySpecialty. destruct (negb _); [by intros [= <-]|].
    apply filter_throwing_again.
  - intros city' Hlow. unfold filterByCity.
    rewrite <- (truthy_toLowerCase city), <- (truthy_toLowerCase city'). by rewrite Hlow.
  - intros specialty' Hlow. unfold filterBySpecialty.
    rewrite <- (truthy_toLowerCase specialty), <- (truthy_toLowerCase specialty').
    by rewrite Hlow.
Qed.

Lemma filters_idempotent_witness :
  filterByCity [dermatologist; cardiologist] "LYON"
  = filterByCity [dermatologist; cardiologist] "lyon" /\
  filterBySpecialty [cardiologist] "cardio" = Ret [cardiologist].
Proof.
  pose proof (filters_idempotent [dermatologist; cardiologist] "LYON" "cardio")
    as (_ & _ & Hagain & Hcase & _).
  split.
  - by apply Hcase.
  - by apply (Hagain [cardiologist]).
Defined.

(** ** The envelope of the name search *)

Lemma resolve_log (entries : list Resource) up log results log' :
  resolve entries up log = (Ret results, log') -> log' = log ++ role_queries entries.
Proof.
  unfold resolve. intros (r & log1 & Hr & H)%bind_inv. injection H as _ <-.
  unfold fetchRolesForPractitioners in Hr. rewrite for_batches_batches in Hr by lia.
  apply fold_roles_batches in Hr as [-> _]. unfold role_queries.
  do 3 f_equal. rewrite <- list_fmap_compose. by apply list_fmap_ext.
Qed.

Lemma resolve_bases (entries : list Resource) up log results log' :
  resolve entries up log = (Ret results, log') ->
  base <$> results = parsePractitioner <$> entries.
Proof.
  unfold resolve. intros (r & log1 & _ & H)%bind_inv. injection H as <- _.
  rewrite merge_roles, <- list_fmap_compose.
  transitivity (id <$> (parsePractitioner <$> entries)); [|apply list_fmap_id].
  by apply list_fmap_ext.
Qed.

Lemma fhirFetch_inv (req : Request) up log b log' :
  fhirFetch req up log = (Ret b, log') ->
  log' = log ++ [req] /\ up (length log) req = HttpOk b.
Proof. unfold fhirFetch. destruct (up (length log) req); [|done]. by intros [= <- <-]. Qed.

Lemma queries_of_roles (entries : list Resource) :
  queries_of "Practitioner" (role_queries entries) = [].
Proof.
  unfold role_queries. generalize (batches_of 50 (Some 6%nat) (res_id <$> entries)).
  intros bs. induction bs as [|b bs IH]; [done|].
  unfold queries_of in *. rewrite fmap_cons. simpl. exact IH.
Qed.

(** The bundle the chain returns answers the last plan it sent. *)
Lemma name_chain_accepts (name : string) (up : Upstream) (log log1 : list Request)
    (b : Bundle) :
  name_chain name up log = (Ret b, log1) ->
  exists sent req,
    log1 = log ++ sent ++ [req] /\
    up (length log + length sent)%nat req = HttpOk b /\
    sent ++ [req] `prefix_of` chain_plans name.
Proof.
  unfold name_chain, chain_plans.
  destruct (2 <=? length (Js.trim_split name))%nat; unfold bind, fhirFetch, ret.
  - destruct (up (length log) _) as [b1|] eqn:H1; [|done].
    destruct (no_entries b1) eqn:E1; simpl.
    2:{ rewrite E1. intros [= <- <-]. eexists [], _. rewrite Nat.add_0_r. split; [done|].
        split; [done|]. by eexists [_; _]. }
    rewrite length_app, Nat.add_1_r.
    destruct (up (S (length log)) _) as [b2|] eqn:H2; [|done].
    destruct (no_entries b2) eqn:E2; simpl.
    2:{ intros [= <- <-]. eexists [_], _. rewrite <- app_assoc, Nat.add_1_r.
        split; [done|]. split; [done|]. by eexists [_]. }
    rewrite !length_app, !Nat.add_1_r. simpl.
    destruct (up (S (S (length log))) _) as [b3|] eqn:H3; [|done].
    intros [= <- <-]. eexists [_; _], _. rewrite <- !app_assoc.
    replace (length log + length [_; _])%nat with (S (S (length log))) by (simpl; lia).
    done.
  - destruct (up (length log) _) as [b1|] eqn:H1; [|done].
    destruct (no_entries b1) eqn:E1; simpl.
    2:{ intros [= <- <-]. eexists [], _. rewrite Nat.add_0_r. split; [done|].
        split; [done|]. by eexists [_]. }
    rewrite length_app, Nat.add_1_r.
    destruct (up (S (length log)) _) as [b2|] eqn:H2; [|done].
    intros [= <- <-]. eexists [_], _. rewrite <- app_assoc, Nat.add_1_r. done.
Qed.

(** X13.  Whenever the name search returns, it returns a 200 envelope built
    on the bundle the upstream gave to the last practitioner query of the
    run, a plan of the chain: [totalFhir] is the total of that bundle;
    [total] is the number of results; there are at most [count] results
    when [count] is a non-negative number; with a city or a specialty there
    is neither a continuation link nor a guidance message; without them the
    link is the next link of that bundle, and a message comes only with an
    upstream total above 200. *)
Theorem searchByName_envelope (name city specialty : string) (count : Js.Num)
    (up : Upstream) (log log' : list Request) (resp : Response) :
  searchByName name city specialty count up log = (Ret resp, log') ->
  exists e bundle sent req rest,
    resp = ok e /\
    log' = log ++ sent ++ req :: rest /\
    sent ++ [req] `prefix_of` chain_plans name /\
    queries_of "Practitioner" rest = [] /\
    up (length log + length sent)%nat req = HttpOk bundle /\
    totalFhir e = Some (total_or_0 bundle) /\
    env_total e = length (results e) /\
    (forall z, count = Js.Int z -> 0 <= z -> (length (results e) <= Z.to_nat z)%nat) /\
    (city <> "" \/ specialty <> "" ->
       message e = None /\ forall url, nextPage e <> Some (Some url)) /\
    (city = "" -> specialty = "" -> no_entries bundle = false ->
       nextPage e = Some (Js.or_null (next_link bundle))) /\
    (message e <> None -> 200 < total_or_0 bundle).
Proof.
  unfold searchByName. intros (bundle & log1 & Hchain & H)%bind_inv.
  apply name_chain_accepts in Hchain as (sent & req & -> & Hup & Hplans).
  destruct (no_entries bundle) eqn:Hnone.
  { injection H as <- <-. eexists _, bundle, sent, req, []. split; [done|]. simpl.
    repeat split; try done; try lia; congruence. }
  unfold finish_by_name in H.
  apply bind_inv in H as (allEntries & log2 & Hpages & H).
  apply bind_inv in H as (results0 & log3 & Hres & H).
  apply bind_inv in H as (out & log4 & Hout & H).
  unfold lift in Hout. injection Hout as Hout <-. injection H as <- <-.
  apply resolve_log in Hres as ->.
  assert (Hlog2 : exists pages,
            log2 = (log ++ sent ++ [req]) ++ pages /\ queries_of "Practitioner" pages = []).
  { destruct (_ && _).
    - unfold one_more_page in Hpages. destruct (Js.or_null _) as [nextUrl|].
      + apply bind_inv in Hpages as (page2 & l & [-> _]%fhirFetch_inv & Hret).
        injection Hret as _ <-. by exists [Follow nextUrl].
      + injection Hpages as _ <-. exists []. by rewrite app_nil_r.
    - injection Hpages as _ <-. exists []. by rewrite app_nil_r. }
  destruct Hlog2 as (pages & -> & Hq).
  eexists _, bundle, sent, req, (pages ++ role_queries allEntries). split; [done|]. simpl.
  split; [by rewrite <- !app_assoc|]. split; [done|].
  split; [by rewrite queries_of_app, Hq, queries_of_roles|].
  split; [done|]. split; [done|]. split; [done|]. split; [|split; [|split]].
  - intros z -> Hz. by apply slice_to_length.
  - intros Hfilter.
    assert (Hpost : Js.truthy city || Js.truthy specialty = true).
    { destruct Hfilter as [Hf%truthy_nonempty|Hf%truthy_nonempty]; rewrite Hf;
        [done | apply orb_true_r]. }
    rewrite Hpost. simpl. rewrite andb_false_r. done.
  - by intros -> -> _.
  - destruct (200 <? total_or_0 bundle) eqn:Ht; simpl; [|done].
    intros _. by apply Z.ltb_lt.
Qed.

Lemma searchByName_envelope_witness :
  exists e log',
    run (searchByName "Dupont Marie" "" "" (Js.Int 2)) three_found = (Ret (ok e), log') /\
    (length (results e) <= 2)%nat.
Proof.
  destruct (run (searchByName "Dupont Marie" "" "" (Js.Int 2)) three_found)
    as [[resp|msg] log'] eqn:Hrun; [|discriminate Hrun].
  destruct (searchByName_envelope "Dupont Marie" "" "" (Js.Int 2) three_found [] log' resp Hrun)
    as (e & bundle & sent & req & rest & -> & _ & _ & _ & _ & _ & _ & Hcap & _).
  exists e, log'. split; [done|]. by apply (Hcap 2).
Defined.

(** ** Parsed practitioners *)

Lemma find_Some {A} (p : A -> bool) (l : list A) (x : A) :
  Js.find p l = Some x -> x ∈ l /\ p x = true.
Proof.
  induction l as [|y l IH]; simpl; [done|].
  destruct (p y) eqn:Hp.
  - intros [= ->]. split; [left|done].
  - intros [Hin Hx]%IH. split; [by right|done].
Qed.

Lemma find_None {A} (p : A -> bool) (l : list A) :
  Forall (fun x => p x = false) l -> Js.find p l = None.
Proof. induction 1 as [|x l Hx _ IH]; simpl; [done|]. by rewrite Hx. Qed.

(** X14.  A parsed practitioner keeps every identifier of the resource, in
    order, typed RPPS when its system contains "rpps", else ADELI when it
    contains "adeli".  Its [rpps] is never the empty string: it is the
    value of an identifier typed RPPS, and null when no identifier is typed
    RPPS. *)
Theorem parsePractitioner_rpps (resource : Resource) :
  let p := parsePractitioner resource in
  let raw := default [] (res_identifier resource) in
  identifiers p = parseIdentifier <$> raw /\
  pract_id p = res_id resource /\
  (forall i s, i ∈ raw -> identifier_system i = Some s ->
     (Js.includes s "rpps" = true -> pi_type (parseIdentifier i) = "RPPS") /\
     (Js.includes s "rpps" = false -> Js.includes s "adeli" = true ->
        pi_type (parseIdentifier i) = "ADELI")) /\
  (forall v, rpps p = Some v ->
     v <> "" /\
     exists i, i ∈ raw /\ identifier_value i = Some v /\ pi_type (parseIdentifier i) = "RPPS") /\
  (Forall (fun i => pi_type (parseIdentifier i) <> "RPPS") raw -> rpps p = None).
Proof.
  cbv zeta. unfold parsePractitioner. cbn [identifiers pract_id rpps].
  split; [done|]. split; [done|]. split; [|split].
  - intros i s _ Hs. unfold parseIdentifier. cbn [pi_type]. rewrite Hs. simpl.
    split; [by intros ->|]. by intros -> ->.
  - intros v Hv.
    destruct (Js.find _ _) as [pi|] eqn:Hfind; [|done].
    apply find_Some in Hfind as [Hin Htype%String.eqb_eq].
    apply list_elem_of_fmap in Hin as (i & -> & Hi). simpl in Hv.
    unfold Js.or_null in Hv.
    destruct (identifier_value i) as [w|] eqn:Hw; [|done].
    destruct (Js.truthy w) eqn:Ht; [|done]. injection Hv as <-.
    split; [by apply truthy_nonempty|]. by exists i.
  - intros Hnone. rewrite find_None; [done|].
    apply Forall_fmap. eapply Forall_impl; [exact Hnone|].
    intros i Hi. simpl. by apply String.eqb_neq.
Qed.

Lemma parsePractitioner_rpps_witness :
  rpps (parsePractitioner identified) = Some "10001234567" /\
  exists i, i ∈ default [] (res_identifier identified) /\
            identifier_value i = Some "10001234567" /\
            pi_type (parseIdentifier i) = "RPPS".
Proof.
  split; [reflexivity|].
  apply (proj1 (proj2 (proj2 (proj2 (parsePractitioner_rpps identified)))) "10001234567").
  reflexivity.
Defined.

(** ** The bundle the name search accepts *)

(** X15.  When the fallback chain returns a bundle, it is the upstream
    answer to the last plan it sent; an empty bundle is returned only after
    every plan of the chain was sent. *)
Theorem name_chain_result (name : string) (up : Upstream) (log log' : list Request)
    (b : Bundle) :
  name_chain name up log = (Ret b, log') ->
  exists sent req,
    log' = log ++ sent ++ [req] /\
    up (length log + length sent)%nat req = HttpOk b /\
    (no_entries b = true -> sent ++ [req] = chain_plans name).
Proof.
  unfold name_chain, chain_plans.
  destruct (2 <=? length (Js.trim_split name))%nat; unfold bind, fhirFetch, ret.
  - destruct (up (length log) _) as [b1|] eqn:H1; [|done].
    destruct (no_entries b1) eqn:E1; simpl.
    2:{ rewrite E1. intros [= <- <-]. eexists [], _. rewrite Nat.add_0_r. split; [done|].
        split; [done|]. by rewrite E1. }
    rewrite length_app, Nat.add_1_r.
    destruct (up (S (length log)) _) as [b2|] eqn:H2; [|done].
    destruct (no_entries b2) eqn:E2; simpl.
    2:{ intros [= <- <-]. eexists [_], _. rewrite <- app_assoc, Nat.add_1_r.
        split; [done|]. split; [done|]. by rewrite E2. }
    rewrite !length_app, !Nat.add_1_r. simpl.
    destruct (up (S (S (length log))) _) as [b3|] eqn:H3; [|done].
    intros [= <- <-]. eexists [_; _], _. rewrite <- !app_assoc.
    replace (length log + length [_; _])%nat with (S (S (length log))) by (simpl; lia).
    done.
  - destruct (up (length log) _) as [b1|] eqn:H1; [|done].
    destruct (no_entries b1) eqn:E1; simpl.
    2:{ intros [= <- <-]. eexists [], _. rewrite Nat.add_0_r. split; [done|].
        split; [done|]. by rewrite E1. }
    rewrite length_app, Nat.add_1_r.
    destruct (up (S (length log)) _) as [b2|] eqn:H2; [|done].
    intros [= <- <-]. eexists [_], _. rewrite <- app_assoc, Nat.add_1_r. done.
Qed.

Lemma name_chain_result_witness :
  exists sent req,
    (name_chain "Dupont Marie" family_only []).2 = sent ++ [req] /\
    family_only (length sent) req = HttpOk (bundle_of [resource_of "Practitioner" "p1" None]).
Proof.
  destruct (name_chain_result "Dupont Marie" family_only []
              [plan_family_given "Dupont" "Marie"; plan_family_given "Marie" "Dupont";
               plan_family "Dupont"]
              (bundle_of [resource_of "Practitioner" "p1" None]))
    as (sent & req & Hlog & Hup & _); [reflexivity|].
  exists sent, req. split; [exact Hlog | exact Hup].
Defined.

Lemma fair_choice_later (up : Upstream) (log sent : list Request) (req : Request)
    (b : Bundle) (best : option Bundle) :
  up (length log + length sent)%nat req = HttpOk b ->
  (best = None -> no_entries b = true) ->
  fair_choice up log sent best -> fair_choice up log (sent ++ [req]) best.
Proof.
  intros Hup Hb. destruct best as [b0|]; simpl.
  - intros (Hne & k & r & Hk & Hr). split; [done|]. exists k, r.
    split; [by apply lookup_app_l_Some | done].
  - intros Hall k r b' Hk Hr. destruct (decide (k < length sent)%nat) as [Hlt|Hge].
    + rewrite lookup_app_l in Hk by done. by eapply Hall.
    + apply lookup_lt_Some in Hk as Hlen. rewrite length_app in Hlen. simpl in Hlen.
      assert (k = length sent) as -> by lia.
      rewrite lookup_app_r, Nat.sub_diag in Hk by lia. injection Hk as <-.
      rewrite Hup in Hr. injection Hr as <-. by apply Hb.
Qed.

Lemma try_strategies_fair (single : bool) (todo : list (list (string * string))) up log :
  forall sent best bestCount r log',
    fair_choice up log sent best ->
    (best = None -> bestCount = 0%nat) ->
    Older.try_strategies single todo best bestCount up (log ++ sent) = (Ret r, log') ->
    exists sent', log' = log ++ sent' /\ fair_choice up log sent' r.
Proof.
  induction todo as [|strategy todo IH]; intros sent best bestCount r log' Hfair Hcount; simpl.
  - intros [= <- <-]. by exists sent.
  - unfold bind, fhirFetch. rewrite length_app.
    destruct (up (length log + length sent)%nat (Older.strategy_request strategy))
      as [b|] eqn:Hup; [|done].
    rewrite entry_count_nonempty.
    assert (Hhere : fair_choice up log (sent ++ [Older.strategy_request strategy]) (Some b)
                    \/ nonempty b = false).
    { destruct (nonempty b) eqn:Hne; [left|by right]. split; [done|].
      exists (length sent), (Older.strategy_request strategy).
      split; [|done]. by rewrite lookup_app_r, Nat.sub_diag by lia. }
    assert (Hbest : fair_choice up log (sent ++ [Older.strategy_request strategy])
                      (if (bestCount <? length (default [] (entry b)))%nat
                       then (Some b, length (default [] (entry b)))
                       else (best, bestCount)).1 /\
                    ((if (bestCount <? length (default [] (entry b)))%nat
                      then (Some b, length (default [] (entry b)))
                      else (best, bestCount)).1 = None ->
                     (if (bestCount <? length (default [] (entry b)))%nat
                      then (Some b, length (default [] (entry b)))
                      else (best, bestCount)).2 = 0%nat)).
    { destruct (Nat.ltb_spec bestCount (length (default [] (entry b)))) as [Hlt|Hge]; simpl.
      - split; [|done]. destruct Hhere as [H|H]; [done|].
        rewrite <- entry_count_nonempty in H. apply Nat.ltb_ge in H. lia.
      - split; [|done]. apply (fair_choice_later up log sent _ b); [done| |done].
        intros Hnone. specialize (Hcount Hnone). unfold no_entries.
        destruct (entry b) as [[|]|]; simpl in Hge; [done| lia |done]. }
    destruct Hbest as [Hbest Hzero].
    destruct (nonempty b && Older.has strategy "family" && Older.has strategy "given") eqn:Hfg.
    { intros [= <- <-]. exists (sent ++ [Older.strategy_request strategy]).
      rewrite <- app_assoc. split; [done|].
      destruct Hhere as [H|H]; [done|]. by rewrite H in Hfg. }
    destruct (_ && single).
    { intros [= <- <-]. exists (sent ++ [Older.strategy_request strategy]).
      by rewrite <- app_assoc. }
    rewrite <- app_assoc. by apply IH.
Qed.

(** X16.  Whenever the strategy list of the older revision returns, the
    bundle it keeps is a non-empty upstream answer to one of the plans it
    sent, and it keeps none only when every plan it sent came back empty. *)
Theorem best_bundle_fair (name : string) (up : Upstream) (log log' : list Request)
    (best : option Bundle) :
  Older.best_bundle name up log = (Ret best, log') ->
  exists sent, log' = log ++ sent /\ fair_choice up log sent best.
Proof.
  intros H. unfold Older.best_bundle in H.
  eapply (try_strategies_fair _ _ up log [] None 0%nat); [|done|by rewrite app_nil_r].
  intros k req b Hk. done.
Qed.

Lemma best_bundle_fair_witness :
  exists sent,
    (Older.best_bundle "Dupont Marie" family_only []).2 = sent /\
    fair_choice family_only [] sent
      (Some (bundle_of [resource_of "Practitioner" "p1" None])).
Proof.
  destruct (best_bundle_fair "Dupont Marie" family_only []
              (spec_plans "Dupont Marie")
              (Some (bundle_of [resource_of "Practitioner" "p1" None])))
    as (sent & Hlog & Hfair); [reflexivity|].
  exists sent. split; [|exact Hfair]. change ([] ++ sent) with sent in Hlog.
  rewrite <- Hlog. reflexivity.
Defined.

(** ** The qualification lookup with a name *)

Lemma qualification_plans_code (code name : string) :
  Forall (carries code) (qualification_plans code name).
Proof.
  unfold qualification_plans.
  destruct (2 <=? _)%nat; [|destruct (_ =? 1)%nat]; repeat constructor; by eexists.
Qed.

(** X17.  Whenever the qualification lookup returns without going through
    the reverse lookup, it has sent a non-empty beginning of its
    practitioner queries, every one with the qualification code and none
    with the city, and after them only role queries.  The envelope is built
    on the bundle the upstream gave to the last of these queries: it
    carries the total and the next link of that bundle and no message, and
    its results are practitioners of that bundle, in their order. *)
Theorem searchByQualificationCode_envelope (code name city : string) (count : Js.Num)
    (up : Upstream) (log log' : list Request) (resp : Response) :
  Js.truthy city && negb (Js.truthy name) = false ->
  searchByQualificationCode code name city count up log = (Ret resp, log') ->
  exists e plans req bundle,
    resp = ok e /\
    plans ++ [req] `prefix_of` qualification_plans code name /\
    Forall (carries code) (plans ++ [req]) /\
    up (length log + length plans)%nat req = HttpOk bundle /\
    log' = log ++ plans
           ++ req :: (if no_entries bundle then []
                      else role_queries (default [] (entry bundle))) /\
    env_total e = length (results e) /\
    base <$> results e `sublist_of` parsePractitioner <$> default [] (entry bundle) /\
    totalFhir e = Some (total_or_0 bundle) /\
    nextPage e = Some (if no_entries bundle then None else Js.or_null (next_link bundle)) /\
    message e = None.
Proof.
  intros Hpath. unfold searchByQualificationCode. rewrite Hpath.
  intros (bundle & log1 & Hplans & H)%bind_inv.
  assert (Hsent : exists plans req,
            log1 = log ++ plans ++ [req] /\
            up (length log + length plans)%nat req = HttpOk bundle /\
            plans ++ [req] `prefix_of` qualification_plans code name).
  { unfold qualification_plans. revert Hplans.
    destruct (2 <=? _)%nat; [|destruct (_ =? 1)%nat]; unfold bind, fhirFetch, ret.
    - destruct (up (length log) _) as [b1|] eqn:H1; [|done].
      destruct (no_entries b1) eqn:E1.
      + rewrite length_app, Nat.add_1_r.
        destruct (up (S (length log)) _) as [b2|] eqn:H2; [|done].
        intros [= <- <-]. eexists [_], _. by rewrite <- app_assoc, Nat.add_1_r.
      + intros [= <- <-]. eexists [], _. rewrite Nat.add_0_r.
        split; [done|]. split; [done|]. by eexists [_].
    - destruct (up (length log) _) as [b1|] eqn:H1; [|done].
      destruct (no_entries b1) eqn:E1.
      + rewrite length_app, Nat.add_1_r.
        destruct (up (S (length log)) _) as [b2|] eqn:H2; [|done].
        intros [= <- <-]. eexists [_], _. by rewrite <- app_assoc, Nat.add_1_r.
      + intros [= <- <-]. eexists [], _. rewrite Nat.add_0_r.
        split; [done|]. split; [done|]. by eexists [_].
    - destruct (up (length log) _) as [b1|] eqn:H1; [|done].
      intros [= <- <-]. eexists [], _. by rewrite Nat.add_0_r. }
  destruct Hsent as (plans & req & -> & Hreq & Hpre).
  assert (Hcode : Forall (carries code) (plans ++ [req])).
  { pose proof (qualification_plans_code code name) as Hall.
    destruct Hpre as [more Hmore]. rewrite Hmore in Hall.
    by apply Forall_app in Hall as [Hall _]. }
  exists (match resp with {| body := Data e |} => e | _ => empty_envelope end),
    plans, req, bundle.
  destruct (no_entries bundle).
  { injection H as <- <-. simpl. repeat split; try done. apply sublist_nil_l. }
  apply bind_inv in H as (results0 & log2 & Hres & H). injection H as <- <-.
  apply resolve_bases in Hres as Hbases. apply resolve_log in Hres as ->.
  simpl. rewrite <- !app_assoc. repeat split; try done.
  rewrite <- Hbases. apply fmap_sublist, filterByCity_sublist.
Qed.

Lemma searchByQualificationCode_envelope_witness :
  exists e log',
    run (searchByQualificationCode "SM04" "Dupont" "" (Js.Int 50)) three_found
    = (Ret (ok e), log') /\
    env_total e = length (results e).
Proof.
  destruct (run (searchByQualificationCode "SM04" "Dupont" "" (Js.Int 50)) three_found)
    as [[resp|msg] log'] eqn:Hrun; [|discriminate Hrun].
  destruct (searchByQualificationCode_envelope "SM04" "Dupont" "" (Js.Int 50) three_found []
              log' resp eq_refl Hrun)
    as (e & plans & req & bundle & -> & _ & _ & _ & _ & Htotal & _).
  by exists e, log'.
Defined.

(** ** No exception against an upstream that answers *)

Section Answers.
Variable up : Upstream.
Hypothesis Hup : healthy up.

Lemma answers_ret {A} (a : A) (P : A -> Prop) : P a -> answers up (ret a) P.
Proof. intros Ha log. by exists a, log. Qed.

Lemma answers_bind {A B} (m : M A) (f : A -> M B) (P : A -> Prop) (Q : B -> Prop) :
  answers up m P -> (forall a, P a -> answers up (f a) Q) -> answers up (bind m f) Q.
Proof.
  intros Hm Hf log. destruct (Hm log) as (a & log1 & Ha & HP).
  destruct (Hf a HP log1) as (b & log2 & Hb & HQ).
  exists b, log2. split; [|done]. by rewrite (bind_Ret _ _ _ _ _ _ Ha).
Qed.

Lemma answers_any {A B} (m : M A) (f : A -> M B) (Q : B -> Prop) :
  answers up m (fun _ => True) -> (forall a, answers up (f a) Q) -> answers up (bind m f) Q.
Proof. intros Hm Hf. eapply answers_bind; [done|]. intros a _. apply Hf. Qed.

Lemma answers_fhirFetch (req : Request) : answers up (fhirFetch req) (fun _ => True).
Proof.
  intros log. destruct (fhirFetch_healthy req up log Hup) as (b & _ & Hb). by exists b, (log ++ [req]).
Qed.

Lemma answers_fold_batches {St} (body : list string -> St -> M St) (bs : list (list string))
    (acc : St) :
  (forall b a, answers up (body b a) (fun _ => True)) ->
  answers up (fold_batches body bs acc) (fun _ => True).
Proof.
  intros Hbody. revert acc. induction bs as [|b bs IH]; intros acc; simpl.
  - by apply answers_ret.
  - apply answers_any; [apply Hbody | apply IH].
Qed.

Lemma answers_for_batches {St} (batchSize : nat) maxBatches (items : list string)
    (body : list string -> St -> M St) (acc : St) :
  (0 < batchSize)%nat ->
  (forall b a, answers up (body b a) (fun _ => True)) ->
  answers up (for_batches (length items) batchSize maxBatches items body 0 acc)
    (fun _ => True).
Proof.
  intros Hb Hbody log. rewrite for_batches_batches by done.
  by apply answers_fold_batches.
Qed.

Lemma answers_one_batch {St} (req : Request) (f : Bundle -> St) :
  answers up (let* b := fhirFetch req in ret (f b)) (fun _ => True).
Proof. apply answers_any; [apply answers_fhirFetch|]. intros b. by apply answers_ret. Qed.

Lemma answers_resolve (entries : list Resource) : answers up (resolve entries) (fun _ => True).
Proof.
  unfold resolve. apply answers_any.
  - unfold fetchRolesForPractitioners. apply answers_for_batches; [lia|].
    intros b a. apply answers_one_batch.
  - intros r. by apply answers_ret.
Qed.

Lemma served_ok (e : Envelope) : served (ok e).
Proof. by left. Qed.

Lemma answers_handleLoadMore (nextUrl : string) : answers up (handleLoadMore nextUrl) served.
Proof.
  unfold handleLoadMore. destruct (negb _).
  - apply answers_ret. by right.
  - apply answers_any; [apply answers_fhirFetch|]. intros b.
    destruct (no_entries b); [apply answers_ret, served_ok|].
    apply answers_any; [apply answers_resolve|]. intros r. apply answers_ret, served_ok.
Qed.

Lemma answers_searchByRpps (rpps : string) : answers up (searchByRpps rpps) served.
Proof.
  unfold searchByRpps. apply answers_any; [apply answers_fhirFetch|]. intros b.
  destruct (no_entries b); [apply answers_ret, served_ok|].
  apply answers_any; [apply answers_resolve|]. intros r. apply answers_ret, served_ok.
Qed.

Lemma answers_searchBySpecialtyAndCity (qualCode city : string) (count : Js.Num) :
  answers up (searchBySpecialtyAndCity qualCode city count) served.
Proof.
  unfold searchBySpecialtyAndCity. apply answers_any; [apply answers_fhirFetch|]. intros b.
  destruct (no_entries b); [apply answers_ret, served_ok|].
  apply answers_any.
  { destruct (next_link b) as [u|]; [|by apply answers_ret].
    destruct (Js.truthy u); [|by apply answers_ret]. apply answers_one_batch. }
  intros allOrgEntries. destruct (foldl index_org _ _) as [orgs orgIds].
  apply answers_any.
  { apply answers_for_batches; [lia|]. intros batch a. apply answers_one_batch. }
  intros byOrg. destruct (bool_decide _); [apply answers_ret, served_ok|].
  apply answers_any.
  { apply answers_for_batches; [lia|]. intros batch a. apply answers_one_batch. }
  intros matched. apply answers_ret, served_ok.
Qed.

Lemma answers_searchByQualificationCode (code name city : string) (count : Js.Num) :
  answers up (searchByQualificationCode code name city count) served.
Proof.
  unfold searchByQualificationCode.
  destruct (_ && _); [apply answers_searchBySpecialtyAndCity|].
  apply answers_any.
  { destruct (2 <=? _)%nat; [|destruct (_ =? 1)%nat]; [| |apply answers_fhirFetch];
      (apply answers_any; [apply answers_fhirFetch|]; intros b1;
       destruct (no_entries b1); [apply answers_fhirFetch | by apply answers_ret]). }
  intros b. destruct (no_entries b); [apply answers_ret, served_ok|].
  apply answers_any; [apply answers_resolve|]. intros r. apply answers_ret, served_ok.
Qed.

Lemma answers_name_chain (name : string) : answers up (name_chain name) (fun _ => True).
Proof.
  unfold name_chain. destruct (2 <=? _)%nat.
  - apply answers_any; [apply answers_fhirFetch|]. intros b1.
    apply answers_any.
    { destruct (no_entries b1); [apply answers_fhirFetch | by apply answers_ret]. }
    intros b2. destruct (no_entries b2); [apply answers_fhirFetch | by apply answers_ret].
  - apply answers_any; [apply answers_fhirFetch|]. intros b1.
    destruct (no_entries b1); [apply answers_fhirFetch | by apply answers_ret].
Qed.

Lemma answers_searchByName (name city : string) (count : Js.Num) :
  answers up (searchByName name city "" count) served.
Proof.
  unfold searchByName. apply answers_any; [apply answers_name_chain|]. intros b.
  destruct (no_entries b); [apply answers_ret, served_ok|].
  unfold finish_by_name. apply answers_any.
  { destruct (_ && _); [|by apply answers_ret].
    unfold one_more_page. destruct (Js.or_null _); [|by apply answers_ret].
    apply answers_one_batch. }
  intros allEntries. apply answers_any; [apply answers_resolve|]. intros r.
  apply answers_any; [by apply answers_ret|]. intros out. apply answers_ret, served_ok.
Qed.

Lemma answers_searchByRoleFilters (city : string) (count : Js.Num) :
  answers up (searchByRoleFilters city "" count) served.
Proof.
  unfold searchByRoleFilters. apply answers_any; [apply answers_fhirFetch|]. intros b.
  destruct (no_entries b); [apply answers_ret, served_ok|].
  apply answers_any; [by apply answers_ret|]. intros out. apply answers_ret, served_ok.
Qed.

Lemma answers_handleSearch (params : list (string * string)) :
  field params "specialty" = "" -> answers up (handleSearch params) served.
Proof.
  unfold field, handleSearch. intros ->.
  destruct (Js.truthy _); [apply answers_handleLoadMore|].
  destruct (Js.truthy _); [apply answers_searchByRpps|].
  destruct (Js.truthy _); [apply answers_searchByQualificationCode|].
  destruct (Js.truthy _); [apply answers_searchByName|].
  destruct (Js.truthy _); [apply answers_searchByRoleFilters|].
  apply answers_ret. by right.
Qed.

End Answers.

(** X18.  Against an upstream that answers every call, with ids that name
    no member of [Object.prototype], a request without a specialty label is
    never answered with status 500: the handler returns status 200 or 400,
    whatever the other parameters are. *)
Theorem healthy_upstream_served (method : string) (params : list (string * string))
    (up : Upstream) (log : list Request) :
  healthy up -> plain_ids up -> field params "specialty" = "" ->
  exists r log', onRequest method params up log = (Ret r, log') /\ served r.
Proof.
  intros Hup _ Hspec. unfold onRequest. destruct (String.eqb method "OPTIONS").
  - eexists _, log. split; [done|]. by left.
  - destruct (answers_handleSearch up Hup params Hspec log) as (r & log' & -> & Hr).
    by exists r, log'.
Qed.

Lemma healthy_upstream_served_witness :
  exists r log',
    onRequest "GET" [("name", "Dupont"); ("city", "Lyon")] registry [] = (Ret r, log') /\
    served r.
Proof.
  apply (healthy_upstream_served "GET" [("name", "Dupont"); ("city", "Lyon")] registry []).
  - exact registry_healthy.
  - exact registry_plain.
  - reflexivity.
Defined.

Lemma unlabelled_healthy : healthy unlabelled.
Proof.
  intros n req. unfold unlabelled.
  repeat match goal with
         | |- context [match ?x with _ => _ end] => destruct x
         end; by eexists.
Qed.

(** With a specialty label the filter can throw without any upstream
    failure: a role whose coding has neither display nor code makes
    [toLowerCase] throw, and the request is answered with status 500. *)
Example unlabelled_role_is_500 :
  (run (onRequest "GET" [("name", "Dupont"); ("specialty", "cardio")]) unlabelled).1
  = Ret (jsonResponse (ErrorBody TypeError_toLowerCase) 500).
Proof. reflexivity. Qed.

(** ** The page size of a decimal count *)

Lemma digits_of_uint_acc (d : Decimal.uint) (acc : positive) :
  Js.digits (NilEmpty.string_of_uint d) (Some (Z.pos acc))
  = Some (Z.pos (Pos.of_uint_acc d acc)).
Proof.
  revert acc. induction d; intros acc; simpl; [done|..]; rewrite <- IHd; do 2 f_equal; lia.
Qed.

Lemma digits_of_uint (d : Decimal.uint) (acc : option Z) :
  d <> Decimal.Nil -> default 0 acc = 0 ->
  Js.digits (NilEmpty.string_of_uint d) acc = Some (Z.of_N (Pos.of_uint d)).
Proof.
  intros Hd Hacc. revert acc Hacc.
  induction d; intros acc Hacc; [done|..]; simpl; rewrite Hacc;
    try (change (10 * 0 + _) with (Z.pos 1) || change (10 * 0 + _) with (Z.pos 2)
         || change (10 * 0 + _) with (Z.pos 3) || change (10 * 0 + _) with (Z.pos 4)
         || change (10 * 0 + _) with (Z.pos 5) || change (10 * 0 + _) with (Z.pos 6)
         || change (10 * 0 + _) with (Z.pos 7) || change (10 * 0 + _) with (Z.pos 8)
         || change (10 * 0 + _) with (Z.pos 9));
    try (rewrite digits_of_uint_acc; done).
  assert (d = Decimal.Nil \/ d <> Decimal.Nil) as [->|Hn]
    by (destruct d; [by left|by right..]); [done|].
  by apply IHd.
Qed.

Lemma skip_space_none (a : ascii) (s : string) :
  Ascii.is_space a = false -> (nat_of_ascii a <? 194)%nat = true ->
  Js.skip_space (String a s) = String a s.
Proof.
  intros Hs Ha. unfold Js.skip_space. cbn [Js.skip_space_go].
  unfold Js.space_width. by rewrite Hs, Ha.
Qed.

Lemma parseInt_toString (z : Z) : Js.parseInt (Js.Z_toString z) = Js.Int z.
Proof.
  unfold Js.Z_toString. destruct z as [|p|p]; [done|..]; simpl.
  - pose proof (DecimalPos.Unsigned.of_to p) as Hp.
    pose proof (DecimalPos.Unsigned.to_uint_nonnil p) as Hn.
    assert (Hd : Js.digits (NilEmpty.string_of_uint (Pos.to_uint p)) None = Some (Z.pos p)).
    { rewrite digits_of_uint by done. by rewrite Hp. }
    revert Hd. unfold Js.parseInt.
    destruct (Pos.to_uint p); [done|..]; cbn [NilEmpty.string_of_uint];
      rewrite skip_space_none by done; by intros ->.
  - pose proof (DecimalPos.Unsigned.of_to p) as Hp.
    pose proof (DecimalPos.Unsigned.to_uint_nonnil p) as Hn.
    assert (Hd : Js.digits (NilEmpty.string_of_uint (Pos.to_uint p)) None = Some (Z.pos p)).
    { rewrite digits_of_uint by done. by rewrite Hp. }
    unfold Js.parseInt. rewrite skip_space_none by done. by rewrite Hd.
Qed.

Lemma Z_toString_truthy (z : Z) : Js.truthy (Js.Z_toString z) = true.
Proof.
  unfold Js.Z_toString. destruct z as [|p|p]; [done| |done]. simpl.
  pose proof (DecimalPos.Unsigned.to_uint_nonnil p) as Hn.
  by destruct (Pos.to_uint p).
Qed.

(** X19.  When [count] is the decimal numeral of a safe integer, the page
    size the router computes is that integer clamped to 500 from above (and
    not from below: a negative count stays negative). *)
Theorem page_size_decimal (params : list (string * string)) (z : Z) :
  - 2 ^ 53 < z < 2 ^ 53 ->
  get params "count" = Some (Js.Z_toString z) ->
  page_size params = Js.Int (Z.min z 500).
Proof.
  intros _ Hc. unfold page_size. rewrite Hc. unfold Js.or_str.
  rewrite Z_toString_truthy. by rewrite parseInt_toString.
Qed.

Lemma page_size_decimal_witness :
  page_size [("name", "Dupont"); ("count", "750")] = Js.Int 500.
Proof.
  apply (page_size_decimal [("name", "Dupont"); ("count", "750")] 750); [lia | reflexivity].
Defined.

(** ** Formatted addresses *)

Lemma or_null_None (o : option string) : Js.or_null o = None <-> blank o.
Proof.
  unfold blank. destruct o as [[|c s]|]; simpl; split; try done; try by intros [|].
  - by right.
  - by left.
Qed.

Lemma or_null_Some (o : option string) (s : string) : Js.or_null o = Some s -> s <> "".
Proof. by destruct o as [[|c t]|]; simpl; intros [= <-]. Qed.

Lemma truthy_strings_nonempty (l : list (option string)) :
  Forall (fun s => s <> "") (truthy_strings l).
Proof.
  unfold truthy_strings. induction l as [|o l IH]; simpl; [done|].
  destruct (Js.or_null o) as [s|] eqn:Ho; [|done].
  constructor; [by eapply or_null_Some | done].
Qed.

Lemma truthy_strings_nil (l : list (option string)) :
  truthy_strings l = [] <-> Forall blank l.
Proof.
  unfold truthy_strings. induction l as [|o l IH]; simpl; [done|].
  rewrite Forall_cons, <- IH, <- or_null_None.
  destruct (Js.or_null o); split; try done; by intros [? ?].
Qed.

Lemma join_empty (sep : string) (l : list string) :
  Forall (fun s => s <> "") l -> Js.join sep l = "" <-> l = [].
Proof.
  unfold Js.join. destruct l as [|x l]; [done|]. intros Hx%Forall_cons_1.
  destruct Hx as [Hx _]. split; [|done]. destruct x; [done|].
  by destruct l.
Qed.

Lemma blank_join (sep : string) (l : list (option string)) :
  blank (Some (Js.join sep (truthy_strings l))) <-> Forall blank l.
Proof.
  rewrite <- truthy_strings_nil, <- (join_empty sep) by apply truthy_strings_nonempty.
  unfold blank. split; [by intros [|[= ->]] | intros ->; by right].
Qed.

(** X20.  A formatted address is the empty string exactly when every line
    is empty and the postal code, the city and the country are all absent or
    empty: empty parts leave no separator behind. *)
Theorem formatAddress_empty (addr : Address) :
  formatAddress addr = "" <->
  Forall (fun l => l = "") (default [] (addr_line addr)) /\
  blank (addr_postalCode addr) /\ blank (addr_city addr) /\ blank (addr_country addr).
Proof.
  unfold formatAddress.
  rewrite join_empty by apply truthy_strings_nonempty.
  rewrite truthy_strings_nil, Forall_app, !Forall_cons, Forall_fmap.
  rewrite blank_join, !Forall_cons.
  split.
  - intros (Hl & (Hp & Hc & _) & Hco & _). split; [|tauto].
    eapply Forall_impl; [exact Hl|]. simpl. by intros l [|[= ->]].
  - intros (Hl & Hp & Hc & Hco). repeat split; try done.
    eapply Forall_impl; [exact Hl|]. simpl. intros l ->. by right.
Qed.

Example formatAddress_skips_blanks :
  formatAddress {| addr_line := Some [""; "12 rue de la Paix"]; addr_postalCode := None;
                   addr_city := Some "Lyon"; addr_country := Some "" |}
  = "12 rue de la Paix, Lyon".
Proof. reflexivity. Qed.
